(** * GNN-s: message-passing layers, training and evaluation loops

    A shallow embedding of the three experiment scripts of the repository

      - [Train/GGNN_Train.py]     (gated graph network, module [GGNN_Train]),
      - [Conv_layer/ADGN_Message.py] (antisymmetric deep graph network,
        module [ADGN_Message]),
      - [GNN_Basics/GNN.py]       (plain graph convolution network, module
        [GNN]),

    together with the properties of them that the specification states.

    The scripts sit on top of PyTorch and PyTorch Geometric.  The operators
    of these libraries that the scripts only call (the GRU cell, the message
    propagation of [MessagePassing], the optimiser, [log_softmax], ...) are
    fields of the class [Framework]; the tensor operations whose result the
    properties depend on (zero padding, concatenation, matrix product,
    transposition, broadcasting, boolean-mask indexing) are written out in
    module [Torch].  Authored code is embedded function by function under
    the name it has in the source. *)

From Stdlib Require Import List ZArith Lia String Ascii Reals Lra QArith.
From Stdlib Require Import DecimalString DecimalNat.
From stdpp Require Import gmap strings.
Import ListNotations.

Open Scope nat_scope.

(* ================================================================== *)
(** * Exceptions and the monad of effectful code                       *)
(* ================================================================== *)

(** Exceptions raised by the interpreter or by the libraries: none of them
    comes from a [raise] statement of the repository. *)
Inductive runtime_error : Type :=
  | ShapeMismatch        (* RuntimeError: sizes of tensors do not match *)
  | IndexError           (* an index outside a tensor, list or module list *)
  | NegativeDimension    (* RuntimeError: tensor with a negative dimension *)
  | ZeroDivisionError    (* Python's division by zero *)
  | TypeError            (* an operator applied to None *)
  | AttributeError       (* an attribute read from None *)
  | NameError            (* a local variable read before its assignment *)
  | JSONDecodeError      (* json.load on a file that holds no JSON object *)
  | LibraryValueError    (* a ValueError raised inside a library: the
                            RandomSampler of a shuffling DataLoader on an
                            empty data set *)
  | SystemExit (code : Z). (* argparse leaving on a malformed command line *)

(** An exception is either authored ([raise ValueError(msg)] is the one
    [raise] statement of the sources) or a runtime error. *)
Inductive exn : Type :=
  | ValueError (msg : string)
  | Runtime (e : runtime_error).

(** Result of a library operator: it can fail, but only with a runtime
    error. *)
Inductive fresult (X : Type) : Type :=
  | FOk (x : X)
  | FErr (e : runtime_error).
Arguments FOk {X} x.
Arguments FErr {X} e.

Inductive result (X : Type) : Type :=
  | Ok (x : X)
  | Raise (e : exn).
Arguments Ok {X} x.
Arguments Raise {X} e.

Definition authored (e : exn) : bool :=
  match e with ValueError _ => true | Runtime _ => false end.

(** Code with effects threads a state [S] (a log of library calls, or the
    file system and the standard output) and may raise. *)
Definition M (S X : Type) : Type := S -> result (X * S).

Definition ret {S X} (x : X) : M S X := fun s => Ok (x, s).

Definition bind {S X Y} (m : M S X) (k : X -> M S Y) : M S Y :=
  fun s => match m s with
           | Ok (x, s') => k x s'
           | Raise e => Raise e
           end.

Definition raise {S X} (e : exn) : M S X := fun _ => Raise e.

Definition lift {S X} (r : fresult X) : M S X :=
  fun s => match r with
           | FOk x => Ok (x, s)
           | FErr e => Raise (Runtime e)
           end.

(** Sequencing of library operators. *)
Definition fbind {X Y} (r : fresult X) (k : X -> fresult Y) : fresult Y :=
  match r with
  | FOk x => k x
  | FErr e => FErr e
  end.

Definition get {S} : M S S := fun s => Ok (s, s).
Definition put {S} (s : S) : M S unit := fun _ => Ok (tt, s).
Definition modify {S} (f : S -> S) : M S unit := fun s => Ok (tt, f s).

Declare Scope eff_scope.
Delimit Scope eff_scope with eff.
Notation "x <- m ;; k" := (bind m (fun x => k))
  (at level 100, m at next level, right associativity) : eff_scope.
Notation "m ;;; k" := (bind m (fun _ => k))
  (at level 100, right associativity) : eff_scope.
Notation "'let*' x := r 'in' k" := (fbind r (fun x => k))
  (at level 10, x name, r at level 100, k at level 200) : eff_scope.
Open Scope eff_scope.

(** [for i in l: x = body(i, x)] *)
Fixpoint for_each {S I X} (l : list I) (body : I -> X -> M S X) (x : X) : M S X :=
  match l with
  | [] => ret x
  | i :: l' => x' <- body i x ;; for_each l' body x'
  end.

(** A computation with a state of its own, run from [s0] inside a
    computation with another state: its result is kept, its final state is
    dropped. *)
Definition run_from {S S' X} (s0 : S') (m : M S' X) : M S X :=
  fun s => match m s0 with
           | Ok (x, _) => Ok (x, s)
           | Raise e => Raise e
           end.

(** [raises_only P m]: whatever [m] raises satisfies [P]. *)
Definition raises_only {S X} (P : exn -> Prop) (m : M S X) : Prop :=
  forall s e, m s = Raise e -> P e.

(** Python's [range(lo, hi)] over the integers: empty when [hi <= lo]. *)
Definition range (lo hi : Z) : list Z :=
  map (fun k => (lo + Z.of_nat k)%Z) (seq 0 (Z.to_nat (hi - lo))).

(** Python's [str(n)] on a natural number, which is also what [format]
    puts in the place of a pair of braces: its decimal digits. *)
Definition str (n : nat) : string := NilEmpty.string_of_uint (Nat.to_uint n).

(* ================================================================== *)
(** * Files and standard output                                        *)
(* ================================================================== *)

(** What a file holds: a JSON object with values in [V] (the requirements
    dictionary), the scalars of a tensorboard event file (tag and step), a
    part of the copy that the library keeps of the data set [name], or
    anything else. *)
Inductive file (V : Type) : Type :=
  | JsonObject (d : gmap string V)
  | EventFile (scalars : list (string * Z))
  | DatasetFile (name : string)
  | OtherFile (content : string).
Arguments JsonObject {V} d.
Arguments EventFile {V} scalars.
Arguments DatasetFile {V} name.
Arguments OtherFile {V} content.

(** The part of the world a script acts on: the files, by path, and the
    lines printed so far ([O] is the type of a printed line). *)
Record World (V O : Type) : Type := mkWorld {
  fs : gmap string (file V);
  stdout : list O
}.
Arguments mkWorld {V O} _ _.
Arguments fs {V O} _.
Arguments stdout {V O} _.

(** [print(o)] *)
Definition print {V O} (o : O) : M (World V O) unit :=
  modify (fun w => mkWorld (fs w) (stdout w ++ [o])).

(** [with open(path, "w") as f: ...dump(content, f)] *)
Definition write_file {V O} (path : string) (content : file V) : M (World V O) unit :=
  modify (fun w => mkWorld (<[path := content]> (fs w)) (stdout w)).

(** [name.lower()] *)
Definition lower_ascii (c : ascii) : ascii :=
  let n := nat_of_ascii c in
  if (65 <=? n) && (n <=? 90) then ascii_of_nat (n + 32) else c.

Fixpoint lower (s : string) : string :=
  match s with
  | EmptyString => EmptyString
  | String c s' => String (lower_ascii c) (lower s')
  end.

(** [os.path.join(a, b)] for a directory [a] that does not end in a
    separator and a relative [b]. *)
Definition path_join (a b : string) : string :=
  String.append a (String.append "/" b).

(** The files in which [torch_geometric.datasets.Planetoid(root, name)]
    keeps its data set: the raw files, downloaded into [root/name/raw], and
    the processed data set, in [root/name/processed]. *)
Definition Planetoid_raw_paths (root name : string) : list string :=
  map (fun part =>
         path_join (path_join (path_join root name) "raw")
           (String.append "ind."
              (String.append (lower name) (String.append "." part))))
    ["x"; "tx"; "allx"; "y"; "ty"; "ally"; "graph"; "test.index"]%string.

Definition Planetoid_data_pt (root name : string) : string :=
  path_join (path_join (path_join root name) "processed") "data.pt".

Definition Planetoid_processed_paths (root name : string) : list string :=
  Planetoid_data_pt root name
    :: map (path_join (path_join (path_join root name) "processed"))
         ["pre_transform.pt"; "pre_filter.pt"]%string.

Definition Planetoid_paths (root name : string) : list string :=
  Planetoid_raw_paths root name ++ Planetoid_processed_paths root name.

(** [download]: every raw file that is missing is fetched and stored, the
    others are left as they are. *)
Definition store_missing {V} (content : file V) (paths : list string)
  (files : gmap string (file V)) : gmap string (file V) :=
  fold_left (fun files p =>
               match files !! p with
               | Some _ => files
               | None => <[p := content]> files
               end) paths files.

(** [process]: the processed files are written. *)
Definition store {V} (content : file V) (paths : list string)
  (files : gmap string (file V)) : gmap string (file V) :=
  fold_left (fun files p => <[p := content]> files) paths files.

(** The files after [Planetoid(root, name)] was built: the raw files that
    were missing are there, and when [data.pt] was missing the processed
    files are written from them. *)
Definition Planetoid_files {V} (root name : string) (files : gmap string (file V))
  : gmap string (file V) :=
  let files := store_missing (DatasetFile name) (Planetoid_raw_paths root name) files in
  match files !! Planetoid_data_pt root name with
  | Some _ => files
  | None => store (DatasetFile name) (Planetoid_processed_paths root name) files
  end.

(** [run_pure m]: a computation that only logs library calls, run inside a
    script. *)
Definition run_pure {S L X} (m : M (list L) X) : M S X := run_from [] m.

(* ================================================================== *)
(** * Tensors                                                          *)
(* ================================================================== *)

Module Torch.

(** The scalars of a tensor.  The sources compute in floating point; the
    embedding is generic in the scalar, run on [Z] and, where the
    specification speaks of exact real arithmetic, read on [R]. *)
Class Scalar (A : Type) : Type := {
  s_zero : A;
  s_one : A;
  s_add : A -> A -> A;
  s_mul : A -> A -> A;
  s_opp : A -> A
}.

#[export] Instance Scalar_Z : Scalar Z :=
  {| s_zero := 0%Z; s_one := 1%Z; s_add := Z.add; s_mul := Z.mul; s_opp := Z.opp |}.

#[export] Instance Scalar_R : Scalar R :=
  {| s_zero := 0%R; s_one := 1%R; s_add := Rplus; s_mul := Rmult; s_opp := Ropp |}.

(** A two-dimensional tensor: its shape [(size0, size1)] and its entries.
    [item] is read only at [i < size0], [j < size1]. *)
Record Tensor (A : Type) : Type := mkTensor {
  size0 : nat;
  size1 : nat;
  item : nat -> nat -> A
}.
Arguments mkTensor {A} _ _ _.
Arguments size0 {A} _.
Arguments size1 {A} _.
Arguments item {A} _ _ _.

(** A three-dimensional tensor, as [GatedGraphConv.weight]. *)
Record Tensor3 (A : Type) : Type := mkTensor3 {
  dim0 : nat;
  dim1 : nat;
  dim2 : nat;
  item3 : nat -> nat -> nat -> A
}.
Arguments mkTensor3 {A} _ _ _ _.
Arguments dim0 {A} _.
Arguments dim1 {A} _.
Arguments dim2 {A} _.
Arguments item3 {A} _ _ _ _.

(** A one-dimensional tensor (a bias vector). *)
Record Vector (A : Type) : Type := mkVector {
  vsize : nat;
  vitem : nat -> A
}.
Arguments mkVector {A} _ _.
Arguments vsize {A} _.
Arguments vitem {A} _ _.

Section Ops.
Context {A : Type} `{Scalar A}.

(** Same shape and same entries: what [torch.equal] decides. *)
Definition tensor_eq (a b : Tensor A) : Prop :=
  size0 a = size0 b /\ size1 a = size1 b /\
  forall i j, i < size0 a -> j < size1 a -> item a i j = item b i j.

(** Rows of a tensor, for display and for row-wise operators. *)
Definition row (t : Tensor A) (i : nat) : list A :=
  map (item t i) (seq 0 (size1 t)).

Definition to_rows (t : Tensor A) : list (list A) :=
  map (row t) (seq 0 (size0 t)).

(** [torch.tensor(rows)] with [cols] columns. *)
Definition of_rows (cols : nat) (rows : list (list A)) : Tensor A :=
  mkTensor (length rows) cols (fun i j => nth j (nth i rows []) s_zero).

(** [x.new_zeros(n, m)], [torch.ones(n, m)], [torch.eye(n)] *)
Definition new_zeros (n m : nat) : Tensor A := mkTensor n m (fun _ _ => s_zero).
Definition ones (n m : nat) : Tensor A := mkTensor n m (fun _ _ => s_one).
Definition eye (n : nat) : Tensor A :=
  mkTensor n n (fun i j => if i =? j then s_one else s_zero).

(** [torch.cat([a, b], dim=1)]: the rows of [b] appended to those of [a];
    the numbers of rows must agree. *)
Definition cat_dim1 (a b : Tensor A) : fresult (Tensor A) :=
  if size0 a =? size0 b then
    FOk (mkTensor (size0 a) (size1 a + size1 b)
           (fun i j => if j <? size1 a then item a i j else item b i (j - size1 a)))
  else FErr ShapeMismatch.

(** Sum of [f 0 .. f (n-1)], from the left. *)
Definition sum_upto (n : nat) (f : nat -> A) : A :=
  fold_left (fun acc k => s_add acc (f k)) (seq 0 n) s_zero.

(** [torch.matmul(a, b)], [a @ b] on two-dimensional tensors. *)
Definition matmul (a b : Tensor A) : fresult (Tensor A) :=
  if size1 a =? size0 b then
    FOk (mkTensor (size0 a) (size1 b)
           (fun i j => sum_upto (size1 a) (fun k => s_mul (item a i k) (item b k j))))
  else FErr ShapeMismatch.

(** [a.T] *)
Definition transpose (a : Tensor A) : Tensor A :=
  mkTensor (size1 a) (size0 a) (fun i j => item a j i).

(** [c * a] for a Python number [c]. *)
Definition scale (c : A) (a : Tensor A) : Tensor A :=
  mkTensor (size0 a) (size1 a) (fun i j => s_mul c (item a i j)).

(** [f(a)] entry by entry (an activation function). *)
Definition map_tensor (f : A -> A) (a : Tensor A) : Tensor A :=
  mkTensor (size0 a) (size1 a) (fun i j => f (item a i j)).

(** Broadcasting of one dimension: two sizes are compatible when they are
    equal or one of them is 1; the result has the other size. *)
Definition broadcast_dim (n m : nat) : option nat :=
  if n =? m then Some n
  else if n =? 1 then Some m
  else if m =? 1 then Some n
  else None.

(** Index into a dimension of size [n] that was broadcast. *)
Definition bidx (n i : nat) : nat := if n =? 1 then 0 else i.

(** An entry-wise binary operator with broadcasting, as [a + b], [a - b]. *)
Definition broadcast2 (f : A -> A -> A) (a b : Tensor A) : fresult (Tensor A) :=
  match broadcast_dim (size0 a) (size0 b), broadcast_dim (size1 a) (size1 b) with
  | Some n, Some m =>
      FOk (mkTensor n m
             (fun i j => f (item a (bidx (size0 a) i) (bidx (size1 a) j))
                           (item b (bidx (size0 b) i) (bidx (size1 b) j))))
  | _, _ => FErr ShapeMismatch
  end.

Definition tadd : Tensor A -> Tensor A -> fresult (Tensor A) := broadcast2 s_add.
Definition tsub : Tensor A -> Tensor A -> fresult (Tensor A) :=
  broadcast2 (fun u v => s_add u (s_opp v)).

(** [a + v] for a one-dimensional [v]: [v] is read as a tensor of one row. *)
Definition as_row (v : Vector A) : Tensor A :=
  mkTensor 1 (vsize v) (fun _ j => vitem v j).

(** [w[i]]: the [i]-th matrix of a three-dimensional tensor. *)
Definition index3 (w : Tensor3 A) (i : nat) : fresult (Tensor A) :=
  if i <? dim0 w then FOk (mkTensor (dim1 w) (dim2 w) (item3 w i))
  else FErr IndexError.

(** [t[idx]] for a list of row numbers (what indexing by a boolean mask
    selects, see [mask_positions]). *)
Definition select_rows (t : Tensor A) (idx : list nat) : Tensor A :=
  mkTensor (length idx) (size1 t) (fun i j => item t (nth i idx 0) j).

(** [scatter(src, index, dim=0, dim_size=n, reduce="sum")]: row [i] of the
    result is the sum of the rows [e] of [src] with [index[e] = i]. *)
Definition scatter_add (n : nat) (index : list nat) (src : Tensor A) : Tensor A :=
  mkTensor n (size1 src)
    (fun i j =>
       fold_left (fun acc e => if nth e index 0 =? i then s_add acc (item src e j) else acc)
         (seq 0 (length index)) s_zero).

(** [MessagePassing.propagate(edge_index, x=x, ...)] of a layer built with
    [aggr="add"] and the default flow: the features of the source of every
    edge are gathered ([x_j]), handed to the [message] of the layer, and the
    messages are summed at the target of their edge.  An edge that names a
    node outside [x] is an index error. *)
Definition propagate (message : Tensor A -> fresult (Tensor A))
  (edge_index : list (nat * nat)) (x : Tensor A) : fresult (Tensor A) :=
  if forallb (fun e => (fst e <? size0 x) && (snd e <? size0 x)) edge_index then
    match message (select_rows x (map fst edge_index)) with
    | FOk msg => FOk (scatter_add (size0 x) (map snd edge_index) msg)
    | FErr e => FErr e
    end
  else FErr IndexError.

(** The [message] of [MessagePassing] itself: [return x_j]. *)
Definition default_message (x_j : Tensor A) : fresult (Tensor A) := FOk x_j.

End Ops.

(** Positions of the [True] entries of a boolean mask, [mask.nonzero()]. *)
Fixpoint mask_positions_from (k : nat) (mask : list bool) : list nat :=
  match mask with
  | [] => []
  | b :: mask' =>
      if b then k :: mask_positions_from (S k) mask'
      else mask_positions_from (S k) mask'
  end.

Definition mask_positions (mask : list bool) : list nat := mask_positions_from 0 mask.

(** [mask.sum().item()] *)
Definition mask_sum (mask : list bool) : nat := length (mask_positions mask).

(** [t[mask]] on a two-dimensional tensor: the mask must have one entry per
    row. *)
Definition index_mask {A} (t : Tensor A) (mask : list bool) : fresult (Tensor A) :=
  if length mask =? size0 t then FOk (select_rows t (mask_positions mask))
  else FErr IndexError.

(** [v[mask]] on a one-dimensional integer tensor. *)
Definition index_mask1 (v : list nat) (mask : list bool) : fresult (list nat) :=
  if length mask =? length v then FOk (map (fun i => nth i v 0) (mask_positions mask))
  else FErr IndexError.

(** [a.eq(b).sum().item()] on one-dimensional integer tensors of one
    length. *)
Fixpoint count_eq (a b : list nat) : nat :=
  match a, b with
  | u :: a', v :: b' => (if u =? v then 1 else 0) + count_eq a' b'
  | _, _ => 0
  end.

Definition eq_sum (a b : list nat) : fresult nat :=
  if length a =? length b then FOk (count_eq a b) else FErr ShapeMismatch.

(** A graph sample of PyTorch Geometric ([torch_geometric.data.Data]). *)
Record Data (A : Type) : Type := mkData {
  x : option (Tensor A);             (* node features, or None *)
  edge_index : list (nat * nat);     (* (source, target) pairs *)
  edge_attr : option (Tensor A);
  y : list nat;                      (* labels *)
  train_mask : list bool;
  val_mask : list bool;
  test_mask : list bool;
  batch : list nat;                  (* graph of each node *)
  num_nodes : nat;
  num_graphs : nat
}.
Arguments mkData {A} _ _ _ _ _ _ _ _ _ _.
Arguments x {A} _.
Arguments edge_index {A} _.
Arguments edge_attr {A} _.
Arguments y {A} _.
Arguments train_mask {A} _.
Arguments val_mask {A} _.
Arguments test_mask {A} _.
Arguments batch {A} _.
Arguments num_nodes {A} _.
Arguments num_graphs {A} _.

(** [data.num_node_features]: 0 without a feature matrix, else its number
    of columns. *)
Definition num_node_features {A} (d : Data A) : nat :=
  match x d with
  | None => 0
  | Some t => size1 t
  end.

(** A data set: its graphs, the feature matrix of the collated graphs
    ([dataset.x]) and [dataset.num_classes]. *)
Record Dataset (A : Type) : Type := mkDataset {
  graphs : list (Data A);
  dataset_x : option (Tensor A);
  num_classes : nat
}.
Arguments mkDataset {A} _ _ _.
Arguments graphs {A} _.
Arguments dataset_x {A} _.
Arguments num_classes {A} _.

(** A [DataLoader]: the data set it was built on ([loader.dataset]) and the
    batches that a pass over it yields. *)
Record DataLoader (A : Type) : Type := mkLoader {
  dataset : Dataset A;
  batches : list (Data A)
}.
Arguments mkLoader {A} _ _.
Arguments dataset {A} _.
Arguments batches {A} _.

(** [DataLoader(dataset, batch_size, shuffle)]; [batches_of] gives the
    batches of a pass.  With [shuffle=True] the library builds a
    [RandomSampler], which rejects a data set without samples. *)
Definition DataLoader_init {A} (batches_of : Dataset A -> nat -> bool -> list (Data A))
  (ds : Dataset A) (batch_size : nat) (shuffle : bool) : fresult (DataLoader A) :=
  if shuffle && (length (graphs ds) =? 0) then FErr LibraryValueError
  else FOk (mkLoader ds (batches_of ds batch_size shuffle)).

(** [Planetoid(root, name)]: the library's copy of the data set is
    completed on disk (see [Planetoid_files]) and the data set is
    returned; [content] is the data set that these files hold. *)
Definition Planetoid {A V O} (root name : string) (content : Dataset A)
  : M (World V O) (Dataset A) :=
  modify (fun w => mkWorld (Planetoid_files root name (fs w)) (stdout w)) ;;;
  ret content.

(** [correct / total] on Python integers. *)
Definition py_div (correct total : nat) : fresult Q :=
  if total =? 0 then FErr ZeroDivisionError
  else FOk (Z.of_nat correct # Pos.of_nat total).

(** [max(a, b)] on Python numbers: [b] only when it is larger. *)
Definition py_max (a b : Q) : Q := if Qle_bool b a then a else b.

End Torch.

(* ================================================================== *)
(** * Train/GGNN_Train.py                                              *)
(* ================================================================== *)

Module GGNN_Train.
Import Torch.

(** The library calls of one pass of [GatedGraphConv.forward], in the order
    in which they are made. *)
Inductive call : Type :=
  | CallMatmul (i : nat)   (* torch.matmul(x, self.weight[i]) *)
  | CallPropagate          (* self.propagate(...) *)
  | CallRnn.               (* self.rnn(m, x) *)

(** What the script prints. *)
Inductive output : Type :=
  | OutData                              (* "[DATA]," data *)
  | OutMismatch                          (* "mismatch, operating a reduction" *)
  | OutImporting (path : string)         (* "[WARNING] Importing ..." and the path *)
  | OutFilename                          (* the name of the script *)
  | OutBanner (epochs num_conv : Z)      (* model representation, run banner *)
  | OutProcessingEpoch (epoch : Z)       (* "Processing Epoch {epoch}" *)
  | OutEpochReport (epoch : Z) (train_acc val_acc test_acc : Q)
  | OutCompleted                         (* "Training Completed in ..." *)
  | OutBest (train_acc val_acc test_acc : Q)
  | OutBatch                             (* "batch is" batch *)
  | OutPlot.                             (* the t-SNE scatter plot, shown *)

(* ---------------------------------------------------------------- *)
(** ** The command line (lines 331-335 and 362-365)                   *)

(** [int(s)] on a decimal literal with an optional sign. *)
Definition digit (c : ascii) : option Z :=
  let n := nat_of_ascii c in
  if (48 <=? n) && (n <=? 57) then Some (Z.of_nat (n - 48)) else None.

Fixpoint digits (s : string) (acc : Z) : option Z :=
  match s with
  | EmptyString => Some acc
  | String c s' =>
      match digit c with
      | Some d => digits s' (10 * acc + d)%Z
      | None => None
      end
  end.

Definition py_int (s : string) : option Z :=
  match s with
  | EmptyString => None
  | String "-" (String c s') => option_map Z.opp (digits (String c s') 0)
  | String "+" (String c s') => digits (String c s') 0
  | _ => digits s 0
  end.

(** The [Namespace] that [parser.parse_args()] returns. *)
Module Namespace.
Record t : Type := mk { epoch : Z; conv : Z }.
End Namespace.

(** The parser has the two options [--epoch] and [--conv], both with
    [type=int], with the defaults 100 and 3.  The command line is read as
    argparse reads options written in full, each followed by its value; a
    later occurrence of an option replaces an earlier one, and a line that
    argparse rejects ends the process with exit code 2. *)
Fixpoint parse_from (argv : list string) (ns : Namespace.t) : fresult Namespace.t :=
  match argv with
  | [] => FOk ns
  | flag :: value :: rest =>
      match py_int value with
      | Some n =>
          if String.eqb flag "--epoch" then
            parse_from rest (Namespace.mk n (Namespace.conv ns))
          else if String.eqb flag "--conv" then
            parse_from rest (Namespace.mk (Namespace.epoch ns) n)
          else FErr (SystemExit 2)
      | None => FErr (SystemExit 2)
      end
  | _ => FErr (SystemExit 2)
  end.

Definition parse_args (argv : list string) : fresult Namespace.t :=
  parse_from argv (Namespace.mk 100 3).

Section Definitions.
Context {A : Type} `{Scalar A}.

(** A callable [nn.Module] of one argument ([nn.Linear], [nn.Sequential]). *)
Definition Layer : Type := Tensor A -> fresult (Tensor A).

(** A [torch.nn.GRUCell]: [cell(input, hx)]. *)
Definition Cell : Type := Tensor A -> Tensor A -> fresult (Tensor A).

(** The learnable parameters of a [GGNN], as the optimiser sees them
    ([model.parameters()]): the entries of the tensors, not their shapes. *)
Record Parameters : Type := mkParameters {
  p_emb : Layer;
  p_rnn : Cell;
  p_weight : nat -> nat -> nat -> A;
  p_mlp : Layer;
  p_out_layer : Layer
}.

(** The operators of PyTorch and PyTorch Geometric that the script calls
    without depending on what they compute. *)
Class Framework : Type := {
  (** [torch.nn.GRUCell(input_size, hidden_size, bias)], freshly initialised *)
  GRUCell : nat -> nat -> bool -> Cell;
  (** [uniform(size, tensor)]: the initial entries of a parameter *)
  uniform : nat -> nat -> nat -> nat -> A;
  (** [nn.Linear(in_features, out_features, bias)] *)
  Linear : nat -> nat -> bool -> Layer;
  (** [nn.Tanh()] *)
  Tanh : Tensor A -> Tensor A;
  (** [F.log_softmax(x, dim=-1)] *)
  log_softmax : Tensor A -> Tensor A;
  (** index of a largest entry of a row: [t.max(1)[1]], [t.argmax(dim=1)] *)
  argmax : list A -> nat;
  (** [nn.CrossEntropyLoss()(pred, label).item()] *)
  loss_fn : Tensor A -> list nat -> A;
  (** [tot_loss / n] for a positive [n] *)
  div_count : A -> nat -> A;
  (** [loss.backward(); optimizer.step()] on a batch: the new entries of
      the parameters *)
  optimizer_step : Parameters -> Data A -> Parameters;
  (** the batches of a pass over [DataLoader(dataset, batch_size, shuffle)] *)
  loader_batches : Dataset A -> nat -> bool -> list (Data A)
}.

Context `{Framework}.

(* ---------------------------------------------------------------- *)
(** ** class GatedGraphConv                                           *)

(** [weight] is created as [Tensor(num_layers, out_channels,
    out_channels)]: the record keeps its entries, its shape is that of the
    constructor. *)
Record GatedGraphConv : Type := mkGatedGraphConv {
  out_channels : nat;
  num_layers : nat;
  rnn : Cell;
  weight_entries : nat -> nat -> nat -> A
}.

Definition weight (self : GatedGraphConv) : Tensor3 A :=
  mkTensor3 (num_layers self) (out_channels self) (out_channels self)
    (weight_entries self).

(** [GatedGraphConv.__init__(out_channels, num_layers)] followed by
    [reset_parameters]; a tensor cannot be created with a negative
    dimension. *)
Definition GatedGraphConv_init (out_channels : nat) (num_layers : Z)
  : fresult GatedGraphConv :=
  if (num_layers <? 0)%Z then FErr NegativeDimension
  else FOk (mkGatedGraphConv out_channels (Z.to_nat num_layers)
              (GRUCell out_channels out_channels true)
              (uniform out_channels)).

Definition channel_error : string :=
  "The number of input channels is not allowed to be larger than the number of output channels".

(** A library call, entered in the log before it is made. *)
Definition logged {X} (c : call) (r : fresult X) : M (list call) X :=
  modify (fun log => log ++ [c]) ;;; lift r.

(** The body of the loop of [forward].  The class defines no [message]:
    [propagate] runs the default one, which does not read [edge_weight]. *)
Definition forward_step (data : Data A) (self : GatedGraphConv) (i : nat)
  (x : Tensor A) : M (list call) (Tensor A) :=
  w <- lift (index3 (weight self) i) ;;
  m <- logged (CallMatmul i) (matmul x w) ;;
  m <- logged CallPropagate (propagate default_message (edge_index data) m) ;;
  logged CallRnn (rnn self m x).

(** The zero padding of [forward]. *)
Definition pad (self : GatedGraphConv) (x : Tensor A) : M (list call) (Tensor A) :=
  if size1 x <? out_channels self then
    let zero := new_zeros (size0 x) (out_channels self - size1 x) in
    lift (cat_dim1 x zero)
  else ret x.

(** [GatedGraphConv.forward(self, x)]; [data] is the global variable of the
    script, from which the edges are read. *)
Definition forward (data : Data A) (self : GatedGraphConv) (x : Tensor A)
  : M (list call) (Tensor A) :=
  if out_channels self <? size1 x then raise (ValueError channel_error)
  else
    x <- pad self x ;;
    for_each (seq 0 (num_layers self)) (forward_step data self) x.

(* ---------------------------------------------------------------- *)
(** ** class MLP                                                      *)

(** The modules that [MLP.__init__] adds for [dims = [input_dim] +
    hid_dims]: a linear layer and an activation per pair of neighbours. *)
Fixpoint MLP_layers (dims : list nat) : list Layer :=
  match dims with
  | d0 :: ((d1 :: _) as rest) =>
      Linear d0 d1 true :: (fun t => FOk (Tanh t)) :: MLP_layers rest
  | _ => []
  end.

(** [MLP(input_dim, hid_dims)] as a callable: [forward] runs the modules in
    turn. *)
Definition MLP (input_dim : nat) (hid_dims : list nat) : Layer :=
  fun t => fold_left (fun r layer => fbind r layer)
             (MLP_layers (input_dim :: hid_dims)) (FOk t).

(* ---------------------------------------------------------------- *)
(** ** class GGNN                                                     *)

(** [emb] is [None] for the identity [lambda x: x] and a linear layer
    otherwise. *)
Record GGNN : Type := mkGGNN {
  emb : option Layer;
  best_acc : Q;
  conv : GatedGraphConv;
  mlp : Layer;
  out_layer : Layer
}.

(** [GGNN.__init__]; [num_classes] is [dataset.num_classes] of the global
    variable [dataset] of the script. *)
Definition GGNN_init {S} (num_classes in_channels : nat) (out_channels : option nat)
  (num_conv : Z) (hidden_dim mlp_hdim mlp_hlayers : nat)
  : M (World S output) GGNN :=
  let out_channels := default in_channels out_channels in
  emb <- (if in_channels =? out_channels then ret None
          else print OutMismatch ;;;
               ret (Some (Linear in_channels hidden_dim false))) ;;
  conv <- lift (GatedGraphConv_init out_channels num_conv) ;;
  ret (mkGGNN emb (-1) conv
         (MLP out_channels (repeat mlp_hdim mlp_hlayers))
         (Linear mlp_hdim num_classes true)).

(** [GGNN.forward(self, data)]: the argument is [d], the edges come from the
    global [data]. *)
Definition GGNN_forward (data : Data A) (self : GGNN) (d : Data A)
  : M (list call) (Tensor A * Tensor A) :=
  x <- lift (match emb self, x d with
             | None, Some t => FOk t
             | Some linear, Some t => linear t
             | Some _, None => FErr TypeError        (* a linear layer on None *)
             | None, None => FErr AttributeError     (* None.size(-1) in conv *)
             end) ;;
  x <- forward data (conv self) x ;;
  x <- lift (mlp self x) ;;
  x_emb <- lift (out_layer self x) ;;
  ret (x_emb, log_softmax x_emb).


(* ---------------------------------------------------------------- *)
(** ** The recurrence of the gated layer, in the words of the paper   *)

(** What the layer relies on from [torch.nn.GRUCell(n, n)]: on a message and
    a state of [n] features for the same nodes, it returns a state of the
    same shape. *)
Definition cell_contract (cell : Cell) (n : nat) : Prop :=
  forall m h, size1 m = n -> size1 h = n -> size0 m = size0 h ->
    exists h', cell m h = FOk h' /\ size0 h' = size0 h /\ size1 h' = n.

(** The edges of [data] name nodes below [nodes] only. *)
Definition edges_within (data : Data A) (nodes : nat) : Prop :=
  forall e, In e (edge_index data) -> fst e < nodes /\ snd e < nodes.

(** [recurrence data self t x0 xt]: [xt] is the state after [t] steps from
    [x0], step [i] being
    [x := rnn(propagate(x @ weight[i]), x)]. *)
Inductive recurrence (data : Data A) (self : GatedGraphConv)
  : nat -> Tensor A -> Tensor A -> Prop :=
  | recurrence_0 x0 : recurrence data self 0 x0 x0
  | recurrence_S t x0 xt w m m' xt' :
      recurrence data self t x0 xt ->
      index3 (weight self) t = FOk w ->
      matmul xt w = FOk m ->
      propagate default_message (edge_index data) m = FOk m' ->
      rnn self m' xt = FOk xt' ->
      recurrence data self (S t) x0 xt'.

(** The library calls of steps [a, a+1, ..., a+n-1]. *)
Definition iterations (a n : nat) : list call :=
  flat_map (fun i => [CallMatmul i; CallPropagate; CallRnn]) (seq a n).

(** [model.parameters()] and the effect of an optimiser step on the model:
    the entries change, the shapes and the hyperparameters stay. *)
Definition parameters (m : GGNN) : Parameters :=
  mkParameters (default (fun t => FOk t) (emb m)) (rnn (conv m))
    (weight_entries (conv m)) (mlp m) (out_layer m).

Definition load_parameters (m : GGNN) (p : Parameters) : GGNN :=
  mkGGNN (match emb m with None => None | Some _ => Some (p_emb p) end)
    (best_acc m)
    (mkGatedGraphConv (out_channels (conv m)) (num_layers (conv m))
       (p_rnn p) (p_weight p))
    (p_mlp p) (p_out_layer p).

(* ---------------------------------------------------------------- *)
(** ** def train                                                      *)

(** [computeStats] is imported from [compstats], a module that is not among
    the sources: it is a parameter.  It is called as
    [computeStats(start_time, epoch, current_process, num_cpus,
    requirements)], its result is dropped, so what it leaves behind is the
    dictionary it was handed; [cpu_count] is [psutil.cpu_count()]. *)
Class Telemetry (V : Type) : Type := {
  computeStats : Z -> Z -> gmap string V -> gmap string V;
  cpu_count : Z
}.

Context {V : Type} `{Telemetry V}.

Definition file_path : string := "Train/comp_per_model/GGNN.py_requirements.json".

(** The local variables of [train] that the loop updates. *)
Record TrainState : Type := mkTrainState {
  model : GGNN;
  tot_loss : A;
  best : Q * Q * Q;                 (* best_acc *)
  accs : option (Q * Q * Q);        (* train_acc, val_acc, test_acc *)
  requirements : gmap string V
}.

(** Lines 186-199: the dictionary of an earlier run, or an empty one. *)
Definition load_requirements : M (World V output) (gmap string V) :=
  w <- get ;;
  match fs w !! file_path with
  | Some f =>
      print (OutImporting file_path) ;;;
      match f with
      | JsonObject d => ret d
      | _ => raise (Runtime JSONDecodeError)
      end
  | None => print OutFilename ;;; ret ∅
  end.

(** The accuracy of [logits] on the nodes of [mask] (lines 261-264). *)
Definition accuracy {S} (logits : Tensor A) (d : Data A) (mask : list bool) : M S Q :=
  selected <- lift (index_mask logits mask) ;;
  let pred := map argmax (to_rows selected) in
  label <- lift (index_mask1 (y d) mask) ;;
  correct <- lift (eq_sum pred label) ;;
  lift (py_div correct (mask_sum mask)).

(** The body of [for batch in loader] (lines 231-244). *)
Definition train_batch (data : Data A) (b : Data A) (st : TrainState)
  : M (World V output) TrainState :=
  out <- run_pure (GGNN_forward data (model st) b) ;;
  pred <- lift (index_mask (snd out) (train_mask b)) ;;
  label <- lift (index_mask1 (y b) (train_mask b)) ;;
  let loss := loss_fn pred label in
  ret (mkTrainState
         (load_parameters (model st) (optimizer_step (parameters (model st)) b))
         (s_add (tot_loss st) loss) (best st) (accs st) (requirements st)).

(** The body of [for data in test_loader] (lines 253-276). *)
Definition eval_batch (data : Data A) (d : Data A) (st : TrainState)
  : M (World V output) TrainState :=
  out <- run_pure (GGNN_forward data (model st) d) ;;
  train_acc <- accuracy (snd out) d (train_mask d) ;;
  val_acc <- accuracy (snd out) d (val_mask d) ;;
  test_acc <- accuracy (snd out) d (test_mask d) ;;
  let best' := (py_max (fst (fst (best st))) train_acc,
                py_max (snd (fst (best st))) val_acc,
                py_max (snd (best st)) test_acc) in
  let m := model st in
  ret (mkTrainState
         (mkGGNN (emb m) (snd best') (conv m) (mlp m) (out_layer m))
         (tot_loss st) best' (Some (train_acc, val_acc, test_acc))
         (requirements st)).

(** The body of [for epoch in range(1, epochs + 1)] (lines 223-283). *)
Definition train_epoch (data : Data A) (loader : DataLoader A) (epoch : Z)
  (st : TrainState) : M (World V output) TrainState :=
  print (OutProcessingEpoch epoch) ;;;
  let st := mkTrainState (model st) (tot_loss st) (best st) (accs st)
              (computeStats (epoch - 1) cpu_count (requirements st)) in
  st <- for_each (batches loader) (fun b st => train_batch data b st) st ;;
  let n := length (graphs (dataset loader)) in
  st <- (if n =? 0 then raise (Runtime ZeroDivisionError)
         else ret (mkTrainState (model st) (div_count (tot_loss st) n)
                     (best st) (accs st) (requirements st))) ;;
  if (epoch mod 10 =? 0)%Z then
    st <- for_each (batches loader) (fun d st => eval_batch data d st) st ;;
    match accs st with
    | Some (train_acc, val_acc, test_acc) =>
        print (OutEpochReport epoch train_acc val_acc test_acc) ;;; ret st
    | None => raise (Runtime NameError)
    end
  else ret st.

(** [train(dataset, epochs, num_conv, learning_rate)], called on [ds];
    [dataset0] and [data] are the global variables [dataset] and [data] of
    the script, which [GGNN.__init__] and [GatedGraphConv.forward] read. *)
Definition train (dataset0 : Dataset A) (data : Data A) (ds : Dataset A)
  (epochs num_conv : Z) : M (World V output) GGNN :=
  loader <- lift (DataLoader_init loader_batches ds 1 true) ;;
  in_channels <- lift (match dataset_x ds with
                       | Some t => FOk (size1 t)
                       | None => FErr AttributeError
                       end) ;;
  model0 <- GGNN_init (num_classes dataset0) in_channels (Some 32) num_conv 32 32 3 ;;
  reqs <- load_requirements ;;
  let reqs := computeStats (-1) (-1) reqs in
  print (OutBanner epochs num_conv) ;;;
  st <- for_each (range 1 (epochs + 1)) (train_epoch data loader)
          (mkTrainState model0 s_zero (0, 0, 0)%Q None reqs) ;;
  print OutCompleted ;;;
  print (OutBest (fst (fst (best st))) (snd (fst (best st))) (snd (best st))) ;;;
  write_file file_path (JsonObject (requirements st)) ;;;
  ret (model st).

(* ---------------------------------------------------------------- *)
(** ** def visualization_nodembs, and the script                      *)

(** [visualization_nodembs(dataset, model)]: one forward pass per batch, a
    colour per label out of seven, then the plot is shown; t-SNE and
    matplotlib keep nothing. *)
Definition visualization_nodembs (data : Data A) (ds : Dataset A) (m : GGNN)
  : M (World V output) unit :=
  embs <- for_each (loader_batches ds 1 false)
            (fun b embs =>
               print OutBatch ;;;
               out <- run_pure (GGNN_forward data m b) ;;
               if forallb (fun c => c <? 7) (y b) then ret (embs ++ [fst out])
               else raise (Runtime IndexError))
            [] ;;
  match embs with
  | [] => raise (Runtime ShapeMismatch)       (* torch.cat of no tensor *)
  | _ => print OutPlot
  end.

(** The script run with the command line [argv]: the statements at module
    level ([dataset = Planetoid(path, dataset, ...)] with
    [path = osp.join("data", "PubMed")], [data = dataset[0]]) and the block
    under [if __name__ == "__main__"]; [content] is the data set PubMed as
    the library delivers it. *)
Definition main (content : Dataset A) (argv : list string) : M (World V output) GGNN :=
  ds <- Planetoid (path_join "data" "PubMed") "PubMed" content ;;
  data <- lift (match graphs ds with d :: _ => FOk d | [] => FErr IndexError end) ;;
  print OutData ;;;
  args <- lift (parse_args argv) ;;
  let epochs := Namespace.epoch args in
  let convs := Namespace.conv args in
  m <- train ds data ds epochs convs ;;
  visualization_nodembs data ds m ;;;
  ret m.

(* ---------------------------------------------------------------- *)
(** ** What a run of [train] leaves behind                            *)

(** The epochs that the loop of [train] went through, read off the
    "Processing Epoch" lines of the output. *)
Definition epochs_processed (out : list output) : list Z :=
  flat_map (fun o => match o with OutProcessingEpoch e => [e] | _ => [] end) out.

(** The dictionary that [train] starts from: the JSON object stored under
    [file_path], or an empty dictionary when there is no such file. *)
Definition initial_requirements (files : gmap string (file V)) : gmap string V :=
  match files !! file_path with
  | Some (JsonObject d) => d
  | _ => ∅
  end.

(** The dictionary after the calls of [computeStats] of a run of [epochs]
    epochs: one call before the loop, one at the start of every epoch. *)
Definition final_requirements (d : gmap string V) (epochs : Z) : gmap string V :=
  fold_left (fun r e => computeStats (e - 1) cpu_count r)
    (range 1 (epochs + 1)) (computeStats (-1) (-1) d).

(* ---------------------------------------------------------------- *)
(** ** MLP.__init__, module by module (lines 92-105)                  *)

(** [nn.Sequential.add_module(name, module)]: a module registered under a
    new name comes last; one registered under a name in use takes the
    place of the module of that name. *)
Fixpoint add_module {X} (name : string) (m : X) (modules : list (string * X))
  : list (string * X) :=
  match modules with
  | [] => [(name, m)]
  | (n, m') :: rest =>
      if String.eqb n name then (n, m) :: rest
      else (n, m') :: add_module name m rest
  end.

(** The modules that [MLP.__init__(input_dim, hid_dims)] registers in
    [self.mlp], by name, in the order of registration. *)
Definition MLP_init (input_dim : nat) (hid_dims : list nat) : list (string * Layer) :=
  let dims := input_dim :: hid_dims in
  fold_left
    (fun mlp i =>
       let mlp := add_module (String.append "lay_" (str i))
                    (Linear (nth i dims 0) (nth (i + 1) dims 0) true) mlp in
       if i + 1 <? length dims
       then add_module (String.append "act_" (str i)) (fun t => FOk (Tanh t)) mlp
       else mlp)
    (seq 0 (length dims - 1)) [].

(** [nn.Sequential.forward]: the registered modules in turn. *)
Definition Sequential_forward (modules : list (string * Layer)) : Layer :=
  fun t => fold_left (fun r m => fbind r (snd m)) modules (FOk t).

(** The names that the loop of [MLP.__init__] uses at step [i]. *)
Definition MLP_names (i : nat) : list string :=
  [String.append "lay_" (str i); String.append "act_" (str i)].

(* ---------------------------------------------------------------- *)
(** ** What [GGNN] and [train] rely on, and what a run prints         *)

(** What [GGNN] relies on from [nn.Linear(n_in, n_out)]: its output has
    [n_out] features. *)
Definition linear_contract : Prop :=
  forall n_in n_out b t t', Linear n_in n_out b t = FOk t' -> size1 t' = n_out.

(** The reports that the loop of [train] printed (lines 278-283), read off
    the output: the epoch, and the accuracies on the training, validation
    and test nodes. *)
Definition reports (out : list output) : list (Z * (Q * Q * Q)) :=
  flat_map (fun o => match o with
                     | OutEpochReport e a1 a2 a3 => [(e, (a1, a2, a3))]
                     | _ => []
                     end) out.

(** [epoch % 10 == 0] *)
Definition tenth (epoch : Z) : bool := (epoch mod 10 =? 0)%Z.

(** [a <= b] on the three accuracies of the training, validation and test
    nodes. *)
Definition accs_le (a b : Q * Q * Q) : Prop :=
  (fst (fst a) <= fst (fst b))%Q /\ (snd (fst a) <= snd (fst b))%Q /\
  (snd a <= snd b)%Q.

(** The state of [train] before any evaluation or after one: the
    accuracies measured last, if any, are below the best ones, and the
    model keeps the best test accuracy. *)
Definition settled_state (st : TrainState) : Prop :=
  forall a, accs st = Some a ->
    accs_le a (best st) /\ best_acc (model st) = snd (best st).

(** What the forward pass relies on from the layers of the library:
    [nn.Linear(n_in, n_out)] accepts every input of [n_in] features and
    returns [n_out] features for the same rows; an activation keeps the
    shape of its input. *)
Definition linear_total : Prop :=
  forall n_in n_out b t, size1 t = n_in ->
    exists t', Linear n_in n_out b t = FOk t' /\
               size0 t' = size0 t /\ size1 t' = n_out.

Definition shape_kept (f : Tensor A -> Tensor A) : Prop :=
  forall t, size0 (f t) = size0 t /\ size1 (f t) = size1 t.

(** [GatedGraphConv.__repr__] (lines 83-86), for an instance of the class
    itself: the name of the class, [out_channels] and [num_layers]. *)
Definition GatedGraphConv_repr (self : GatedGraphConv) : string :=
  String.append "GatedGraphConv("
    (String.append (str (out_channels self))
       (String.append ", num_layers="
          (String.append (str (num_layers self)) ")"))).
End Definitions.

Arguments Layer A : clear implicits.
Arguments Cell A : clear implicits.
Arguments Framework A : clear implicits.
Arguments GatedGraphConv A : clear implicits.
Arguments GGNN A : clear implicits.
Arguments Parameters A : clear implicits.
Arguments TrainState A V : clear implicits.
Arguments Telemetry V : clear implicits.

End GGNN_Train.

(* ================================================================== *)
(** * Conv_layer/ADGN_Message.py                                       *)
(* ================================================================== *)

(** The layer is read in exact real arithmetic: the scalars are [R],
    [nn.Tanh()] is [tanh] and [deg.pow(-0.5)] is [1 / sqrt deg]. *)
Module ADGN_Message.
Import Torch.

(** [Weights] is created as a square tensor of side [in_channels], [bias]
    as a vector of that length, and [linear] is
    [nn.Linear(in_channels, out_channels, bias=False)], whose weight has
    [out_channels] rows: the record keeps the entries. *)
Record ADGNConv : Type := mkADGNConv {
  in_channels : nat;
  out_channels : nat;
  gamma : R;
  epsilon : R;
  antisymmetry : bool;
  best_accuracy : Q;
  Weights_entries : nat -> nat -> R;
  bias_entries : nat -> R;
  linear_entries : nat -> nat -> R
}.

Definition Weights (self : ADGNConv) : Tensor R :=
  mkTensor (in_channels self) (in_channels self) (Weights_entries self).

Definition bias (self : ADGNConv) : Vector R :=
  mkVector (in_channels self) (bias_entries self).

Definition Identity (self : ADGNConv) : Tensor R := eye (in_channels self).

Definition act_func : R -> R := tanh.

(** [self.linear(x)]: [x @ weight.T]. *)
Definition linear (self : ADGNConv) (x : Tensor R) : fresult (Tensor R) :=
  matmul x (transpose (mkTensor (out_channels self) (in_channels self)
                         (linear_entries self))).

(** [ADGNConv.__init__]; the initial entries are drawn by
    [kaiming_uniform], [uniform_] and [reset_parameters]. *)
Definition ADGNConv_init (in_channels out_channels : nat) (gamma epsilon : R)
  (antisymmetry : bool) (w0 : nat -> nat -> R) (b0 : nat -> R)
  (l0 : nat -> nat -> R) : ADGNConv :=
  mkADGNConv in_channels out_channels gamma epsilon antisymmetry (-1) w0 b0 l0.

(** Lines 91-95: the weight matrix that [forward] multiplies by. *)
Definition effective_W (self : ADGNConv) : fresult (Tensor R) :=
  if antisymmetry self then
    let* d := tsub (Weights self) (transpose (Weights self)) in
    tsub d (scale (gamma self) (Identity self))
  else FOk (Weights self).

(** [add_self_loops(edge_index, num_nodes=n)] *)
Definition add_self_loops (edge_index : list (nat * nat)) (n : nat) : list (nat * nat) :=
  edge_index ++ map (fun i => (i, i)) (seq 0 n).

(** [pyg_utils.degree(index, n)]: how often each node occurs in [index]. *)
Definition degree (index : list nat) (n : nat) : fresult (Vector R) :=
  if forallb (fun i => i <? n) index then
    FOk (mkVector n (fun i => INR (length (List.filter (fun k => k =? i) index))))
  else FErr IndexError.

(** [deg.pow(-0.5)] *)
Definition pow_minus_half (deg : Vector R) : Vector R :=
  mkVector (vsize deg) (fun i => (/ sqrt (vitem deg i))%R).

(** [v[index]] on a vector *)
Definition vindex (v : Vector R) (index : list nat) : fresult (Vector R) :=
  if forallb (fun i => i <? vsize v) index then
    FOk (mkVector (length index) (fun e => vitem v (nth e index 0)))
  else FErr IndexError.

(** [a * b] on two vectors of one length *)
Definition vmul (a b : Vector R) : fresult (Vector R) :=
  if vsize a =? vsize b then
    FOk (mkVector (vsize a) (fun e => (vitem a e * vitem b e)%R))
  else FErr ShapeMismatch.

(** [ADGNConv.message(x_j, norm)]: [norm.view(-1, 1) * x_j] *)
Definition message (norm : Vector R) (x_j : Tensor R) : fresult (Tensor R) :=
  broadcast2 Rmult (mkTensor (vsize norm) 1 (fun e _ => vitem norm e)) x_j.

(** [ADGNConv.forward(self, x, edge_index)] *)
Definition forward (self : ADGNConv) (x : Tensor R) (edge_index : list (nat * nat))
  : fresult (Tensor R) :=
  let* W := effective_W self in
  let* aggr_x := linear self x in
  let edge_index := add_self_loops edge_index (size0 x) in
  let row := map fst edge_index in
  let col := map snd edge_index in
  let* deg := degree row (size0 aggr_x) in
  let deg_inv_sqrt := pow_minus_half deg in
  let* norm_row := vindex deg_inv_sqrt row in
  let* norm_col := vindex deg_inv_sqrt col in
  let* norm := vmul norm_row norm_col in
  let* aggr_x := propagate (message norm) edge_index aggr_x in
  let x_prev := x in
  let* xw := matmul x_prev W in
  let* x := tadd xw aggr_x in
  let* x := tadd x (as_row (bias self)) in
  let x := scale (epsilon self) (map_tensor act_func x) in
  tadd x_prev x.

(** The argument of the activation in [forward]:
    [x @ W + aggr_x + bias]. *)
Definition pre_activation (self : ADGNConv) (x : Tensor R)
  (edge_index : list (nat * nat)) : fresult (Tensor R) :=
  let* W := effective_W self in
  let* aggr_x := linear self x in
  let edge_index := add_self_loops edge_index (size0 x) in
  let row := map fst edge_index in
  let col := map snd edge_index in
  let* deg := degree row (size0 aggr_x) in
  let deg_inv_sqrt := pow_minus_half deg in
  let* norm_row := vindex deg_inv_sqrt row in
  let* norm_col := vindex deg_inv_sqrt col in
  let* norm := vmul norm_row norm_col in
  let* aggr_x := propagate (message norm) edge_index aggr_x in
  let* xw := matmul x W in
  let* s := tadd xw aggr_x in
  tadd s (as_row (bias self)).

(** [A + A.T = 0] on a square tensor. *)
Definition antisymmetric (a : Tensor R) : Prop :=
  size0 a = size1 a /\
  forall i j, i < size0 a -> j < size0 a -> item a i j = (- item a j i)%R.

(* ---------------------------------------------------------------- *)
(** ** class ADGN                                                     *)

Record ADGN : Type := mkADGN {
  adgn_emb : option (Tensor R -> fresult (Tensor R));
  adgn_conv : list ADGNConv;
  adgn_linear : Tensor R -> fresult (Tensor R)
}.

(** [ADGN.forward(self, x)]: the embedding, the convolutions in turn, the
    output layer; [emb] is the output of the last convolution, or [None]. *)
Definition ADGN_forward (self : ADGN) (d : Data R)
  : fresult (option (Tensor R) * Tensor R) :=
  match adgn_emb self, x d with
  | Some emb, Some x0 =>
      let* x := emb x0 in
      let* r := fold_left
                  (fun acc conv =>
                     let* s := acc in
                     let* x' := forward conv (snd s) (edge_index d) in
                     FOk (Some x', x'))
                  (adgn_conv self) (FOk (None, x)) in
      let* out := adgn_linear self (snd r) in
      FOk (fst r, out)
  | _, _ => FErr TypeError
  end.


(* ---------------------------------------------------------------- *)
(** ** ADGN.__init__ (lines 133-173)                                  *)

(** [nn.Linear(in_features, out_features, bias)] as a callable, with the
    entries of its weight, of shape [(out_features, in_features)], and of
    its bias: [x @ weight.T + bias]. *)
Definition Linear (in_features out_features : nat) (weight : nat -> nat -> R)
  (bias : option (nat -> R)) (x : Tensor R) : fresult (Tensor R) :=
  let* y := matmul x (transpose (mkTensor out_features in_features weight)) in
  match bias with
  | Some b => tadd y (as_row (mkVector out_features b))
  | None => FOk y
  end.

(** The entries that the initialisers draw while a model is built: those
    of the embedding, those of the [Weights], the [bias] and the [linear]
    of the convolution built at each step of the loop, and those of the
    output layer. *)
Record Init : Type := mkInit {
  init_emb : nat -> nat -> R;
  init_Weights : Z -> nat -> nat -> R;
  init_bias : Z -> nat -> R;
  init_conv_linear : Z -> nat -> nat -> R;
  init_linear : nat -> nat -> R;
  init_linear_bias : nat -> R
}.

(** The defaults of [ADGNConv.__init__]: [gamma = 0.1], [epsilon = 0.1],
    [antisymmetry = True].  The two floating-point numbers are read as the
    real number 1/10, as the whole layer is read in exact real arithmetic:
    what is proved of them says nothing of the rounding of a floating-point
    run. *)
Definition default_gamma : R := 1 / 10.
Definition default_epsilon : R := 1 / 10.
Definition default_antisymmetry : bool := true.

(** The loop [for _ in range(1, num_layers): self.conv.append(ADGNConv(
    in_channels=self.hidden_dim, out_channels=self.hidden_dim))]: the
    convolutions are built with the defaults of their constructor, and a
    tensor cannot be created with [None] for a size. *)
Fixpoint ADGN_convs (hidden_dim : option nat) (init : Init) (steps : list Z)
  : fresult (list ADGNConv) :=
  match steps with
  | [] => FOk []
  | k :: steps' =>
      match hidden_dim with
      | None => FErr TypeError
      | Some h =>
          let conv := ADGNConv_init h h default_gamma default_epsilon
                        default_antisymmetry
                        (init_Weights init k) (init_bias init k)
                        (init_conv_linear init k) in
          let* rest := ADGN_convs hidden_dim init steps' in
          FOk (conv :: rest)
      end
  end.

(** [ADGN.__init__(in_channels, hidden_dim, out_channels, num_layers,
    epsilon, gamma, antisymmetric)].  The attributes [epsilon], [gamma],
    [antisymmetric] and [best_accuracy] that it stores are read nowhere:
    the record keeps the three modules that [forward] calls. *)
Definition ADGN_init (in_channels : nat) (hidden_dim : option nat)
  (out_channels : nat) (num_layers : Z) (epsilon gamma : R)
  (antisymmetric : bool) (init : Init) : fresult ADGN :=
  let emb := match hidden_dim with
             | Some h => Some (Linear in_channels h (init_emb init) None)
             | None => None
             end in
  let* conv := ADGN_convs hidden_dim init (range 1 num_layers) in
  let* linear := match hidden_dim with
                 | Some h => FOk (Linear h out_channels (init_linear init)
                                    (Some (init_linear_bias init)))
                 | None => FErr TypeError
                 end in
  FOk (mkADGN emb conv linear).

(** The edges of a graph name nodes below [n] only. *)
Definition edges_below (edge_index : list (nat * nat)) (n : nat) : Prop :=
  forall e, In e edge_index -> fst e < n /\ snd e < n.

(** Lines 102-112 of [ADGNConv.forward] on a graph of [n] nodes: the edges
    with the self loops, and the normalisation coefficient of each. *)
Definition normalisation (edge_index : list (nat * nat)) (n : nat)
  : fresult (Vector R) :=
  let edge_index := add_self_loops edge_index n in
  let row := map fst edge_index in
  let col := map snd edge_index in
  let* deg := degree row n in
  let deg_inv_sqrt := pow_minus_half deg in
  let* norm_row := vindex deg_inv_sqrt row in
  let* norm_col := vindex deg_inv_sqrt col in
  vmul norm_row norm_col.

(** Lines 117-124 of [ADGNConv.forward]: the residual update of [x] from
    the weight matrix and the aggregated messages. *)
Definition update (self : ADGNConv) (x W aggr_x : Tensor R) : fresult (Tensor R) :=
  let x_prev := x in
  let* xw := matmul x_prev W in
  let* x := tadd xw aggr_x in
  let* x := tadd x (as_row (bias self)) in
  let x := scale (epsilon self) (map_tensor act_func x) in
  tadd x_prev x.

(** A convolution as the loop of [ADGN.__init__] builds it: [h] input and
    output channels, and the defaults of the constructor for the rest. *)
Definition built_with_defaults (h : nat) (c : ADGNConv) : Prop :=
  in_channels c = h /\ out_channels c = h /\
  gamma c = (1 / 10)%R /\ epsilon c = (1 / 10)%R /\ antisymmetry c = true.
End ADGN_Message.

(* ================================================================== *)
(** * GNN_Basics/GNN.py                                                *)
(* ================================================================== *)

Module GNN.
Import Torch.

(** What the script prints. *)
Inductive output : Type :=
  | OutEpoch (epoch : Z) (test_acc : Q)   (* "Epoch {}. Loss {}. Test accuracy {}" *)
  | OutPlot.

Section Definitions.
Context {A : Type} `{Scalar A}.

(** A convolution layer, [conv(x, edge_index)], and a layer of one argument. *)
Definition ConvLayer : Type := Tensor A -> list (nat * nat) -> fresult (Tensor A).
Definition Layer : Type := Tensor A -> fresult (Tensor A).

(** The learnable parameters of a [GCN], as the optimiser sees them. *)
Record Parameters : Type := mkParameters {
  p_convs : list ConvLayer;
  p_post_mp : bool -> Layer
}.

Class Framework : Type := {
  (** [pyg_nn.GCNConv(input_dim, hidden_dim)] *)
  GCNConv : nat -> nat -> ConvLayer;
  (** [pyg_nn.GINConv(nn.Sequential(Linear, ReLU, Linear))] *)
  GINConv : nat -> nat -> ConvLayer;
  (** the [nn.Sequential] of [post_mp]: two linear layers around a
      dropout, which acts in training mode only *)
  Sequential_post_mp : nat -> Q -> nat -> bool -> Layer;
  (** [F.relu(x)] *)
  relu : Tensor A -> Tensor A;
  (** [F.dropout(x, p, training)], for the random state of the run *)
  dropout : Q -> bool -> Tensor A -> Tensor A;
  (** [pyg_nn.global_max_pool(x, batch)] *)
  global_max_pool : Tensor A -> list nat -> fresult (Tensor A);
  (** [F.log_softmax(x, dim=1)] *)
  log_softmax : Tensor A -> Tensor A;
  (** index of a largest entry of a row, [pred.argmax(dim=1)] *)
  argmax : list A -> nat;
  (** [F.nll_loss(pred, label).item()] *)
  nll_loss : Tensor A -> list nat -> A;
  (** [loss * n] and [total_loss / n] for a count [n] *)
  times_count : A -> nat -> A;
  div_count : A -> nat -> A;
  (** [loss.backward(); opt.step()] on a batch *)
  optimizer_step : Parameters -> Data A -> Parameters;
  (** the batches of a pass over [DataLoader(dataset, batch_size, shuffle)] *)
  loader_batches : Dataset A -> nat -> bool -> list (Data A);
  (** the name of the event file that [SummaryWriter] creates in its
      directory *)
  event_file_name : string
}.

Context `{Framework}.

(* ---------------------------------------------------------------- *)
(** ** class GCN                                                      *)

Record GCN : Type := mkGCN {
  task : string;
  doutrate : Q;
  conv_layers : Z;
  convs : list ConvLayer;
  post_mp : bool -> Layer;
  num_layers : Z;
  training : bool
}.

(** [GCN.build_conv_model(input_dim, hidden_dim)] *)
Definition build_conv_model (task : string) (input_dim hidden_dim : nat) : ConvLayer :=
  if String.eqb task "node" then GCNConv input_dim hidden_dim
  else GINConv input_dim hidden_dim.

(** [GCN.__init__] *)
Definition GCN_init (input_dim hidden_dim out_dim : nat) (conv_layers : Z)
  (doutrate : Q) (task : string) : GCN :=
  mkGCN task doutrate conv_layers
    (build_conv_model task input_dim hidden_dim
       :: repeat (build_conv_model task hidden_dim hidden_dim) (Z.to_nat conv_layers))
    (Sequential_post_mp hidden_dim doutrate out_dim)
    (conv_layers + 1) true.

(** The local variables [x] and [emb] of [forward]: [None] stands for a
    missing feature matrix and for an embedding not assigned yet. *)
Definition conv_step (self : GCN) (edge_index : list (nat * nat)) (i : Z)
  (st : option (Tensor A) * option (Tensor A))
  : fresult (option (Tensor A) * option (Tensor A)) :=
  match nth_error (convs self) (Z.to_nat i), fst st with
  | None, _ => FErr IndexError
  | Some _, None => FErr AttributeError
  | Some conv, Some x =>
      match conv x edge_index with
      | FOk x =>
          let emb := x in
          let x := relu x in
          let x := dropout (doutrate self) (training self) x in
          FOk (Some x, Some emb)
      | FErr e => FErr e
      end
  end.

Fixpoint conv_loop (self : GCN) (edge_index : list (nat * nat)) (l : list Z)
  (st : option (Tensor A) * option (Tensor A))
  : fresult (option (Tensor A) * option (Tensor A)) :=
  match l with
  | [] => FOk st
  | i :: l' =>
      match conv_step self edge_index i st with
      | FOk st' => conv_loop self edge_index l' st'
      | FErr e => FErr e
      end
  end.

(** Lines 95-117: the layers applied to the features [x]; [emb] is read
    last, at the [return]. *)
Definition layer_stack (self : GCN) (d : Data A) (x : option (Tensor A))
  : fresult (Tensor A * Tensor A) :=
  match conv_loop self (edge_index d) (range 0 (num_layers self)) (x, None) with
  | FErr e => FErr e
  | FOk (None, _) => FErr AttributeError
  | FOk (Some x, emb) =>
      match (if String.eqb (task self) "graph"
             then global_max_pool x (batch d) else FOk x) with
      | FErr e => FErr e
      | FOk x =>
          match post_mp self (training self) x, emb with
          | FErr e, _ => FErr e
          | FOk x, Some emb => FOk (emb, log_softmax x)
          | FOk _, None => FErr NameError
          end
      end
  end.

(** [GCN.forward(self, data)] *)
Definition GCN_forward (self : GCN) (d : Data A) : fresult (Tensor A * Tensor A) :=
  let x := x d in
  let x := if num_node_features d =? 0 then Some (ones (num_nodes d) 1) else x in
  layer_stack self d x.

(** What [forward] relies on from the layers of the library: a convolution
    built for [n_in] input and [n_out] output features maps the features of
    the nodes of a graph to [n_out] features per node, the activation and
    the dropout keep the shape, and the head accepts [hidden] features. *)
Definition conv_contract (c : ConvLayer) (n_in n_out : nat) : Prop :=
  forall t ei, size1 t = n_in ->
    (forall e, In e ei -> fst e < size0 t /\ snd e < size0 t) ->
    exists t', c t ei = FOk t' /\ size0 t' = size0 t /\ size1 t' = n_out.

Definition keeps_shape (f : Tensor A -> Tensor A) : Prop :=
  forall t, size0 (f t) = size0 t /\ size1 (f t) = size1 t.

Record GCN_contract (self : GCN) (input_dim hidden : nat) : Prop := {
  contract_convs :
    exists c0 cs, convs self = c0 :: cs /\
      conv_contract c0 input_dim hidden /\
      Forall (fun c => conv_contract c hidden hidden) cs /\
      num_layers self = Z.of_nat (S (length cs));
  contract_relu : keeps_shape relu;
  contract_dropout : forall p b, keeps_shape (dropout p b);
  contract_pool : forall t b, size1 t = hidden ->
    exists t', global_max_pool t b = FOk t' /\ size1 t' = hidden;
  contract_post_mp : forall b t, size1 t = hidden ->
    exists t', post_mp self b t = FOk t'
}.

(* ---------------------------------------------------------------- *)
(** ** def test                                                       *)

(** The body of [for data in loader] in [test]. *)
Definition test_batch {S} (self : GCN) (is_validation : bool) (d : Data A)
  (correct : nat) : M S nat :=
  out <- lift (GCN_forward self d) ;;
  let pred := map argmax (to_rows (snd out)) in
  let label := y d in
  sel <- (if String.eqb (task self) "node" then
            let mask := if is_validation then val_mask d else test_mask d in
            pred <- lift (index_mask1 pred mask) ;;
            label <- lift (index_mask1 (y d) mask) ;;
            ret (pred, label)
          else ret (pred, label)) ;;
  c <- lift (eq_sum (fst sel) (snd sel)) ;;
  ret (correct + c).

(** [model.eval()] *)
Definition eval_mode (self : GCN) : GCN :=
  mkGCN (task self) (doutrate self) (conv_layers self) (convs self)
    (post_mp self) (num_layers self) false.

(** [model.train()] *)
Definition train_mode (self : GCN) : GCN :=
  mkGCN (task self) (doutrate self) (conv_layers self) (convs self)
    (post_mp self) (num_layers self) true.

(** [test(loader, model, is_validation)]; the model is left in evaluation
    mode. *)
Definition test {S} (loader : DataLoader A) (self : GCN) (is_validation : bool)
  : M S (Q * GCN) :=
  let self := eval_mode self in
  correct <- for_each (batches loader) (test_batch self is_validation) 0 ;;
  let total :=
    if String.eqb (task self) "graph" then length (graphs (dataset loader))
    else fold_left (fun total d => total + mask_sum (test_mask d))
           (graphs (dataset loader)) 0 in
  acc <- lift (py_div correct total) ;;
  ret (acc, self).

(** The accuracy over the nodes that [mask] selects in every batch: the
    number of those whose predicted class is their label, over the number
    of nodes selected. *)
Definition selected_correct (self : GCN) (mask : Data A -> list bool)
  (ds : list (Data A)) : nat :=
  fold_left
    (fun n d =>
       match GCN_forward self d with
       | FOk out =>
           n + length (List.filter (fun i => argmax (row (snd out) i) =? nth i (y d) 0)
                         (mask_positions (mask d)))
       | FErr _ => n
       end) ds 0.

Definition selected_total (mask : Data A -> list bool) (ds : list (Data A)) : nat :=
  fold_left (fun n d => n + mask_sum (mask d)) ds 0.

(* ---------------------------------------------------------------- *)
(** ** def train, def visualization_nodembs, and the script           *)

Context {V : Type}.

(** [tensorboardX.SummaryWriter(logdir)]: the event file of the run, in the
    directory [logdir]. *)
Definition event_path (logdir : string) : string :=
  String.append logdir (String.append "/" event_file_name).

Definition SummaryWriter (logdir : string) : M (World V output) string :=
  write_file (event_path logdir) (EventFile []) ;;; ret logdir.

(** [writer.add_scalar(tag, value, step)] *)
Definition add_scalar (writer : string) (tag : string) (step : Z)
  : M (World V output) unit :=
  modify (fun w =>
    let old := match fs w !! event_path writer with
               | Some (EventFile l) => l
               | _ => []
               end in
    mkWorld (<[event_path writer := EventFile (old ++ [(tag, step)])]> (fs w))
      (stdout w)).

Definition parameters (m : GCN) : Parameters :=
  mkParameters (convs m) (post_mp m).

(** An optimiser step changes the entries of the parameters of the layers,
    not the layers the model is made of. *)
Definition load_parameters (m : GCN) (p : Parameters) : GCN :=
  mkGCN (task m) (doutrate m) (conv_layers m)
    (map (fun ic => nth (fst ic) (p_convs p) (snd ic))
       (combine (seq 0 (length (convs m))) (convs m)))
    (p_post_mp p) (num_layers m) (training m).

(** The body of [for batch in loader] in [train]. *)
Definition train_batch (task : string) (b : Data A) (st : GCN * A)
  : M (World V output) (GCN * A) :=
  out <- lift (GCN_forward (fst st) b) ;;
  let pred := snd out in
  let label := y b in
  sel <- (if String.eqb task "node" then
            pred <- lift (index_mask pred (train_mask b)) ;;
            label <- lift (index_mask1 label (train_mask b)) ;;
            ret (pred, label)
          else ret (pred, label)) ;;
  let loss := nll_loss (fst sel) (snd sel) in
  ret (load_parameters (fst st) (optimizer_step (parameters (fst st)) b),
       s_add (snd st) (times_count loss (num_graphs b))).

(** The body of [for epoch in range(0, epochs)]. *)
Definition train_epoch (task : string) (writer : string)
  (loader test_loader : DataLoader A) (epoch : Z) (model : GCN)
  : M (World V output) GCN :=
  st <- for_each (batches loader) (train_batch task) (train_mode model, s_zero) ;;
  total_loss <- (let n := length (graphs (dataset loader)) in
                 if n =? 0 then raise (Runtime ZeroDivisionError)
                 else ret (div_count (snd st) n)) ;;
  add_scalar writer "Loss" epoch ;;;
  if (epoch mod 10 =? 0)%Z then
    r <- test test_loader (fst st) false ;;
    print (OutEpoch epoch (fst r)) ;;;
    add_scalar writer "test accuracy" epoch ;;;
    ret (snd r)
  else ret (fst st).

(** [dataset[a:b]] and [int(len(dataset) * 0.8)] *)
Definition slice (ds : Dataset A) (a b : nat) : Dataset A :=
  mkDataset (firstn (b - a) (skipn a (graphs ds))) (dataset_x ds) (num_classes ds).

Definition four_fifths (n : nat) : nat := n * 8 / 10.

(** The two loaders of [train] (lines 128-139), [loader] and
    [test_loader]: for a graph task on the first [int(data_size * 0.8)]
    graphs and on the others, else both on the whole data set. *)
Definition train_loaders (ds : Dataset A) (task : string)
  : fresult (DataLoader A * DataLoader A) :=
  if String.eqb task "graph" then
    let data_size := length (graphs ds) in
    let* loader :=
      DataLoader_init loader_batches (slice ds 0 (four_fifths data_size)) 64 true in
    let* test_loader :=
      DataLoader_init loader_batches (slice ds (four_fifths data_size) data_size)
        64 true in
    FOk (loader, test_loader)
  else
    let* loader := DataLoader_init loader_batches ds 64 true in
    FOk (loader, loader).

(** [train(dataset, task, conv_layer, writer, epochs)] *)
Definition train (ds : Dataset A) (task : string) (conv_layer : Z)
  (writer : string) (epochs : Z) : M (World V output) GCN :=
  loaders <- lift (train_loaders ds task) ;;
  let loader := fst loaders in
  let test_loader := snd loaders in
  features <- lift (match graphs ds with
                    | d :: _ => FOk (num_node_features d)
                    | [] => FErr IndexError
                    end) ;;
  let model := GCN_init (Nat.max features 1) 32 (num_classes ds) conv_layer
                 (1 # 4) task in
  for_each (range 0 epochs) (train_epoch task writer loader test_loader) model.

(** [visualization_nodembs(dataset, model)] *)
Definition visualization_nodembs (ds : Dataset A) (m : GCN) : M (World V output) unit :=
  loader <- lift (DataLoader_init loader_batches ds 64 true) ;;
  embs <- for_each (batches loader)
            (fun b embs =>
               out <- lift (GCN_forward m b) ;;
               if forallb (fun c => c <? 7) (y b) then ret (embs ++ [fst out])
               else raise (Runtime IndexError))
            [] ;;
  match embs with
  | [] => raise (Runtime ShapeMismatch)
  | _ => print OutPlot
  end.

(** The block under [if __name__ == "__main__"]; [now] is
    [datetime.now().strftime("%Y%m%d-%H%M%S")] and [content] the data set
    cora as the library delivers it. *)
Definition main (now : string) (content : Dataset A) : M (World V output) GCN :=
  writer <- SummaryWriter (String.append "GNN_Basics/log/" now) ;;
  ds <- Planetoid "/tmp/cora" "cora" content ;;
  let task := "node"%string in
  let conv_layer := 6%Z in
  model <- train ds task conv_layer writer 100 ;;
  visualization_nodembs ds model ;;;
  ret model.


(* ---------------------------------------------------------------- *)
(** ** What a run of [train] leaves behind                            *)

(** The scalars that one epoch of [train] hands to the writer (lines 183
    and 195): the loss, and the test accuracy when [epoch % 10 == 0]. *)
Definition scalars_of_epoch (epoch : Z) : list (string * Z) :=
  ("Loss"%string, epoch)
    :: (if (epoch mod 10 =? 0)%Z then [("test accuracy"%string, epoch)] else []).

Definition scalars_of_run (epochs : Z) : list (string * Z) :=
  flat_map scalars_of_epoch (range 0 epochs).

(** The scalars in the event file of a writer; none when there is no such
    file. *)
Definition event_scalars (files : gmap string (file V)) (writer : string)
  : list (string * Z) :=
  match files !! event_path writer with
  | Some (EventFile l) => l
  | _ => []
  end.

(** The epochs for which [train] printed its line, read off the output. *)
Definition epochs_tested (out : list output) : list Z :=
  flat_map (fun o => match o with OutEpoch e _ => [e] | _ => [] end) out.

(** The number of graphs of the batches whose predicted class is their
    label: what [test] counts on a task that is not a node task (lines
    208-222). *)
Definition graphs_correct (self : GCN) (ds : list (Data A)) : nat :=
  fold_left
    (fun n d =>
       match GCN_forward self d with
       | FOk out => n + count_eq (map argmax (to_rows (snd out))) (y d)
       | FErr _ => n
       end) ds 0.

(** [emb] is what the [k]-th convolution of the model returned on the
    edges [ei], with a row for each of [n] nodes and [hidden] columns. *)
Definition convolution_output (self : GCN) (ei : list (nat * nat)) (n hidden : nat)
  (k : nat) (emb : Tensor A) : Prop :=
  exists c xin,
    nth_error (convs self) k = Some c /\ c xin ei = FOk emb /\
    size0 emb = n /\ size1 emb = hidden.

(** The layer stack in the words of the comments of [forward]: the
    features go through the convolutions one after the other, each
    followed by the activation and the dropout.
    [layers_applied self ei x0 k emb xk]: after the first [k] layers on
    the features [x0], [emb] is what the [k]-th convolution returned and
    [xk] what the activation and the dropout made of it. *)
Inductive layers_applied (self : GCN) (ei : list (nat * nat)) (x0 : Tensor A)
  : nat -> Tensor A -> Tensor A -> Prop :=
  | layers_first c emb :
      nth_error (convs self) 0 = Some c -> c x0 ei = FOk emb ->
      layers_applied self ei x0 1 emb
        (dropout (doutrate self) (training self) (relu emb))
  | layers_next k c emb0 xk emb :
      layers_applied self ei x0 k emb0 xk ->
      nth_error (convs self) k = Some c -> c xk ei = FOk emb ->
      layers_applied self ei x0 (S k) emb
        (dropout (doutrate self) (training self) (relu emb)).

(** The normal layer stack on the features [x0] of the graph [d]: the
    [num_layers] layers, the pooling of a graph task, the head and the
    log-softmax; the embedding is what the last convolution returned. *)
Definition normal_layer_stack (self : GCN) (d : Data A) (x0 : Tensor A)
  (emb logp : Tensor A) : Prop :=
  (0 < num_layers self)%Z /\
  exists xL pooled out,
    layers_applied self (edge_index d) x0 (Z.to_nat (num_layers self)) emb xL /\
    (if String.eqb (task self) "graph"
     then global_max_pool xL (batch d) = FOk pooled
     else pooled = xL) /\
    post_mp self (training self) pooled = FOk out /\
    logp = log_softmax out.
End Definitions.

Arguments ConvLayer A : clear implicits.
Arguments Layer A : clear implicits.
Arguments Parameters A : clear implicits.
Arguments Framework A : clear implicits.
Arguments GCN A : clear implicits.

End GNN.

(* ================================================================== *)
(** * Which exceptions a script can raise                              *)
(* ================================================================== *)

(** A runtime error, of the interpreter or of a library. *)
Definition not_authored (e : exn) : Prop := authored e = false.

(** A runtime error, or the [ValueError] of the guard of
    [GatedGraphConv.forward]. *)
Definition only_the_guard (e : exn) : Prop :=
  authored e = true -> e = ValueError GGNN_Train.channel_error.

(* ================================================================== *)
(** * A small instance on which the scripts run                        *)
(* ================================================================== *)

(** Integer scalars, layers that copy their input, and a graph of three
    nodes: enough to evaluate every function above. *)
Module Sample.
Import Torch.

(** A layer that keeps the first [n_out] features. *)
Definition keep_layer (n_in n_out : nat) (t : Tensor Z) : fresult (Tensor Z) :=
  if size1 t =? n_in then FOk (mkTensor (size0 t) n_out (item t))
  else FErr ShapeMismatch.

(** A cell that adds the message to the state. *)
Definition add_cell (n_in n_hidden : nat) (_ : bool) (m h : Tensor Z)
  : fresult (Tensor Z) :=
  if (size1 m =? n_in) && (size1 h =? n_hidden) && (size0 m =? size0 h) then
    FOk (mkTensor (size0 h) n_hidden (fun i j => (item m i j + item h i j)%Z))
  else FErr ShapeMismatch.

(** Index of the first largest entry. *)
Fixpoint argmax_from (best : Z) (best_i i : nat) (l : list Z) : nat :=
  match l with
  | [] => best_i
  | v :: l' =>
      if (best <? v)%Z then argmax_from v i (S i) l'
      else argmax_from best best_i (S i) l'
  end.

Definition first_argmax (l : list Z) : nat :=
  match l with
  | [] => 0
  | v :: l' => argmax_from v 0 1 l'
  end.

#[export] Instance ggnn_framework : GGNN_Train.Framework Z := {|
  GGNN_Train.GRUCell := add_cell;
  GGNN_Train.uniform := fun _ _ _ _ => 1%Z;
  GGNN_Train.Linear := fun n_in n_out _ => keep_layer n_in n_out;
  GGNN_Train.Tanh := fun t => t;
  GGNN_Train.log_softmax := fun t => t;
  GGNN_Train.argmax := first_argmax;
  GGNN_Train.loss_fn := fun _ _ => 0%Z;
  GGNN_Train.div_count := fun a n => (a / Z.of_nat n)%Z;
  GGNN_Train.optimizer_step := fun p _ => p;
  GGNN_Train.loader_batches := fun ds _ _ => graphs ds
|}.

(** A telemetry that records the number of CPUs under the epoch it was
    called for, unless the dictionary has an entry for that epoch. *)
Definition epoch_key (epoch : Z) : string :=
  if (epoch <? 0)%Z then "start" else String (ascii_of_nat (48 + Z.to_nat epoch)) "".

#[export] Instance telemetry : GGNN_Train.Telemetry Z := {|
  GGNN_Train.computeStats := fun epoch cpus d => d ∪ {[epoch_key epoch := cpus]};
  GGNN_Train.cpu_count := 4%Z
|}.

#[export] Instance gnn_framework : GNN.Framework Z := {|
  GNN.GCNConv := fun n_in n_out t _ => keep_layer n_in n_out t;
  GNN.GINConv := fun n_in n_out t _ => keep_layer n_in n_out t;
  GNN.Sequential_post_mp := fun n_in _ n_out _ => keep_layer n_in n_out;
  GNN.relu := fun t => t;
  GNN.dropout := fun _ _ t => t;
  GNN.global_max_pool := fun t _ => FOk t;
  GNN.log_softmax := fun t => t;
  GNN.argmax := first_argmax;
  GNN.nll_loss := fun _ _ => 0%Z;
  GNN.times_count := fun a n => (a * Z.of_nat n)%Z;
  GNN.div_count := fun a n => (a / Z.of_nat n)%Z;
  GNN.optimizer_step := fun p _ => p;
  GNN.loader_batches := fun ds _ _ => graphs ds;
  GNN.event_file_name := "events.out.tfevents"
|}.

(** Three nodes on a path, two features. *)
Definition features : Tensor Z :=
  of_rows 2 [[1; 2]; [3; 4]; [5; 6]]%Z.

Definition graph : Data Z :=
  mkData (Some features) [(0, 1); (1, 0); (1, 2); (2, 1)] None
    [1; 1; 1] [true; false; false] [false; true; false] [false; false; true]
    [0; 0; 0] 3 1.

(** The same graph without a feature matrix. *)
Definition featureless : Data Z :=
  mkData None [(0, 1); (1, 0); (1, 2); (2, 1)] None
    [1; 1; 1] [true; false; false] [false; true; false] [false; false; true]
    [0; 0; 0] 3 1.

(** A graph whose features are the scores of its two classes: the nodes are
    labelled with the class of their larger score, one node is a validation
    node and two are test nodes. *)
Definition scored : Data Z :=
  mkData (Some (of_rows 2 [[0; 5]; [3; 1]; [0; 2]]%Z))
    [(0, 1); (1, 0); (1, 2); (2, 1)] None
    [1; 0; 1] [false; false; false] [true; false; false] [false; true; true]
    [0; 0; 0] 3 1.

Definition scored_dataset : Dataset Z :=
  mkDataset [scored] (x scored) 2.

Definition scored_loader : DataLoader Z :=
  mkLoader scored_dataset [scored].

(** The models that [GNN.train] builds for these graphs. *)
Definition gcn_for_featureless : GNN.GCN Z :=
  GNN.GCN_init 1 32 2 6 (1 # 4) "node".

Definition gcn_for_scored : GNN.GCN Z :=
  GNN.GCN_init 2 32 2 6 (1 # 4) "node".

(** The data set of the one graph [graph], with two classes, and a world
    with no file yet. *)
Definition one_graph : Dataset Z := mkDataset [graph] (Some features) 2.

Definition empty_world : World Z GGNN_Train.output := mkWorld ∅ [].

(** A world in which an earlier run left its dictionary. *)
Definition earlier_world : World Z GGNN_Train.output :=
  mkWorld {[GGNN_Train.file_path := JsonObject {["earlier" := 8%Z]}]} [].

(** A gated layer of three channels and two steps. *)
Definition layer : GGNN_Train.GatedGraphConv Z :=
  GGNN_Train.mkGatedGraphConv 3 2 (add_cell 3 3 true) (fun _ _ _ => 1%Z).

(** An antisymmetric layer of two channels on two nodes joined by an edge,
    and the same layer with a negative step size. *)
Definition adgn_layer (epsilon : R) : ADGN_Message.ADGNConv :=
  ADGN_Message.ADGNConv_init 2 2 (1 / 10) epsilon true
    (fun i j => INR (i + 2 * j)) (fun _ => 1%R) (fun _ _ => 1%R).

Definition two_nodes : Tensor R :=
  mkTensor 2 2 (fun i j => INR (i + j)).

Definition one_edge : list (nat * nat) := [(0, 1)].

Definition empty_world_gnn : World Z GNN.output := mkWorld ∅ [].


(** Two graphs of one node each, for a graph task: the first is labelled
    with the class of its larger score, the second is not. *)
Definition lone_node (scores : list Z) (label : nat) : Data Z :=
  mkData (Some (of_rows 2 [scores])) [] None [label] [true] [false] [false]
    [0] 1 1.

Definition two_graphs : Dataset Z :=
  mkDataset [lone_node [0; 5]%Z 1; lone_node [3; 1]%Z 1]
    (Some (of_rows 2 [[0; 5]; [3; 1]]%Z)) 2.

Definition two_graphs_loader : DataLoader Z :=
  mkLoader two_graphs (graphs two_graphs).

Definition gcn_for_graphs : GNN.GCN Z :=
  GNN.GCN_init 2 32 2 6 (1 # 4) "graph".

(** The entries drawn for an antisymmetric network, and a graph of two
    nodes with real features. *)
Definition adgn_init : ADGN_Message.Init :=
  ADGN_Message.mkInit (fun i j => INR (i + j)) (fun _ i j => INR (i + 2 * j))
    (fun _ _ => 1%R) (fun _ _ _ => 1%R) (fun _ _ => 1%R) (fun _ => 0%R).

Definition real_graph : Data R :=
  mkData (Some two_nodes) one_edge None [0; 1] [true; false] [false; true]
    [false; false] [0; 0] 2 1.

End Sample.

(* ================================================================== *)
(** * Properties                                                       *)
(* ================================================================== *)

(** ** The monad *)

Lemma bind_Ok {S X Y} (m : M S X) (k : X -> M S Y) s x s' :
  m s = Ok (x, s') -> bind m k s = k x s'.
Proof. intros Hm. unfold bind. now rewrite Hm. Qed.

Lemma bind_Raise {S X Y} (m : M S X) (k : X -> M S Y) s e :
  m s = Raise e -> bind m k s = Raise e.
Proof. intros Hm. unfold bind. now rewrite Hm. Qed.

Lemma bind_inv_Ok {S X Y} (m : M S X) (k : X -> M S Y) s y s'' :
  bind m k s = Ok (y, s'') ->
  exists x s', m s = Ok (x, s') /\ k x s' = Ok (y, s'').
Proof.
  unfold bind. destruct (m s) as [[x s']|e]; [|discriminate].
  intros Hk. now exists x, s'.
Qed.

Lemma bind_inv_Raise {S X Y} (m : M S X) (k : X -> M S Y) s e :
  bind m k s = Raise e ->
  m s = Raise e \/ exists x s', m s = Ok (x, s') /\ k x s' = Raise e.
Proof.
  unfold bind. destruct (m s) as [[x s']|e']; intros Hk.
  - right. now exists x, s'.
  - left. now inversion Hk.
Qed.

Lemma lift_FOk {S X} (r : fresult X) (x : X) (s : S) :
  r = FOk x -> lift r s = Ok (x, s).
Proof. now intros ->. Qed.

(** A library operator never raises an authored exception. *)
Lemma lift_not_authored {S X} (r : fresult X) (s : S) e :
  lift r s = Raise e -> authored e = false.
Proof. destruct r; simpl; intros Hr; inversion Hr; reflexivity. Qed.

Lemma range_length lo hi : length (range lo hi) = Z.to_nat (hi - lo).
Proof. unfold range. now rewrite length_map, length_seq. Qed.

Section Ranges.

Lemma range_nonpos lo hi : (hi <= lo)%Z -> range lo hi = [].
Proof.
  intros Hle. unfold range.
  replace (Z.to_nat (hi - lo)) with 0 by lia. reflexivity.
Qed.

Lemma range_snoc lo hi :
  (lo < hi)%Z -> range lo hi = range lo (hi - 1) ++ [(hi - 1)%Z].
Proof.
  intros Hlt. unfold range.
  replace (Z.to_nat (hi - lo)) with (S (Z.to_nat (hi - 1 - lo))) by lia.
  rewrite seq_S, map_app. simpl. f_equal. f_equal. lia.
Qed.

Lemma in_range lo hi e : In e (range lo hi) <-> (lo <= e < hi)%Z.
Proof.
  unfold range. rewrite in_map_iff. split.
  - intros (k & <- & Hk). apply in_seq in Hk. lia.
  - intros He. exists (Z.to_nat (e - lo)). split; [lia|].
    apply in_seq. lia.
Qed.

Lemma last_map_snoc {X Y} (f : X -> Y) (l : list X) (x : X) (d : Y) :
  List.last (map f (l ++ [x])) d = f x.
Proof. rewrite map_app. simpl. apply last_last. Qed.

End Ranges.

(** ** Files: the copy of a data set that the library keeps *)

Lemma append_cons (c : ascii) (s1 s2 : string) :
  String.append (String c s1) s2 = String c (String.append s1 s2).
Proof. reflexivity. Qed.

Lemma append_nil (s : string) : String.append EmptyString s = s.
Proof. reflexivity. Qed.

Section Dataset_files.
Context {V : Type}.
Implicit Types (files : gmap string (file V)) (paths : list string).

Lemma store_missing_keeps (content : file V) paths : forall files p f,
  files !! p = Some f -> store_missing content paths files !! p = Some f.
Proof.
  induction paths as [|q paths IH]; intros files p f Hp; [exact Hp|].
  simpl. apply IH. destruct (files !! q) eqn:Hq; [exact Hp|].
  rewrite lookup_insert_ne; [exact Hp|]. intros ->. congruence.
Qed.

Lemma store_missing_frame (content : file V) paths : forall files p,
  ~ In p paths -> store_missing content paths files !! p = files !! p.
Proof.
  induction paths as [|q paths IH]; intros files p Hp; [reflexivity|].
  simpl. rewrite IH by (intros Hin; apply Hp; now right).
  destruct (files !! q); [reflexivity|].
  apply lookup_insert_ne. intros ->. apply Hp. now left.
Qed.



Lemma store_frame (content : file V) paths : forall files p,
  ~ In p paths -> store content paths files !! p = files !! p.
Proof.
  induction paths as [|q paths IH]; intros files p Hp; [reflexivity|].
  simpl. rewrite IH by (intros Hin; apply Hp; now right).
  apply lookup_insert_ne. intros ->. apply Hp. now left.
Qed.


(** Building the data set touches the files of its copy only. *)
Lemma Planetoid_files_frame (root name : string) files p :
  ~ In p (Planetoid_paths root name) ->
  Planetoid_files root name files !! p = files !! p.
Proof.
  intros Hp. unfold Planetoid_files, Planetoid_paths in *.
  rewrite in_app_iff in Hp.
  destruct (store_missing _ _ files !! Planetoid_data_pt root name).
  - apply store_missing_frame. tauto.
  - rewrite store_frame by tauto. apply store_missing_frame. tauto.
Qed.


(** A raw file that is on disk is not written again, and neither are the
    processed files when [data.pt] is on disk. *)
Lemma Planetoid_files_keeps (root name : string) files p f :
  files !! p = Some f ->
  (~ In p (Planetoid_processed_paths root name) \/
   files !! Planetoid_data_pt root name <> None) ->
  Planetoid_files root name files !! p = Some f.
Proof.
  intros Hp Hcase. unfold Planetoid_files.
  destruct (store_missing _ _ files !! Planetoid_data_pt root name) eqn:Hd.
  - now apply store_missing_keeps.
  - destruct Hcase as [Hout|Hthere].
    + rewrite store_frame by exact Hout. now apply store_missing_keeps.
    + destruct (files !! Planetoid_data_pt root name) eqn:Hd0; [|congruence].
      apply (store_missing_keeps (DatasetFile name) (Planetoid_raw_paths root name))
        in Hd0. congruence.
Qed.


Lemma Planetoid_Ok {A O} (root name : string) (content : Torch.Dataset A)
  (w : World V O) :
  Torch.Planetoid root name content w
  = Ok (content, mkWorld (Planetoid_files root name (fs w)) (stdout w)).
Proof. reflexivity. Qed.

End Dataset_files.

(** ** GatedGraphConv *)

Section GatedGraphConv_facts.
Import Torch GGNN_Train.
Context {A : Type} `{Scalar A} `{!Framework A}.
Variable data : Data A.
Variable self : GatedGraphConv A.

Lemma logged_Ok {X} (c : call) (r : fresult X) (x : X) log :
  r = FOk x -> logged c r log = Ok (x, log ++ [c]).
Proof. now intros ->. Qed.

Lemma logged_not_authored {X} (c : call) (r : fresult X) log e :
  logged c r log = Raise e -> authored e = false.
Proof. unfold logged, bind, modify. apply lift_not_authored. Qed.

Lemma forward_step_not_authored i x log e :
  forward_step data self i x log = Raise e -> authored e = false.
Proof.
  unfold forward_step. intros Hs.
  apply bind_inv_Raise in Hs as [Hs|(w & l1 & _ & Hs)];
    [now apply lift_not_authored in Hs|].
  apply bind_inv_Raise in Hs as [Hs|(m & l2 & _ & Hs)];
    [now apply logged_not_authored in Hs|].
  apply bind_inv_Raise in Hs as [Hs|(m' & l3 & _ & Hs)];
    now apply logged_not_authored in Hs.
Qed.

Lemma loop_not_authored l x log e :
  for_each l (forward_step data self) x log = Raise e -> authored e = false.
Proof.
  revert x log. induction l as [|i l IH]; intros x log; simpl.
  - discriminate.
  - intros Hl. apply bind_inv_Raise in Hl as [Hl|(x' & l' & _ & Hl)].
    + now apply forward_step_not_authored in Hl.
    + now apply IH in Hl.
Qed.

Lemma pad_not_authored x log e :
  pad self x log = Raise e -> authored e = false.
Proof.
  unfold pad. destruct (size1 x <? out_channels self).
  - apply lift_not_authored.
  - discriminate.
Qed.

(** The guard of [forward], and nothing else in it, raises an authored
    exception. *)
Lemma forward_guard x log :
  out_channels self < size1 x ->
  forward data self x log = Raise (ValueError channel_error).
Proof. intros Hlt. unfold forward. apply Nat.ltb_lt in Hlt. now rewrite Hlt. Qed.

Lemma forward_authored_only_guard x log e :
  forward data self x log = Raise e -> authored e = true ->
  out_channels self < size1 x /\ e = ValueError channel_error.
Proof.
  intros He Ha.
  assert (Hlt : out_channels self < size1 x).
  { unfold forward in He.
    destruct (out_channels self <? size1 x) eqn:Hlt; [now apply Nat.ltb_lt|].
    apply bind_inv_Raise in He as [He|(x0 & log' & _ & He)].
    - apply pad_not_authored in He. congruence.
    - apply loop_not_authored in He. congruence. }
  split; [exact Hlt|]. rewrite (forward_guard x log Hlt) in He. now inversion He.
Qed.

(** The padded input: the shape and the entries of what [pad] returns. *)
Lemma pad_spec x log :
  size1 x <= out_channels self ->
  exists x0, pad self x log = Ok (x0, log) /\
    size0 x0 = size0 x /\ size1 x0 = out_channels self /\
    forall i j, j < out_channels self ->
      item x0 i j = if j <? size1 x then item x i j else s_zero.
Proof.
  intros Hle. unfold pad.
  destruct (size1 x <? out_channels self) eqn:Hlt.
  - apply Nat.ltb_lt in Hlt. unfold cat_dim1. simpl.
    rewrite Nat.eqb_refl. eexists. split; [reflexivity|]. simpl.
    repeat split. lia.
  - apply Nat.ltb_ge in Hlt. exists x. repeat split; [lia|].
    intros i j Hj. assert (Hjx : j < size1 x) by lia.
    apply Nat.ltb_lt in Hjx. now rewrite Hjx.
Qed.

(** Message propagation keeps the shape when the edges are within the
    nodes. *)
Lemma propagate_default_Ok (m : Tensor A) :
  edges_within data (size0 m) ->
  exists m', propagate default_message (edge_index data) m = FOk m' /\
             size0 m' = size0 m /\ size1 m' = size1 m.
Proof.
  intros Hin. unfold propagate, default_message.
  assert (Hall : forallb (fun e => (fst e <? size0 m) && (snd e <? size0 m))
                   (edge_index data) = true).
  { apply forallb_forall. intros e He. destruct (Hin e He) as [H1 H2].
    apply andb_true_intro. split; now apply Nat.ltb_lt. }
  rewrite Hall. eexists. split; [reflexivity|]. now split.
Qed.

(** One step of the loop under the contract of the cell. *)
Lemma forward_step_Ok i x log :
  cell_contract (rnn self) (out_channels self) ->
  edges_within data (size0 x) ->
  size1 x = out_channels self ->
  i < num_layers self ->
  exists w m m' x',
    index3 (weight self) i = FOk w /\
    matmul x w = FOk m /\
    propagate default_message (edge_index data) m = FOk m' /\
    rnn self m' x = FOk x' /\
    size0 x' = size0 x /\ size1 x' = out_channels self /\
    forward_step data self i x log
      = Ok (x', log ++ [CallMatmul i; CallPropagate; CallRnn]).
Proof.
  intros Hcell Hprop Hx Hi.
  assert (Hw : index3 (weight self) i
               = FOk (mkTensor (out_channels self) (out_channels self)
                        (weight_entries self i))).
  { unfold index3, weight. simpl. apply Nat.ltb_lt in Hi. now rewrite Hi. }
  set (w := mkTensor (out_channels self) (out_channels self) (weight_entries self i)) in *.
  assert (Hm : exists m, matmul x w = FOk m /\ size0 m = size0 x
                         /\ size1 m = out_channels self).
  { unfold matmul. simpl. rewrite Hx, Nat.eqb_refl. eexists. now split. }
  destruct Hm as (m & Hm & Hm0 & Hm1).
  destruct (propagate_default_Ok m) as (m' & Hm' & Hm'0 & Hm'1);
    [now rewrite Hm0|].
  destruct (Hcell m' x) as (x' & Hx' & Hx'0 & Hx'1); [congruence..|].
  exists w, m, m', x'. repeat split; try assumption.
  unfold forward_step.
  rewrite (bind_Ok _ _ _ _ _ (lift_FOk _ _ log Hw)).
  rewrite (bind_Ok _ _ _ _ _ (logged_Ok (CallMatmul i) _ _ log Hm)).
  rewrite (bind_Ok _ _ _ _ _ (logged_Ok CallPropagate _ _ _ Hm')).
  rewrite (logged_Ok CallRnn _ _ _ Hx').
  now rewrite <- !app_assoc.
Qed.

(** The loop from step [a]: [n] more steps extend the recurrence and the
    log. *)
Lemma loop_unrolls n : forall a x0 x log,
  cell_contract (rnn self) (out_channels self) ->
  edges_within data (size0 x) ->
  size1 x = out_channels self ->
  a + n <= num_layers self ->
  recurrence data self a x0 x ->
  exists y,
    for_each (seq a n) (forward_step data self) x log
      = Ok (y, log ++ iterations a n) /\
    recurrence data self (a + n) x0 y /\
    size0 y = size0 x /\ size1 y = out_channels self.
Proof.
  induction n as [|n IH]; intros a x0 x log Hcell Hprop Hx Han Hrec.
  - exists x. simpl. unfold iterations. simpl.
    rewrite app_nil_r, Nat.add_0_r. now repeat split.
  - destruct (forward_step_Ok a x log Hcell Hprop Hx)
      as (w & m & m' & x' & Hw & Hm & Hm' & Hx' & Hx'0 & Hx'1 & Hstep); [lia|].
    destruct (IH (S a) x0 x' (log ++ [CallMatmul a; CallPropagate; CallRnn]))
      as (y & Hloop & Hrecy & Hy0 & Hy1); try assumption.
    + now rewrite Hx'0.
    + lia.
    + eapply recurrence_S; eassumption.
    + exists y. simpl. rewrite (bind_Ok _ _ _ _ _ Hstep), Hloop.
      unfold iterations. simpl. rewrite <- app_assoc. simpl.
      replace (a + S n) with (S a + n) by lia.
      repeat split; [assumption|congruence|assumption].
Qed.

Lemma iterations_length a n : length (iterations a n) = 3 * n.
Proof.
  unfold iterations. revert a. induction n as [|n IH]; intros a; simpl.
  - reflexivity.
  - rewrite IH. lia.
Qed.

(** Every state of the recurrence has the shape of its first state. *)
Lemma recurrence_shape t x0 xt :
  cell_contract (rnn self) (out_channels self) ->
  edges_within data (size0 x0) ->
  size1 x0 = out_channels self ->
  recurrence data self t x0 xt ->
  t <= num_layers self ->
  size0 xt = size0 x0 /\ size1 xt = out_channels self.
Proof.
  intros Hcell Hedges Hx0 Hrec.
  induction Hrec as [x0|t x0 xt w m m' xt' Hrec IH Hw Hm Hm' Hxt'];
    intros Ht; [now split|].
  destruct IH as [IH0 IH1]; [assumption..|lia|].
  destruct (forward_step_Ok t xt [] Hcell)
    as (w2 & m2 & m2' & x2 & Hw2 & Hm2 & Hm2' & Hx2 & Hx20 & Hx21 & _);
    [now rewrite IH0|assumption|lia|].
  assert (xt' = x2) by congruence. subst. split; congruence.
Qed.

End GatedGraphConv_facts.

Section GatedGraphConv_claims.
Import Torch GGNN_Train.
Context {A : Type} `{Scalar A} `{!Framework A}.

(** C3.  The recurrence is unrolled for a fixed number of steps: on a
    valid input (no more features than [out_channels], edges within the
    nodes of the input, a cell that keeps the shape of the state),
    [forward] of a layer with [num_layers = T] returns, and what it does is
    exactly [T] iterations: the library calls it makes are the product with
    [weight[i]], one propagation and one call of the cell for
    [i = 0 .. T-1] in this order, and the tensor returned is the state after
    the [T]-th step of the recurrence started on the padded input. *)
Theorem forward_unrolls_num_layers_steps
  (data : Data A) (self : GatedGraphConv A) (x : Tensor A) :
  cell_contract (rnn self) (out_channels self) ->
  edges_within data (size0 x) ->
  size1 x <= out_channels self ->
  exists x0 xT,
    pad self x [] = Ok (x0, []) /\
    forward data self x [] = Ok (xT, iterations 0 (num_layers self)) /\
    recurrence data self (num_layers self) x0 xT /\
    length (iterations 0 (num_layers self)) = 3 * num_layers self.
Proof.
  intros Hcell Hedges Hle.
  destruct (pad_spec self x [] Hle) as (x0 & Hpad & Hx00 & Hx01 & _).
  destruct (loop_unrolls data self (num_layers self) 0 x0 x0 [] Hcell)
    as (xT & Hloop & Hrec & _); [now rewrite Hx00|assumption|lia|constructor|].
  exists x0, xT. split; [assumption|]. split; [|split; [assumption|]].
  - unfold forward. apply Nat.leb_le in Hle.
    rewrite Nat.ltb_antisym, Hle. simpl.
    now rewrite (bind_Ok _ _ _ _ _ Hpad).
  - apply iterations_length.
Qed.

(** C8.  An input with fewer features than [out_channels] is padded on the
    right with zero columns before the loop: the padded tensor keeps the
    entries of [x] in its first columns, has zeros in the others and exactly
    [out_channels] features; every state of the recurrence and the tensor
    returned have [out_channels] features for the same nodes. *)
Theorem forward_pads_to_out_channels
  (data : Data A) (self : GatedGraphConv A) (x : Tensor A) (log : list call) :
  cell_contract (rnn self) (out_channels self) ->
  edges_within data (size0 x) ->
  size1 x < out_channels self ->
  exists x0 xT log',
    cat_dim1 x (new_zeros (size0 x) (out_channels self - size1 x)) = FOk x0 /\
    size0 x0 = size0 x /\ size1 x0 = out_channels self /\
    (forall i j, j < out_channels self ->
       item x0 i j = if j <? size1 x then item x i j else s_zero) /\
    forward data self x log
      = for_each (seq 0 (num_layers self)) (forward_step data self) x0 log /\
    forward data self x log = Ok (xT, log') /\
    size0 xT = size0 x /\ size1 xT = out_channels self /\
    (forall t xt, t <= num_layers self -> recurrence data self t x0 xt ->
                  size0 xt = size0 x /\ size1 xt = out_channels self).
Proof.
  intros Hcell Hedges Hlt.
  destruct (pad_spec self x log) as (x0 & Hpad & Hx00 & Hx01 & Hitem); [lia|].
  assert (Hcat : cat_dim1 x (new_zeros (size0 x) (out_channels self - size1 x))
                 = FOk x0).
  { unfold pad in Hpad. apply Nat.ltb_lt in Hlt. rewrite Hlt in Hpad.
    destruct (cat_dim1 _ _); simpl in Hpad; inversion Hpad. reflexivity. }
  assert (Hfwd : forward data self x log
                 = for_each (seq 0 (num_layers self)) (forward_step data self) x0 log).
  { unfold forward. assert (Hge : (out_channels self <? size1 x) = false)
      by (apply Nat.ltb_ge; lia).
    rewrite Hge. now rewrite (bind_Ok _ _ _ _ _ Hpad). }
  destruct (loop_unrolls data self (num_layers self) 0 x0 x0 log Hcell)
    as (xT & Hloop & _ & HxT0 & HxT1); [now rewrite Hx00|assumption|lia|constructor|].
  exists x0, xT, (log ++ iterations 0 (num_layers self)).
  split; [exact Hcat|]. split; [exact Hx00|]. split; [exact Hx01|].
  split; [exact Hitem|]. split; [exact Hfwd|]. split; [now rewrite Hfwd|].
  split; [congruence|]. split; [exact HxT1|].
  intros t xt Ht Hrec.
  destruct (recurrence_shape data self t x0 xt Hcell) as [H0 H1];
    [now rewrite Hx00|assumption..|].
  split; congruence.
Qed.

End GatedGraphConv_claims.

Section GatedGraphConv_examples.
Import Torch GGNN_Train Sample.

Lemma add_cell_contract n : cell_contract (add_cell n n true) n.
Proof.
  intros m h Hm Hh H0. unfold add_cell.
  rewrite Hm, Hh, H0, !Nat.eqb_refl. simpl.
  eexists. split; [reflexivity|]. now split.
Qed.

Lemma graph_edges_within : edges_within graph 3.
Proof.
  intros e He. simpl in He.
  repeat (destruct He as [<-|He]; [simpl; lia|]). destruct He.
Qed.

(** The sample layer on the sample graph: two features are padded to three, and
    two steps of the recurrence follow. *)
Example forward_runs :
  match forward graph layer features [] with
  | Ok (xT, log) =>
      to_rows xT = [[57; 58; 56]; [73; 74; 70]; [61; 62; 56]]%Z /\
      log = [CallMatmul 0; CallPropagate; CallRnn;
             CallMatmul 1; CallPropagate; CallRnn]
  | Raise _ => False
  end.
Proof. vm_compute. split; reflexivity. Qed.

Example forward_rejects_wide_input :
  forward graph layer (of_rows 4 [[1; 2; 3; 4]]%Z) []
  = Raise (ValueError channel_error).
Proof. reflexivity. Qed.

Lemma forward_unrolls_witness :
  exists x0 xT,
    pad layer features [] = Ok (x0, []) /\
    forward graph layer features [] = Ok (xT, iterations 0 2) /\
    recurrence graph layer 2 x0 xT /\
    length (iterations 0 2) = 6.
Proof.
  refine (forward_unrolls_num_layers_steps graph layer features
            (add_cell_contract 3) graph_edges_within _).
  simpl. lia.
Defined.

Lemma forward_pads_witness :
  exists x0 xT log',
    cat_dim1 features (new_zeros 3 1) = FOk x0 /\
    size0 x0 = 3 /\ size1 x0 = 3 /\
    (forall i j, j < 3 -> item x0 i j = if j <? 2 then item features i j else 0%Z) /\
    forward graph layer features []
      = for_each (seq 0 2) (forward_step graph layer) x0 [] /\
    forward graph layer features [] = Ok (xT, log') /\
    size0 xT = 3 /\ size1 xT = 3 /\
    (forall t xt, t <= 2 -> recurrence graph layer t x0 xt ->
                  size0 xt = 3 /\ size1 xt = 3).
Proof.
  refine (forward_pads_to_out_channels graph layer features []
            (add_cell_contract 3) graph_edges_within _).
  simpl. lia.
Defined.

End GatedGraphConv_examples.

(** ** ADGNConv *)

Section ADGNConv_facts.
Import Torch ADGN_Message.
Open Scope R_scope.

Lemma fbind_inv {X Y} (r : fresult X) (k : X -> fresult Y) y :
  fbind r k = FOk y -> exists x, r = FOk x /\ k x = FOk y.
Proof. destruct r as [x|e]; simpl; [|discriminate]. intros Hk. now exists x. Qed.

Lemma broadcast_dim_refl n : broadcast_dim n n = Some n.
Proof. unfold broadcast_dim. now rewrite Nat.eqb_refl. Qed.

(** Inside a dimension, broadcasting does not move an index. *)
Lemma bidx_lt n i : (i < n)%nat -> bidx n i = i.
Proof.
  intros Hi. unfold bidx. destruct (n =? 1)%nat eqn:Hn; [|reflexivity].
  apply Nat.eqb_eq in Hn. lia.
Qed.

Lemma broadcast2_inv (f : R -> R -> R) (a b c : Tensor R) :
  broadcast2 f a b = FOk c ->
  exists n m,
    broadcast_dim (size0 a) (size0 b) = Some n /\
    broadcast_dim (size1 a) (size1 b) = Some m /\
    c = mkTensor n m
          (fun i j => f (item a (bidx (size0 a) i) (bidx (size1 a) j))
                        (item b (bidx (size0 b) i) (bidx (size1 b) j))).
Proof.
  unfold broadcast2.
  destruct (broadcast_dim (size0 a) (size0 b)) as [n|]; [|discriminate].
  destruct (broadcast_dim (size1 a) (size1 b)) as [m|]; [|discriminate].
  intros Hc. inversion Hc. now exists n, m.
Qed.

(** An entry-wise operator on two tensors of one shape. *)
Lemma broadcast2_same (f : R -> R -> R) (a b : Tensor R) :
  size0 a = size0 b -> size1 a = size1 b ->
  exists c, broadcast2 f a b = FOk c /\
    size0 c = size0 a /\ size1 c = size1 a /\
    forall i j, (i < size0 a)%nat -> (j < size1 a)%nat ->
      item c i j = f (item a i j) (item b i j).
Proof.
  intros H0 H1. unfold broadcast2.
  rewrite <- H0, <- H1, !broadcast_dim_refl.
  eexists. split; [reflexivity|]. simpl. repeat split.
  intros i j Hi Hj. now rewrite !bidx_lt.
Qed.

(** The hyperbolic tangent stays within [-1, 1]. *)
Lemma tanh_bounded (v : R) : Rabs (tanh v) <= 1.
Proof.
  unfold tanh, sinh, cosh.
  pose proof (exp_pos v) as Ha. pose proof (exp_pos (- v)) as Hb.
  set (a := exp v) in *. set (b := exp (- v)) in *.
  replace ((a - b) / 2 / ((a + b) / 2)) with ((a - b) / (a + b)) by (field; lra).
  apply Rabs_le. split.
  - apply Rmult_le_reg_r with (a + b); [lra|].
    unfold Rdiv. rewrite Rmult_assoc, Rinv_l by lra. lra.
  - apply Rmult_le_reg_r with (a + b); [lra|].
    unfold Rdiv. rewrite Rmult_assoc, Rinv_l by lra. lra.
Qed.

(** A residual step of size [eps] moves a value by at most [|eps|]. *)
Lemma residual_bound (u eps v : R) :
  Rabs (u + eps * tanh v - u) <= Rabs eps.
Proof.
  replace (u + eps * tanh v - u) with (eps * tanh v) by ring.
  rewrite Rabs_mult. pose proof (tanh_bounded v). pose proof (Rabs_pos eps).
  nra.
Qed.

(** The antisymmetric weight matrix, entry by entry. *)
Lemma effective_W_antisymmetry_entries (self : ADGNConv) :
  antisymmetry self = true ->
  exists W, effective_W self = FOk W /\
    size0 W = in_channels self /\ size1 W = in_channels self /\
    forall i j, (i < in_channels self)%nat -> (j < in_channels self)%nat ->
      item W i j
      = Weights_entries self i j - Weights_entries self j i
        - gamma self * (if (i =? j)%nat then 1 else 0).
Proof.
  intros Ha. unfold effective_W. rewrite Ha.
  destruct (broadcast2_same (fun u v => s_add u (s_opp v))
              (Weights self) (transpose (Weights self)))
    as (d & Hd & Hd0 & Hd1 & Hdi); [reflexivity..|].
  unfold tsub. rewrite Hd. unfold fbind.
  destruct (broadcast2_same (fun u v => s_add u (s_opp v))
              d (scale (gamma self) (Identity self)))
    as (W & HW & HW0 & HW1 & HWi); [simpl in *; congruence..|].
  rewrite HW. exists W. split; [reflexivity|].
  simpl in Hd0, Hd1.
  split; [congruence|]. split; [congruence|].
  intros i j Hi Hj. rewrite HWi by (rewrite ?Hd0, ?Hd1; assumption).
  rewrite Hdi by assumption. simpl.
  destruct (i =? j)%nat; ring.
Qed.

Lemma effective_W_shape (self : ADGNConv) W :
  effective_W self = FOk W ->
  size0 W = in_channels self /\ size1 W = in_channels self.
Proof.
  destruct (antisymmetry self) eqn:Ha.
  - destruct (effective_W_antisymmetry_entries self Ha) as (W' & HW' & H0 & H1 & _).
    intros HW. rewrite HW' in HW. inversion HW. subst. now split.
  - unfold effective_W. rewrite Ha. intros HW. inversion HW. now split.
Qed.

Lemma matmul_inv (a b c : Tensor R) :
  matmul a b = FOk c ->
  size1 a = size0 b /\ size0 c = size0 a /\ size1 c = size1 b.
Proof.
  unfold matmul. destruct (size1 a =? size0 b)%nat eqn:Hab; [|discriminate].
  intros Hc. inversion Hc. simpl. apply Nat.eqb_eq in Hab. now repeat split.
Qed.

Lemma broadcast_dim_1_l n : broadcast_dim 1 n = Some n.
Proof.
  unfold broadcast_dim. destruct (1 =? n)%nat eqn:Hn; [|reflexivity].
  apply Nat.eqb_eq in Hn. now subst.
Qed.

Lemma broadcast_dim_1_r n : broadcast_dim n 1 = Some n.
Proof.
  unfold broadcast_dim. destruct (n =? 1)%nat; [reflexivity|]. reflexivity.
Qed.

Lemma propagate_inv (msg_fn : Tensor R -> fresult (Tensor R)) ei (a c : Tensor R) :
  propagate msg_fn ei a = FOk c ->
  exists msg, msg_fn (select_rows a (map fst ei)) = FOk msg /\
    size0 c = size0 a /\ size1 c = size1 msg.
Proof.
  unfold propagate. destruct (forallb _ ei); [|discriminate].
  destruct (msg_fn _) as [msg|]; [|discriminate].
  intros Hc. inversion Hc. exists msg. now repeat split.
Qed.

(** With as many output as input channels, the layer keeps the shape of its
    input. *)
Lemma forward_shape (self : ADGNConv) x ei out pre :
  in_channels self = out_channels self ->
  forward self x ei = FOk out ->
  pre_activation self x ei = FOk pre ->
  size0 out = size0 x /\ size1 out = size1 x /\
  size0 pre = size0 x /\ size1 pre = size1 x.
Proof.
  intros Hio Hf Hp. unfold forward in Hf. unfold pre_activation in Hp.
  apply fbind_inv in Hf as (W & HW & Hf). rewrite HW in Hp. unfold fbind at 1 in Hp.
  apply fbind_inv in Hf as (aggr0 & Haggr0 & Hf).
  rewrite Haggr0 in Hp. unfold fbind at 1 in Hp.
  apply fbind_inv in Hf as (deg & Hdeg & Hf). rewrite Hdeg in Hp. unfold fbind at 1 in Hp.
  apply fbind_inv in Hf as (nrow & Hnrow & Hf). rewrite Hnrow in Hp. unfold fbind at 1 in Hp.
  apply fbind_inv in Hf as (ncol & Hncol & Hf). rewrite Hncol in Hp. unfold fbind at 1 in Hp.
  apply fbind_inv in Hf as (norm & Hnorm & Hf). rewrite Hnorm in Hp. unfold fbind at 1 in Hp.
  apply fbind_inv in Hf as (aggr & Haggr & Hf). rewrite Haggr in Hp. unfold fbind at 1 in Hp.
  apply fbind_inv in Hf as (xw & Hxw & Hf). rewrite Hxw in Hp. unfold fbind at 1 in Hp.
  apply fbind_inv in Hf as (s & Hs & Hf). rewrite Hs in Hp. unfold fbind at 1 in Hp.
  apply fbind_inv in Hf as (pre' & Hpre & Hf).
  assert (pre' = pre) by congruence. subst pre'. clear Hp.
  destruct (effective_W_shape self W HW) as [HW0 HW1].
  apply matmul_inv in Hxw as (Hx1 & Hxw0 & Hxw1).
  unfold linear in Haggr0. apply matmul_inv in Haggr0 as (_ & Ha0 & Ha1).
  simpl in Ha1.
  apply propagate_inv in Haggr as (msg & Hmsg & Hg0 & Hg1).
  unfold message in Hmsg.
  apply broadcast2_inv in Hmsg as (n1 & m1 & _ & Hm1 & ->).
  simpl in Hm1, Hg1. rewrite broadcast_dim_1_l in Hm1.
  injection Hm1 as Hm1. rewrite <- Hm1, Ha1 in Hg1. clear Hm1.
  apply broadcast2_inv in Hs as (n2 & m2 & Hn2 & Hm2 & Hs).
  rewrite Hxw0, Hg0, Ha0, broadcast_dim_refl in Hn2. injection Hn2 as Hn2.
  rewrite Hxw1, Hg1, HW1, Hio, broadcast_dim_refl in Hm2. injection Hm2 as Hm2.
  apply broadcast2_inv in Hpre as (n3 & m3 & Hn3 & Hm3 & Hpre).
  rewrite Hs in Hn3, Hm3. simpl in Hn3, Hm3.
  rewrite broadcast_dim_1_r in Hn3. injection Hn3 as Hn3.
  rewrite <- Hm2, Hio, broadcast_dim_refl in Hm3. injection Hm3 as Hm3.
  apply broadcast2_inv in Hf as (n4 & m4 & Hn4 & Hm4 & Hf).
  rewrite Hpre in Hn4, Hm4. simpl in Hn4, Hm4.
  rewrite <- Hn3, <- Hn2, broadcast_dim_refl in Hn4. injection Hn4 as Hn4.
  rewrite <- Hm3, Hx1, HW0, Hio, broadcast_dim_refl in Hm4. injection Hm4 as Hm4.
  rewrite Hf, Hpre. simpl. rewrite <- Hn4, <- Hm4, <- Hn3, <- Hm3, <- Hn2.
  rewrite Hx1, HW0, Hio. now repeat split.
Qed.

End ADGNConv_facts.

Section ADGNConv_claims.
Import Torch ADGN_Message.
Open Scope R_scope.

(** C2.  With [antisymmetry=True] the weight matrix that [forward] uses is
    [(Weights - Weights.T) - gamma * I]: adding [gamma * I] back gives an
    antisymmetric matrix, and [W + W.T = -2 * gamma * I].  With
    [antisymmetry=False] it is [Weights] itself. *)
Theorem effective_W_antisymmetric_minus_gamma (self : ADGNConv) :
  (antisymmetry self = true ->
   exists W,
     effective_W self = FOk W /\
     size0 W = in_channels self /\ size1 W = in_channels self /\
     (forall i j, (i < in_channels self)%nat -> (j < in_channels self)%nat ->
        item W i j
        = Weights_entries self i j - Weights_entries self j i
          - gamma self * (if (i =? j)%nat then 1 else 0)) /\
     (exists S, tadd W (scale (gamma self) (Identity self)) = FOk S /\
                antisymmetric S) /\
     (exists T, tadd W (transpose W) = FOk T /\
                tensor_eq T (scale (-2 * gamma self) (Identity self)))) /\
  (antisymmetry self = false -> effective_W self = FOk (Weights self)).
Proof.
  split.
  - intros Ha.
    destruct (effective_W_antisymmetry_entries self Ha)
      as (W & HW & HW0 & HW1 & HWi).
    exists W. split; [exact HW|]. split; [exact HW0|]. split; [exact HW1|].
    split; [exact HWi|]. split.
    + destruct (broadcast2_same s_add W (scale (gamma self) (Identity self)))
        as (S & HS & HS0 & HS1 & HSi); [simpl; congruence..|].
      exists S. split; [exact HS|]. split; [congruence|].
      intros i j Hi Hj. rewrite HS0, HW0 in Hi, Hj.
      rewrite !HSi by (rewrite ?HW0, ?HW1; assumption).
      rewrite !HWi by assumption. simpl.
      rewrite (Nat.eqb_sym j i). destruct (i =? j)%nat; ring.
    + destruct (broadcast2_same s_add W (transpose W))
        as (T & HT & HT0 & HT1 & HTi); [simpl; congruence..|].
      exists T. split; [exact HT|]. split; [simpl; congruence|].
      split; [simpl; congruence|].
      intros i j Hi Hj. rewrite HT0, HW0 in Hi. rewrite HT1, HW1 in Hj.
      rewrite HTi by (rewrite ?HW0, ?HW1; assumption). simpl.
      rewrite !HWi by assumption.
      rewrite (Nat.eqb_sym j i). destruct (i =? j)%nat; ring.
  - intros Ha. unfold effective_W. now rewrite Ha.
Qed.

(** C9, as the code has it.  What [forward] returns is
    [x + epsilon * tanh(x @ W + aggr_x + bias)], read with the broadcasting
    of [+]; every entry of it differs from the entry of [x] it was computed
    from by at most [|epsilon|], hence by at most [epsilon] when [epsilon]
    is not negative.  When the layer has as many output as input channels
    the result has the shape of [x] and the entries correspond index by
    index. *)
Theorem forward_is_bounded_residual_update
  (self : ADGNConv) (x : Tensor R) (edge_index : list (nat * nat)) (out : Tensor R) :
  forward self x edge_index = FOk out ->
  exists pre,
    pre_activation self x edge_index = FOk pre /\
    tadd x (scale (epsilon self) (map_tensor tanh pre)) = FOk out /\
    (forall i j,
       let u := item x (bidx (size0 x) i) (bidx (size1 x) j) in
       let v := item pre (bidx (size0 pre) i) (bidx (size1 pre) j) in
       item out i j = u + epsilon self * tanh v /\
       Rabs (item out i j - u) <= Rabs (epsilon self) /\
       (0 <= epsilon self -> Rabs (item out i j - u) <= epsilon self)) /\
    (in_channels self = out_channels self ->
     size0 out = size0 x /\ size1 out = size1 x /\
     forall i j, (i < size0 x)%nat -> (j < size1 x)%nat ->
       item out i j = item x i j + epsilon self * tanh (item pre i j) /\
       Rabs (item out i j - item x i j) <= Rabs (epsilon self) /\
       (0 <= epsilon self -> Rabs (item out i j - item x i j) <= epsilon self)).
Proof.
  intros Hf0. pose proof Hf0 as Hf. unfold forward in Hf.
  apply fbind_inv in Hf as (W & HW & Hf).
  apply fbind_inv in Hf as (aggr0 & Haggr0 & Hf).
  apply fbind_inv in Hf as (deg & Hdeg & Hf).
  apply fbind_inv in Hf as (nrow & Hnrow & Hf).
  apply fbind_inv in Hf as (ncol & Hncol & Hf).
  apply fbind_inv in Hf as (norm & Hnorm & Hf).
  apply fbind_inv in Hf as (aggr & Haggr & Hf).
  apply fbind_inv in Hf as (xw & Hxw & Hf).
  apply fbind_inv in Hf as (s & Hs & Hf).
  apply fbind_inv in Hf as (pre & Hpre & Hf).
  assert (Hp : pre_activation self x edge_index = FOk pre).
  { unfold pre_activation.
    rewrite HW; unfold fbind at 1. rewrite Haggr0; unfold fbind at 1.
    rewrite Hdeg; unfold fbind at 1. rewrite Hnrow; unfold fbind at 1.
    rewrite Hncol; unfold fbind at 1. rewrite Hnorm; unfold fbind at 1.
    rewrite Haggr; unfold fbind at 1. rewrite Hxw; unfold fbind at 1.
    rewrite Hs; unfold fbind at 1. exact Hpre. }
  assert (Hentries : forall i j,
    let u := item x (bidx (size0 x) i) (bidx (size1 x) j) in
    let v := item pre (bidx (size0 pre) i) (bidx (size1 pre) j) in
    item out i j = u + epsilon self * tanh v /\
    Rabs (item out i j - u) <= Rabs (epsilon self) /\
    (0 <= epsilon self -> Rabs (item out i j - u) <= epsilon self)).
  { apply broadcast2_inv in Hf as (n & m & _ & _ & ->).
    intros i j u v. simpl. fold u. fold v.
    assert (Hb : Rabs (u + epsilon self * tanh v - u) <= Rabs (epsilon self))
      by apply residual_bound.
    split; [reflexivity|]. split; [exact Hb|].
    intros Heps. now rewrite (Rabs_right (epsilon self)) in Hb by lra. }
  exists pre. split; [exact Hp|]. split; [exact Hf|]. split; [exact Hentries|].
  intros Hio.
  destruct (forward_shape self x edge_index out pre Hio Hf0 Hp)
    as (Ho0 & Ho1 & Hp0 & Hp1).
  split; [exact Ho0|]. split; [exact Ho1|].
  intros i j Hi Hj. specialize (Hentries i j). simpl in Hentries.
  rewrite Hp0, Hp1, !(bidx_lt _ i Hi), !(bidx_lt _ j Hj) in Hentries.
  exact Hentries.
Qed.

End ADGNConv_claims.

Section ADGNConv_examples.
Import Torch ADGN_Message Sample.
Open Scope R_scope.

Lemma adgn_forward_runs eps :
  exists out, forward (adgn_layer eps) two_nodes one_edge = FOk out.
Proof. eexists. cbv -[Rplus Rmult Ropp Rinv Rdiv Rminus sqrt INR tanh IZR]. reflexivity. Qed.

(** The claim of C9 as the specification words it ("by at most epsilon")
    fails for a layer built with a negative [epsilon]: no distance is below
    [-1]. *)
Lemma forward_negative_epsilon_counterexample :
  exists out,
    forward (adgn_layer (-1)) two_nodes one_edge = FOk out /\
    ~ (Rabs (item out 0 0 - item two_nodes 0 0) <= epsilon (adgn_layer (-1))).
Proof.
  destruct (adgn_forward_runs (-1)) as [out Hout]. exists out.
  split; [exact Hout|]. intros Hle. simpl in Hle.
  pose proof (Rabs_pos (item out 0 0 - INR 0)) as Hpos. simpl in Hpos. lra.
Qed.

Lemma forward_is_bounded_residual_witness :
  exists out pre,
    forward (adgn_layer (1 / 10)) two_nodes one_edge = FOk out /\
    pre_activation (adgn_layer (1 / 10)) two_nodes one_edge = FOk pre /\
    size0 out = 2%nat /\ size1 out = 2%nat /\
    forall i j, (i < 2)%nat -> (j < 2)%nat ->
      item out i j = item two_nodes i j + 1 / 10 * tanh (item pre i j) /\
      Rabs (item out i j - item two_nodes i j) <= 1 / 10.
Proof.
  destruct (adgn_forward_runs (1 / 10)) as [out Hout]. exists out.
  destruct (forward_is_bounded_residual_update _ _ _ _ Hout)
    as (pre & Hpre & _ & _ & Hsame).
  exists pre. split; [exact Hout|]. split; [exact Hpre|].
  destruct (Hsame eq_refl) as (H0 & H1 & Hij).
  split; [exact H0|]. split; [exact H1|].
  intros i j Hi Hj. destruct (Hij i j Hi Hj) as (He & _ & Hb).
  split; [exact He|]. apply Hb. simpl. lra.
Defined.

End ADGNConv_examples.

(** ** GCN *)

Section GCN_facts.
Import Torch GNN.
Context {A : Type} `{Scalar A} `{!Framework A}.
Variable self : GCN A.

Lemma range_0_of_nat k : range 0 (Z.of_nat k) = map Z.of_nat (seq 0 k).
Proof.
  unfold range. rewrite Z.sub_0_r, Nat2Z.id.
  apply map_ext. intros a. lia.
Qed.

(** One layer of the loop under the contract of the convolution. *)
Lemma conv_step_Ok ei i c n_in n_out t emb :
  nth_error (convs self) i = Some c ->
  conv_contract c n_in n_out ->
  keeps_shape relu -> (forall p b, keeps_shape (dropout p b)) ->
  size1 t = n_in ->
  (forall e, In e ei -> fst e < size0 t /\ snd e < size0 t) ->
  exists t' emb',
    conv_step self ei (Z.of_nat i) (Some t, emb) = FOk (Some t', Some emb') /\
    size0 t' = size0 t /\ size1 t' = n_out.
Proof.
  intros Hc Hcon Hrelu Hdrop Ht Hei. unfold conv_step.
  rewrite Nat2Z.id, Hc. simpl.
  destruct (Hcon t ei Ht Hei) as (t1 & Ht1 & H0 & H1). rewrite Ht1.
  eexists. eexists. split; [reflexivity|].
  destruct (Hdrop (doutrate self) (training self) (relu t1)) as [Hd0 Hd1].
  destruct (Hrelu t1) as [Hr0 Hr1]. split; congruence.
Qed.

(** The layers from the [a]-th on. *)
Lemma conv_loop_Ok ei hidden : forall cs a t emb,
  (forall k c, nth_error cs k = Some c -> nth_error (convs self) (a + k) = Some c) ->
  Forall (fun c => conv_contract c hidden hidden) cs ->
  keeps_shape relu -> (forall p b, keeps_shape (dropout p b)) ->
  size1 t = hidden ->
  (forall e, In e ei -> fst e < size0 t /\ snd e < size0 t) ->
  exists t' emb',
    conv_loop self ei (map Z.of_nat (seq a (length cs))) (Some t, Some emb)
      = FOk (Some t', Some emb') /\
    size0 t' = size0 t /\ size1 t' = hidden.
Proof.
  induction cs as [|c cs IH]; intros a t emb Hnth Hall Hrelu Hdrop Ht Hei.
  - exists t, emb. simpl. now repeat split.
  - apply Forall_cons_iff in Hall as [Hc Hcs].
    destruct (conv_step_Ok ei a c hidden hidden t (Some emb))
      as (t1 & e1 & Hstep & H0 & H1); try assumption.
    { specialize (Hnth 0 c eq_refl). now rewrite Nat.add_0_r in Hnth. }
    destruct (IH (S a) t1 e1) as (t2 & e2 & Hloop & H20 & H21); try assumption.
    { intros k c' Hk. specialize (Hnth (S k) c' Hk).
      now replace (S a + k) with (a + S k) by lia. }
    { now rewrite H0. }
    exists t2, e2. simpl. rewrite Hstep, Hloop. split; [reflexivity|].
    split; congruence.
Qed.

(** The whole stack on features of [input_dim] columns. *)
Lemma layer_stack_Ok (d : Data A) input_dim hidden t :
  GCN_contract self input_dim hidden ->
  size1 t = input_dim ->
  (forall e, In e (edge_index d) -> fst e < size0 t /\ snd e < size0 t) ->
  exists emb logp, layer_stack self d (Some t) = FOk (emb, logp).
Proof.
  intros [(c0 & cs & Hconvs & Hc0 & Hcs & Hnum) Hrelu Hdrop Hpool Hpost] Ht Hei.
  unfold layer_stack. rewrite Hnum, range_0_of_nat.
  change (seq 0 (S (length cs))) with (0 :: seq 1 (length cs)).
  cbn [map conv_loop].
  destruct (conv_step_Ok (edge_index d) 0 c0 input_dim hidden t None)
    as (t1 & e1 & Hstep & H0 & H1); try assumption.
  { now rewrite Hconvs. }
  cbn [Z.of_nat] in Hstep. rewrite Hstep.
  destruct (conv_loop_Ok (edge_index d) hidden cs 1 t1 e1)
    as (t2 & e2 & Hloop & H20 & H21); try assumption.
  { intros k c Hk. now rewrite Hconvs. }
  { now rewrite H0. }
  rewrite Hloop.
  destruct (String.eqb (task self) "graph").
  - destruct (Hpool t2 (batch d) H21) as (t3 & Ht3 & H31). rewrite Ht3.
    destruct (Hpost (training self) t3 H31) as (t4 & Ht4). rewrite Ht4. eauto.
  - destruct (Hpost (training self) t2 H21) as (t4 & Ht4). rewrite Ht4. eauto.
Qed.

End GCN_facts.

Section GCN_init_facts.
Import Torch GNN.
Context {A : Type} `{Scalar A} `{!Framework A}.

(** A freshly built model meets the contract when the layers of the library
    do. *)
Lemma GCN_init_contract input_dim hidden out_dim conv_layers doutrate task :
  (forall n m, conv_contract (build_conv_model task n m) n m) ->
  keeps_shape relu -> (forall p b, keeps_shape (dropout p b)) ->
  (forall t b, size1 t = hidden ->
     exists t', global_max_pool t b = FOk t' /\ size1 t' = hidden) ->
  (forall b t, size1 t = hidden ->
     exists t', Sequential_post_mp hidden doutrate out_dim b t = FOk t') ->
  (0 <= conv_layers)%Z ->
  GCN_contract (GCN_init input_dim hidden out_dim conv_layers doutrate task)
    input_dim hidden.
Proof.
  intros Hconv Hrelu Hdrop Hpool Hpost Hnn.
  constructor; try assumption.
  eexists. eexists. simpl. split; [reflexivity|]. split; [apply Hconv|].
  split.
  - apply List.Forall_forall. intros c Hc. apply repeat_spec in Hc. subst. apply Hconv.
  - rewrite repeat_length. lia.
Qed.

End GCN_init_facts.

Section GCN_layer_stack.
Import Torch GNN.
Context {A : Type} `{Scalar A} `{!Framework A}.
Variable self : GCN A.
Variable ei : list (nat * nat).

Lemma conv_loop_app (l1 l2 : list Z) st :
  conv_loop self ei (l1 ++ l2) st
  = match conv_loop self ei l1 st with
    | FOk st' => conv_loop self ei l2 st'
    | FErr e => FErr e
    end.
Proof.
  revert st. induction l1 as [|i l1 IH]; intros st; [reflexivity|].
  simpl. destruct (conv_step self ei i st); [apply IH|reflexivity].
Qed.

(** One pass of the body of the loop, from features that are there. *)
Lemma conv_step_inv (i : nat) (t : Tensor A) (o : option (Tensor A)) st :
  conv_step self ei (Z.of_nat i) (Some t, o) = FOk st <->
  exists c emb,
    nth_error (convs self) i = Some c /\ c t ei = FOk emb /\
    st = (Some (dropout (doutrate self) (training self) (relu emb)), Some emb).
Proof.
  unfold conv_step. rewrite Nat2Z.id. cbn [fst]. split.
  - destruct (nth_error (convs self) i) as [c|]; [|discriminate].
    destruct (c t ei) as [emb|] eqn:Hc; [|discriminate].
    intros Hst. inversion Hst. now exists c, emb.
  - intros (c & emb & -> & Hc & ->). now rewrite Hc.
Qed.

(** The loop over the first [k] layers is the stack of [k] layers. *)
Lemma conv_loop_layers (x0 : Tensor A) (k : nat) st :
  conv_loop self ei (map Z.of_nat (seq 0 (S k))) (Some x0, None) = FOk st <->
  exists emb xk, st = (Some xk, Some emb) /\ layers_applied self ei x0 (S k) emb xk.
Proof.
  revert st. induction k as [|k IH]; intros st.
  - cbn [seq map conv_loop]. split.
    + destruct (conv_step self ei (Z.of_nat 0) (Some x0, None)) as [st'|] eqn:Hs;
        [|discriminate].
      intros Hst. inversion Hst; subst st'. clear Hst.
      apply conv_step_inv in Hs as (c & emb & Hc & Hrun & ->).
      eexists. eexists. split; [reflexivity|]. now apply (layers_first _ _ _ c).
    + intros (emb & xk & -> & Hl). inversion Hl as [c e Hc Hrun|k c e0 x e Hprev]; subst.
      * assert (Hs : conv_step self ei (Z.of_nat 0) (Some x0, None)
                     = FOk (Some (dropout (doutrate self) (training self) (relu emb)),
                            Some emb)).
        { apply conv_step_inv. now exists c, emb. }
        now rewrite Hs.
      * inversion Hprev.
  - rewrite seq_S, map_app, conv_loop_app. cbn [map Nat.add conv_loop]. split.
    + destruct (conv_loop self ei (map Z.of_nat (seq 0 (S k))) (Some x0, None))
        as [st'|] eqn:Hl in |- *; [|discriminate].
      apply IH in Hl as (emb0 & xk & -> & Hl).
      destruct (conv_step self ei (Z.of_nat (S k)) (Some xk, Some emb0)) as [st'|] eqn:Hs;
        [|discriminate].
      intros Hst. inversion Hst; subst st'. clear Hst.
      apply conv_step_inv in Hs as (c & emb & Hc & Hrun & ->).
      eexists. eexists. split; [reflexivity|].
      now apply (layers_next _ _ _ (S k) c emb0 xk).
    + intros (emb & xk & -> & Hl).
      inversion Hl as [c e Hc Hrun|k' c e0 x e Hprev Hc Hrun]; subst.
      assert (Hloop : conv_loop self ei (map Z.of_nat (seq 0 (S k))) (Some x0, None)
                      = FOk (Some x, Some e0)).
      { apply IH. now exists e0, x. }
      rewrite Hloop.
      assert (Hs : conv_step self ei (Z.of_nat (S k)) (Some x, Some e0)
                   = FOk (Some (dropout (doutrate self) (training self) (relu emb)),
                          Some emb)).
      { apply conv_step_inv. now exists c, emb. }
      now rewrite Hs.
Qed.

End GCN_layer_stack.

Section GCN_layer_stack_forward.
Import Torch GNN.
Context {A : Type} `{Scalar A} `{!Framework A}.

(** What [forward] does with the features it settled on is the normal
    layer stack. *)
Lemma layer_stack_normal (self : GCN A) (d : Data A) (x0 emb logp : Tensor A) :
  layer_stack self d (Some x0) = FOk (emb, logp) <->
  normal_layer_stack self d x0 emb logp.
Proof.
  unfold layer_stack, normal_layer_stack.
  destruct (Z.ltb_spec 0 (num_layers self)) as [Hpos|Hle].
  - assert (Hk : exists k, num_layers self = Z.of_nat (S k)).
    { exists (Z.to_nat (num_layers self) - 1). lia. }
    destruct Hk as [k Hk]. rewrite Hk, range_0_of_nat, Nat2Z.id. split.
    + destruct (conv_loop self (edge_index d) (map Z.of_nat (seq 0 (S k)))
                  (Some x0, None)) as [st|] eqn:Hl; [|discriminate].
      apply conv_loop_layers in Hl as (e & xk & -> & Hl).
      intros Hrun. split; [lia|].
      destruct (String.eqb (task self) "graph").
      * destruct (global_max_pool xk (batch d)) as [pooled|] eqn:Hp; [|discriminate].
        destruct (post_mp self (training self) pooled) as [out|] eqn:Ho; [|discriminate].
        inversion Hrun; subst. now exists xk, pooled, out.
      * destruct (post_mp self (training self) xk) as [out|] eqn:Ho; [|discriminate].
        inversion Hrun; subst. now exists xk, xk, out.
    + intros (_ & xL & pooled & out & Hl & Hp & Ho & ->).
      assert (Hloop : conv_loop self (edge_index d) (map Z.of_nat (seq 0 (S k)))
                        (Some x0, None) = FOk (Some xL, Some emb)).
      { apply conv_loop_layers. now exists emb, xL. }
      rewrite Hloop. destruct (String.eqb (task self) "graph").
      * now rewrite Hp, Ho.
      * subst pooled. now rewrite Ho.
  - rewrite (range_nonpos 0 (num_layers self)) by lia. cbn [conv_loop]. split.
    + intros Hrun. exfalso.
      destruct (String.eqb (task self) "graph").
      * destruct (global_max_pool x0 (batch d)); [|discriminate].
        destruct (post_mp self (training self) _); discriminate.
      * destruct (post_mp self (training self) x0); discriminate.
    + intros [Hpos _]. lia.
Qed.

End GCN_layer_stack_forward.

Section GCN_embedding.
Import Torch GNN.
Context {A : Type} `{Scalar A} `{!Framework A}.
Variable self : GCN A.
Variable ei : list (nat * nat).
Variables n hidden : nat.

Lemma conv_step_emb i c n_in t emb :
  nth_error (convs self) i = Some c ->
  conv_contract c n_in hidden ->
  keeps_shape relu -> (forall p b, keeps_shape (dropout p b)) ->
  size0 t = n -> size1 t = n_in ->
  (forall e, In e ei -> fst e < n /\ snd e < n) ->
  exists t' emb',
    conv_step self ei (Z.of_nat i) (Some t, emb) = FOk (Some t', Some emb') /\
    size0 t' = n /\ size1 t' = hidden /\ convolution_output self ei n hidden i emb'.
Proof.
  intros Hc Hcon Hrelu Hdrop Ht0 Ht Hei. unfold conv_step.
  rewrite Nat2Z.id, Hc. simpl.
  destruct (Hcon t ei Ht) as (t1 & Ht1 & H0 & H1); [now rewrite Ht0|].
  rewrite Ht1. eexists. eexists. split; [reflexivity|].
  destruct (Hdrop (doutrate self) (training self) (relu t1)) as [Hd0 Hd1].
  destruct (Hrelu t1) as [Hr0 Hr1].
  split; [congruence|]. split; [congruence|].
  exists c, t. split; [exact Hc|]. split; [exact Ht1|]. split; congruence.
Qed.

Lemma conv_loop_emb : forall cs k t emb,
  (forall j c, nth_error cs j = Some c ->
               nth_error (convs self) (S k + j) = Some c) ->
  Forall (fun c => conv_contract c hidden hidden) cs ->
  keeps_shape relu -> (forall p b, keeps_shape (dropout p b)) ->
  size0 t = n -> size1 t = hidden ->
  (forall e, In e ei -> fst e < n /\ snd e < n) ->
  convolution_output self ei n hidden k emb ->
  exists t' emb',
    conv_loop self ei (map Z.of_nat (seq (S k) (length cs))) (Some t, Some emb)
      = FOk (Some t', Some emb') /\
    size0 t' = n /\ size1 t' = hidden /\ convolution_output self ei n hidden (k + length cs) emb'.
Proof.
  induction cs as [|c cs IH]; intros k t emb Hnth Hall Hrelu Hdrop Ht0 Ht1 Hei Hemb.
  - exists t, emb. simpl. rewrite Nat.add_0_r. now repeat split.
  - apply Forall_cons_iff in Hall as [Hc Hcs].
    destruct (conv_step_emb (S k) c hidden t (Some emb))
      as (t1 & e1 & Hstep & H0 & H1 & He1); try assumption.
    { specialize (Hnth 0 c eq_refl). now rewrite Nat.add_0_r in Hnth. }
    destruct (IH (S k) t1 e1) as (t2 & e2 & Hloop & H20 & H21 & He2); try assumption.
    { intros j c' Hj. specialize (Hnth (S j) c' Hj).
      now replace (S (S k) + j) with (S k + S j) by lia. }
    exists t2, e2.
    change (length (c :: cs)) with (S (length cs)).
    cbn [seq map conv_loop]. rewrite Hstep, Hloop. split; [reflexivity|].
    split; [exact H20|]. split; [exact H21|].
    now replace (k + S (length cs)) with (S k + length cs) by lia.
Qed.

End GCN_embedding.

Section GCN_embedding_shape.
Import Torch GNN.
Context {A : Type} `{Scalar A} `{!Framework A}.

(** Under the contract of the layers the stack returns, and the embedding
    has a row for every node and [hidden] columns. *)
Lemma layer_stack_shape (self : GCN A) (d : Data A) (input_dim hidden : nat)
  (t : Tensor A) :
  GCN_contract self input_dim hidden ->
  size1 t = input_dim ->
  (forall e, In e (edge_index d) -> fst e < size0 t /\ snd e < size0 t) ->
  exists emb logp,
    layer_stack self d (Some t) = FOk (emb, logp) /\
    size0 emb = size0 t /\ size1 emb = hidden.
Proof.
  intros [(c0 & cs & Hconvs & Hc0 & Hcs & Hnum) Hrelu Hdrop Hpool Hpost] Ht Hei.
  unfold layer_stack. rewrite Hnum, range_0_of_nat.
  change (seq 0 (S (length cs))) with (0 :: seq 1 (length cs)).
  cbn [map conv_loop].
  destruct (conv_step_emb self (edge_index d) (size0 t) hidden 0 c0 input_dim t None)
    as (t1 & e1 & Hstep & H0 & H1 & He1); try assumption; try reflexivity.
  { now rewrite Hconvs. }
  cbn [Z.of_nat] in Hstep. rewrite Hstep.
  destruct (conv_loop_emb self (edge_index d) (size0 t) hidden cs 0 t1 e1)
    as (t2 & e2 & Hloop & H20 & H21 & (c & xin & Hc & Hrun & He0 & He1'));
    try assumption.
  { intros k c Hk. now rewrite Hconvs. }
  rewrite Hloop.
  destruct (String.eqb (task self) "graph").
  - destruct (Hpool t2 (batch d) H21) as (t3 & Ht3 & H31). rewrite Ht3.
    destruct (Hpost (training self) t3 H31) as (t4 & Ht4). rewrite Ht4.
    exists e2, (log_softmax t4). now repeat split.
  - destruct (Hpost (training self) t2 H21) as (t4 & Ht4). rewrite Ht4.
    exists e2, (log_softmax t4). now repeat split.
Qed.

End GCN_embedding_shape.

Section GCN_claims.
Import Torch GNN.
Context {A : Type} `{Scalar A} `{!Framework A}.

(** C10.  On a graph without node features (no feature matrix, or one with
    no column) [forward] puts the all-ones matrix of shape
    [(num_nodes, 1)] in the place of [data.x] and goes through the normal
    layer stack on it: what it returns is what the layers, the pooling of
    a graph task, the head and the log-softmax make of that matrix, and on
    a model built for one input feature it does return, with an embedding
    of a row per node.  On a graph with at least one feature the stack is
    run on [data.x] itself. *)
Theorem GCN_forward_constant_feature_when_none (self : GCN A) (d : Data A) :
  (num_node_features d = 0 ->
     (forall emb logp,
        GCN_forward self d = FOk (emb, logp) <->
        normal_layer_stack self d (ones (num_nodes d) 1) emb logp) /\
     (forall hidden,
        GCN_contract self 1 hidden ->
        (forall e, In e (edge_index d) -> fst e < num_nodes d /\ snd e < num_nodes d) ->
        exists emb logp,
          GCN_forward self d = FOk (emb, logp) /\
          size0 emb = num_nodes d /\ size1 emb = hidden)) /\
  (0 < num_node_features d ->
     exists t, x d = Some t /\ size1 t = num_node_features d /\
       forall emb logp,
         GCN_forward self d = FOk (emb, logp) <->
         normal_layer_stack self d t emb logp).
Proof.
  split.
  - intros H0. unfold GCN_forward. rewrite H0. cbn [Nat.eqb]. split.
    + intros emb logp. apply layer_stack_normal.
    + intros hidden Hcontract Hedges.
      apply (layer_stack_shape self d 1 hidden (ones (num_nodes d) 1));
        [assumption|reflexivity|exact Hedges].
  - intros Hpos. unfold GCN_forward, num_node_features in *.
    destruct (x d) as [t|]; [|lia].
    exists t. split; [reflexivity|]. split; [reflexivity|].
    intros emb logp.
    destruct (size1 t =? 0) eqn:Hz; [apply Nat.eqb_eq in Hz; lia|].
    apply layer_stack_normal.
Qed.

End GCN_claims.

Section GCN_examples.
Import Torch GNN Sample.

Lemma keep_layer_Ok n_in n_out (t : Tensor Z) :
  size1 t = n_in ->
  exists t', keep_layer n_in n_out t = FOk t' /\ size0 t' = size0 t /\ size1 t' = n_out.
Proof.
  intros Ht. unfold keep_layer. rewrite Ht, Nat.eqb_refl.
  eexists. split; [reflexivity|]. now split.
Qed.

Lemma sample_gcn_contract input_dim conv_layers :
  (0 <= conv_layers)%Z ->
  GCN_contract (GCN_init input_dim 32 2 conv_layers (1 # 4) "node") input_dim 32.
Proof.
  intros Hnn. apply GCN_init_contract; try assumption.
  - intros n m t ei Ht _. apply keep_layer_Ok. exact Ht.
  - intros t. now split.
  - intros p b t. now split.
  - intros t b Ht. exists t. now split.
  - intros b t Ht. destruct (keep_layer_Ok 32 2 t Ht) as (t' & Ht' & _). now exists t'.
Qed.

Lemma sample_edges_within :
  forall e, In e (edge_index featureless) -> fst e < 3 /\ snd e < 3.
Proof.
  intros e He. simpl in He.
  repeat (destruct He as [<-|He]; [simpl; lia|]). destruct He.
Qed.

(** The graph without features runs through the model built for it. *)
Example GCN_forward_featureless_runs :
  match GCN_forward gcn_for_featureless featureless with
  | FOk (emb, logp) => to_rows logp = [[1; 1]; [1; 1]; [1; 1]]%Z
  | FErr _ => False
  end.
Proof. vm_compute. reflexivity. Qed.

(** The graph with two features runs through the model built for it. *)
Example GCN_forward_featured_runs :
  match GCN_forward gcn_for_scored scored with
  | FOk (emb, logp) => to_rows logp = [[0; 5]; [3; 1]; [0; 2]]%Z
  | FErr _ => False
  end.
Proof. vm_compute. reflexivity. Qed.

Lemma GCN_forward_constant_feature_witness :
  (exists emb logp,
     GCN_forward gcn_for_featureless featureless = FOk (emb, logp) /\
     size0 emb = 3 /\ size1 emb = 32 /\
     normal_layer_stack gcn_for_featureless featureless (ones 3 1) emb logp) /\
  (exists emb logp,
     GCN_forward gcn_for_scored scored = FOk (emb, logp) /\
     normal_layer_stack gcn_for_scored scored
       (of_rows 2 [[0; 5]; [3; 1]; [0; 2]]%Z) emb logp).
Proof.
  split.
  - destruct (GCN_forward_constant_feature_when_none gcn_for_featureless featureless)
      as [Hnone _].
    destruct (Hnone eq_refl) as [Hiff Hruns].
    destruct (Hruns 32) as (emb & logp & Hrun & H0 & H1);
      [apply (sample_gcn_contract 1 6); lia|exact sample_edges_within|].
    exists emb, logp. split; [exact Hrun|]. split; [exact H0|]. split; [exact H1|].
    now apply Hiff.
  - destruct (GCN_forward_constant_feature_when_none gcn_for_scored scored)
      as [_ Hsome].
    destruct Hsome as (t & Ht & _ & Hiff); [vm_compute; lia|].
    inversion Ht; subst t.
    destruct (GCN_forward gcn_for_scored scored) as [[emb logp]|e] eqn:Hrun;
      [|vm_compute in Hrun; discriminate].
    exists emb, logp. split; [reflexivity|]. now apply Hiff.
Defined.

End GCN_examples.

(** ** Masked accuracy *)

Section Masks.
Import Torch.

Lemma count_eq_map {I} (f g : I -> nat) (l : list I) :
  count_eq (map f l) (map g l) = length (List.filter (fun i => f i =? g i) l).
Proof.
  induction l as [|i l IH]; simpl; [reflexivity|].
  rewrite IH. destruct (f i =? g i); reflexivity.
Qed.

Lemma map_nth_seq {X Y} (f : X -> Y) (l : list X) (d : X) :
  map (fun k => f (nth k l d)) (seq 0 (length l)) = map f l.
Proof.
  induction l as [|a l IH]; simpl; [reflexivity|].
  f_equal. rewrite <- seq_shift, map_map. exact IH.
Qed.

Lemma mask_positions_from_lt k mask i :
  In i (mask_positions_from k mask) -> k <= i < k + length mask.
Proof.
  revert k. induction mask as [|b mask IH]; intros k; simpl; [tauto|].
  destruct b; simpl.
  - intros [<-|Hi]; [lia|]. apply IH in Hi. lia.
  - intros Hi. apply IH in Hi. lia.
Qed.

Lemma mask_positions_lt mask i : In i (mask_positions mask) -> i < length mask.
Proof. intros Hi. apply mask_positions_from_lt in Hi. lia. Qed.

Context {A : Type}.

Lemma to_rows_select_rows (t : Tensor A) (idx : list nat) :
  to_rows (select_rows t idx) = map (row t) idx.
Proof.
  unfold to_rows, select_rows, row. simpl.
  exact (map_nth_seq (fun i => map (item t i) (seq 0 (size1 t))) idx 0).
Qed.

Lemma nth_argmax_rows (argmax : list A -> nat) (t : Tensor A) i :
  i < size0 t -> nth i (map argmax (to_rows t)) 0 = argmax (row t i).
Proof.
  intros Hi. unfold to_rows. rewrite map_map.
  rewrite (nth_indep _ 0 (argmax (row t 0)))
    by (now rewrite length_map, length_seq).
  rewrite (map_nth (fun k => argmax (row t k)) (seq 0 (size0 t)) 0 i).
  now rewrite seq_nth.
Qed.

End Masks.

Section GGNN_accuracy.
Import Torch GGNN_Train.
Context {A : Type} `{Scalar A} `{!Framework A}.

(** The accuracy that [train] computes for a mask: the number of nodes of
    the mask whose most likely class is their label, over the number of
    nodes of the mask. *)
Lemma accuracy_spec {S} (logits : Tensor A) (d : Data A) (mask : list bool)
  (s s' : S) (acc : Q) :
  accuracy logits d mask s = Ok (acc, s') ->
  s' = s /\
  mask_sum mask <> 0 /\
  acc = Qmake
          (Z.of_nat (length (List.filter (fun i => argmax (row logits i) =? nth i (y d) 0)
                               (mask_positions mask))))
          (Pos.of_nat (mask_sum mask)).
Proof.
  unfold accuracy. intros Ha.
  apply bind_inv_Ok in Ha as (sel & s1 & Hsel & Ha).
  apply bind_inv_Ok in Ha as (lab & s2 & Hlab & Ha).
  apply bind_inv_Ok in Ha as (correct & s3 & Hcorrect & Ha).
  unfold index_mask in Hsel. destruct (length mask =? size0 logits); [|discriminate].
  unfold index_mask1 in Hlab. destruct (length mask =? length (y d)); [|discriminate].
  simpl in Hsel, Hlab. inversion Hsel; subst. inversion Hlab; subst. clear Hsel Hlab.
  rewrite to_rows_select_rows, map_map in Hcorrect.
  unfold eq_sum in Hcorrect. rewrite !length_map, Nat.eqb_refl in Hcorrect.
  simpl in Hcorrect. inversion Hcorrect; subst. clear Hcorrect.
  unfold py_div in Ha. destruct (mask_sum mask =? 0) eqn:Hz; [discriminate|].
  simpl in Ha. inversion Ha; subst. apply Nat.eqb_neq in Hz.
  split; [reflexivity|]. split; [exact Hz|].
  now rewrite count_eq_map.
Qed.

End GGNN_accuracy.

Section GNN_test.
Import Torch GNN.
Context {A : Type} `{Scalar A} `{!Framework A}.

(** The number of correct predictions that one batch adds, for the mask
    that [is_validation] selects. *)
Lemma test_batch_spec {S} (self : GCN A) (is_validation : bool) (d : Data A)
  (correct correct' : nat) (s s' : S) :
  String.eqb (task self) "node" = true ->
  test_batch self is_validation d correct s = Ok (correct', s') ->
  s' = s /\
  exists out, GCN_forward self d = FOk out /\
    correct' = correct
      + length (List.filter (fun i => argmax (row (snd out) i) =? nth i (y d) 0)
                  (mask_positions (if is_validation then val_mask d else test_mask d))).
Proof.
  intros Hnode Ht. unfold test_batch in Ht. rewrite Hnode in Ht.
  set (mask := if is_validation then val_mask d else test_mask d) in *.
  apply bind_inv_Ok in Ht as (out & s1 & Hout & Ht).
  apply bind_inv_Ok in Ht as (sel & s2 & Hsel & Ht).
  apply bind_inv_Ok in Ht as (c & s3 & Hc & Ht).
  apply bind_inv_Ok in Hsel as (pred & s4 & Hpred & Hsel).
  apply bind_inv_Ok in Hsel as (label & s5 & Hlabel & Hsel).
  unfold ret in Ht, Hsel. inversion Ht; subst. inversion Hsel; subst.
  clear Ht Hsel. simpl in Hc.
  destruct (GCN_forward self d) as [o|] eqn:Hfwd; simpl in Hout; [|discriminate].
  inversion Hout; subst. clear Hout.
  unfold index_mask1 in Hpred, Hlabel.
  destruct (length mask =? length (map argmax (to_rows (snd out)))) eqn:Hlen;
    [|discriminate].
  destruct (length mask =? length (y d)); [|discriminate].
  simpl in Hpred, Hlabel. inversion Hpred; subst. inversion Hlabel; subst.
  clear Hpred Hlabel.
  unfold eq_sum in Hc. rewrite !length_map, Nat.eqb_refl in Hc. simpl in Hc.
  inversion Hc; subst. clear Hc.
  split; [reflexivity|]. exists out. split; [reflexivity|]. f_equal.
  rewrite count_eq_map. f_equal.
  apply Nat.eqb_eq in Hlen. unfold to_rows in Hlen.
  rewrite !length_map, length_seq in Hlen.
  apply List.filter_ext_in. intros i Hi. apply mask_positions_lt in Hi.
  rewrite nth_argmax_rows by lia. reflexivity.
Qed.

Lemma test_loop_spec {S} (self : GCN A) (is_validation : bool) (ds : list (Data A)) :
  String.eqb (task self) "node" = true ->
  forall (correct correct' : nat) (s s' : S),
  for_each ds (test_batch self is_validation) correct s = Ok (correct', s') ->
  s' = s /\
  correct' = fold_left
    (fun n d =>
       match GCN_forward self d with
       | FOk out =>
           n + length (List.filter
                         (fun i => argmax (row (snd out) i) =? nth i (y d) 0)
                         (mask_positions
                            ((fun d => if is_validation then val_mask d
                                       else test_mask d) d)))
       | FErr _ => n
       end) ds correct.
Proof.
  intros Hnode. induction ds as [|d ds IH]; intros correct correct' s s' Hl.
  - simpl in Hl. unfold ret in Hl. inversion Hl. now split.
  - simpl in Hl. apply bind_inv_Ok in Hl as (c1 & s1 & Hb & Hl).
    apply test_batch_spec in Hb as (-> & out & Hout & ->); [|exact Hnode].
    apply IH in Hl as (-> & ->). split; [reflexivity|].
    simpl. now rewrite Hout.
Qed.

(** What [test] returns on a node task: the correct predictions among the
    nodes of the mask that [is_validation] selects, over the number of
    nodes of the test mask. *)
Lemma test_spec {S} (loader : DataLoader A) (self : GCN A) (is_validation : bool)
  (s s' : S) (acc : Q) (m : GCN A) :
  String.eqb (task self) "node" = true ->
  test loader self is_validation s = Ok ((acc, m), s') ->
  s' = s /\ m = eval_mode self /\
  selected_total test_mask (graphs (dataset loader)) <> 0 /\
  acc = Qmake
          (Z.of_nat (selected_correct (eval_mode self)
                       (fun d => if is_validation then val_mask d else test_mask d)
                       (batches loader)))
          (Pos.of_nat (selected_total test_mask (graphs (dataset loader)))).
Proof.
  intros Hnode Ht. unfold test in Ht.
  apply bind_inv_Ok in Ht as (correct & s1 & Hloop & Ht).
  apply test_loop_spec in Hloop as (-> & ->); [|exact Hnode].
  apply bind_inv_Ok in Ht as (q & s2 & Hq & Ht).
  unfold ret in Ht. inversion Ht; subst. clear Ht.
  assert (Hg : String.eqb (task (eval_mode self)) "graph" = false).
  { simpl. apply String.eqb_eq in Hnode. now rewrite Hnode. }
  rewrite Hg in Hq. unfold py_div in Hq.
  fold (selected_total test_mask (graphs (dataset loader))) in Hq.
  destruct (selected_total test_mask (graphs (dataset loader)) =? 0) eqn:Hz;
    [discriminate|].
  simpl in Hq. inversion Hq; subst. apply Nat.eqb_neq in Hz.
  split; [reflexivity|]. split; [reflexivity|]. split; [exact Hz|]. reflexivity.
Qed.

End GNN_test.

Section GNN_test_examples.
Import Torch GNN Sample.

(** C4, on the code.  Every node of the graph [scored] is predicted
    correctly, one node is a validation node and two are test nodes: the
    accuracy over the validation nodes is 1 / 1, and
    [test(loader, model, is_validation=True)] returns 1 / 2, the correct
    validation nodes over the number of test nodes. *)
Theorem test_validation_divides_by_test_total :
  test scored_loader gcn_for_scored true tt
    = Ok ((Qmake 1 2, eval_mode gcn_for_scored), tt) /\
  selected_correct (eval_mode gcn_for_scored) val_mask [scored] = 1 /\
  selected_total val_mask [scored] = 1 /\
  selected_total test_mask [scored] = 2.
Proof. vm_compute. repeat split. Qed.

(** With [is_validation=False] the masks agree and the accuracy is that of
    the test nodes. *)
Example test_on_test_mask :
  test scored_loader gcn_for_scored false tt
    = Ok ((Qmake 2 2, eval_mode gcn_for_scored), tt).
Proof. vm_compute. reflexivity. Qed.

End GNN_test_examples.

(** ** train *)

Section Effects.

Lemma lift_inv_Ok {S X} (r : fresult X) (s s' : S) x :
  lift r s = Ok (x, s') -> r = FOk x /\ s' = s.
Proof. destruct r; simpl; intros Hr; inversion Hr; now split. Qed.

Lemma run_pure_inv_Ok {S L X} (m : M (list L) X) (s s' : S) x :
  run_pure m s = Ok (x, s') -> s' = s /\ exists log, m [] = Ok (x, log).
Proof.
  unfold run_pure, run_from. destruct (m []) as [[x' log]|e]; [|discriminate].
  intros Hr. inversion Hr; subst. split; [reflexivity|]. now exists log.
Qed.

Lemma print_Ok {V O} (o : O) (w : World V O) :
  print o w = Ok (tt, mkWorld (fs w) (stdout w ++ [o])).
Proof. reflexivity. Qed.

(** A loop establishes, for the prefix of the indices it has gone through,
    whatever every pass of its body carries one index further. *)
Lemma for_each_steps {S I X} (Q : list I -> X -> S -> Prop)
  (body : I -> X -> M S X) :
  (forall pre i x s x' s',
     Q pre x s -> body i x s = Ok (x', s') -> Q (pre ++ [i]) x' s') ->
  forall l pre x s x' s',
    Q pre x s -> for_each l body x s = Ok (x', s') -> Q (pre ++ l) x' s'.
Proof.
  intros Hstep. induction l as [|i l IH]; intros pre x s x' s' HQ Hl.
  - simpl in Hl. unfold ret in Hl. inversion Hl; subst. now rewrite app_nil_r.
  - simpl in Hl. apply bind_inv_Ok in Hl as (x1 & s1 & Hb & Hl).
    replace (pre ++ i :: l) with ((pre ++ [i]) ++ l)
      by (now rewrite <- app_assoc).
    eapply IH; [|exact Hl]. eapply Hstep; eassumption.
Qed.

(** A loop keeps what every pass of its body keeps. *)
Lemma for_each_keeps {S I X} (P : X -> S -> Prop) (body : I -> X -> M S X) :
  (forall i x s x' s', P x s -> body i x s = Ok (x', s') -> P x' s') ->
  forall l x s x' s',
    P x s -> for_each l body x s = Ok (x', s') -> P x' s'.
Proof.
  intros Hstep l x s x' s' HP Hl.
  apply (for_each_steps (fun _ => P) body) with (l := l) (pre := []) (x := x) (s := s);
    [|exact HP|exact Hl].
  intros pre i x0 s0 x1 s1. apply Hstep.
Qed.

End Effects.

Section Train_facts.
Import Torch GGNN_Train.
Context {A : Type} `{Scalar A} `{!Framework A} {V : Type} `{!Telemetry V}.

Lemma epochs_processed_app (l l' : list output) :
  epochs_processed (l ++ l') = epochs_processed l ++ epochs_processed l'.
Proof. unfold epochs_processed. apply flat_map_app. Qed.

Lemma accuracy_frame {S} (logits : Tensor A) (d : Data A) mask (s s' : S) acc :
  accuracy logits d mask s = Ok (acc, s') -> s' = s.
Proof. intros Ha. now apply accuracy_spec in Ha as [-> _]. Qed.

(** A training step touches neither the files nor the output, keeps the
    dictionary and the shape of the gated layer. *)
Lemma train_batch_frame (data b : Data A) (st st' : TrainState A V) (w w' : World V output) :
  train_batch data b st w = Ok (st', w') ->
  w' = w /\ requirements st' = requirements st /\
  num_layers (conv (model st')) = num_layers (conv (model st)) /\
  out_channels (conv (model st')) = out_channels (conv (model st)).
Proof.
  unfold train_batch. intros Ht.
  apply bind_inv_Ok in Ht as (out & w1 & Hout & Ht).
  apply run_pure_inv_Ok in Hout as [-> _].
  apply bind_inv_Ok in Ht as (pred & w2 & Hpred & Ht).
  apply lift_inv_Ok in Hpred as [_ ->].
  apply bind_inv_Ok in Ht as (label & w3 & Hlabel & Ht).
  apply lift_inv_Ok in Hlabel as [_ ->].
  unfold ret in Ht. inversion Ht; subst. now repeat split.
Qed.

Lemma eval_batch_frame (data d : Data A) (st st' : TrainState A V) (w w' : World V output) :
  eval_batch data d st w = Ok (st', w') ->
  w' = w /\ requirements st' = requirements st /\
  conv (model st') = conv (model st).
Proof.
  unfold eval_batch. intros Ht.
  apply bind_inv_Ok in Ht as (out & w1 & Hout & Ht).
  apply run_pure_inv_Ok in Hout as [-> _].
  apply bind_inv_Ok in Ht as (a1 & w2 & Ha1 & Ht). apply accuracy_frame in Ha1 as ->.
  apply bind_inv_Ok in Ht as (a2 & w3 & Ha2 & Ht). apply accuracy_frame in Ha2 as ->.
  apply bind_inv_Ok in Ht as (a3 & w4 & Ha3 & Ht). apply accuracy_frame in Ha3 as ->.
  unfold ret in Ht. inversion Ht; subst. now repeat split.
Qed.

(** One epoch: a "Processing Epoch" line, possibly a report, one call of
    [computeStats]; the files are not touched. *)
Lemma train_epoch_frame (data : Data A) (loader : DataLoader A) (epoch : Z)
  (st st' : TrainState A V) (w w' : World V output) :
  train_epoch data loader epoch st w = Ok (st', w') ->
  fs w' = fs w /\
  epochs_processed (stdout w') = epochs_processed (stdout w) ++ [epoch] /\
  requirements st' = computeStats (epoch - 1) cpu_count (requirements st) /\
  num_layers (conv (model st')) = num_layers (conv (model st)) /\
  out_channels (conv (model st')) = out_channels (conv (model st)).
Proof.
  unfold train_epoch. intros Ht.
  apply bind_inv_Ok in Ht as ([] & w1 & Hp & Ht).
  rewrite print_Ok in Hp. inversion Hp; subst w1. clear Hp.
  apply bind_inv_Ok in Ht as (st1 & w2 & Hloop & Ht).
  apply (for_each_keeps
           (fun (s : TrainState A V) (v : World V output) =>
              v = mkWorld (fs w) (stdout w ++ [OutProcessingEpoch epoch]) /\
              requirements s = computeStats (epoch - 1) cpu_count (requirements st) /\
              num_layers (conv (model s)) = num_layers (conv (model st)) /\
              out_channels (conv (model s)) = out_channels (conv (model st))))
    in Hloop; [| |now repeat split].
  2:{ intros b s v s1 v1 (-> & Hr & Hn & Ho) Hb.
      apply train_batch_frame in Hb as (-> & Hr' & Hn' & Ho').
      repeat split; congruence. }
  destruct Hloop as (-> & Hr1 & Hn1 & Ho1).
  apply bind_inv_Ok in Ht as (st2 & w3 & Hdiv & Ht).
  assert (Hst2 : w3 = mkWorld (fs w) (stdout w ++ [OutProcessingEpoch epoch]) /\
                 requirements st2 = requirements st1 /\
                 conv (model st2) = conv (model st1)).
  { destruct (length (graphs (dataset loader)) =? 0); [discriminate|].
    unfold ret in Hdiv. inversion Hdiv; subst. now repeat split. }
  destruct Hst2 as (-> & Hr2 & Hc2). clear Hdiv.
  assert (Hend : epochs_processed (stdout w ++ [OutProcessingEpoch epoch])
                 = epochs_processed (stdout w) ++ [epoch])
    by (now rewrite epochs_processed_app).
  destruct (epoch mod 10 =? 0)%Z.
  - apply bind_inv_Ok in Ht as (st3 & w4 & Heval & Ht).
    apply (for_each_keeps
             (fun (s : TrainState A V) (v : World V output) =>
                v = mkWorld (fs w) (stdout w ++ [OutProcessingEpoch epoch]) /\
                requirements s = requirements st2 /\
                conv (model s) = conv (model st2)))
      in Heval; [| |now repeat split].
    2:{ intros b s v s1 v1 (-> & Hr & Hc) Hb.
        apply eval_batch_frame in Hb as (-> & Hr' & Hc').
        repeat split; congruence. }
    destruct Heval as (-> & Hr3 & Hc3).
    destruct (accs st3) as [[[a1 a2] a3]|]; [|discriminate].
    apply bind_inv_Ok in Ht as ([] & w5 & Hp & Ht).
    rewrite print_Ok in Hp. inversion Hp; subst w5. clear Hp.
    unfold ret in Ht. inversion Ht; subst. simpl.
    split; [reflexivity|]. split.
    + rewrite epochs_processed_app, Hend. simpl. now rewrite app_nil_r.
    + rewrite Hr3, Hr2, Hr1, Hc3, Hc2. now repeat split.
  - unfold ret in Ht. inversion Ht; subst. simpl.
    split; [reflexivity|]. split; [exact Hend|].
    rewrite Hr2, Hr1, Hc2. now repeat split.
Qed.

Lemma GGNN_init_inv (num_classes in_channels : nat) (num_conv : Z)
  (m0 : GGNN A) (w w1 : World V output) :
  GGNN_init num_classes in_channels (Some 32) num_conv 32 32 3 w = Ok (m0, w1) ->
  fs w1 = fs w /\
  epochs_processed (stdout w1) = epochs_processed (stdout w) /\
  (0 <= num_conv)%Z /\
  num_layers (conv m0) = Z.to_nat num_conv /\
  out_channels (conv m0) = 32.
Proof.
  unfold GGNN_init. intros Hi.
  apply bind_inv_Ok in Hi as (e & w2 & He & Hi).
  assert (Hw2 : fs w2 = fs w /\
                epochs_processed (stdout w2) = epochs_processed (stdout w)).
  { simpl in He. destruct (in_channels =? 32).
    - unfold ret in He. inversion He; subst. now split.
    - apply bind_inv_Ok in He as ([] & w3 & Hp & He).
      rewrite print_Ok in Hp. inversion Hp; subst w3.
      unfold ret in He. inversion He; subst. simpl. split; [reflexivity|].
      rewrite epochs_processed_app. simpl. now rewrite app_nil_r. }
  destruct Hw2 as [Hfs Hout].
  apply bind_inv_Ok in Hi as (c & w3 & Hc & Hi).
  apply lift_inv_Ok in Hc as [Hc ->].
  unfold GatedGraphConv_init in Hc. simpl in Hc.
  destruct (num_conv <? 0)%Z eqn:Hneg; [discriminate|].
  inversion Hc; subst c. clear Hc. apply Z.ltb_ge in Hneg.
  unfold ret in Hi. inversion Hi; subst. simpl. now repeat split.
Qed.

(** [train] gets past the loading of the dictionary only if there is no
    file, or a file that holds a JSON object. *)
Lemma load_requirements_file (d : gmap string V) (w w1 : World V output) :
  load_requirements w = Ok (d, w1) ->
  (fs w !! file_path = None /\ d = ∅) \/
  (fs w !! file_path = Some (JsonObject d)).
Proof.
  unfold load_requirements. intros Hl.
  apply bind_inv_Ok in Hl as (w0 & w2 & Hg & Hl).
  unfold get in Hg. inversion Hg; subst w0 w2. clear Hg.
  destruct (fs w !! file_path) as [f|].
  - apply bind_inv_Ok in Hl as ([] & w3 & Hp & Hl).
    destruct f as [d'| | |]; try discriminate.
    unfold ret in Hl. inversion Hl; subst. now right.
  - apply bind_inv_Ok in Hl as ([] & w3 & Hp & Hl).
    unfold ret in Hl. inversion Hl; subst. now left.
Qed.

Lemma load_requirements_inv (d : gmap string V) (w w1 : World V output) :
  load_requirements w = Ok (d, w1) ->
  fs w1 = fs w /\
  epochs_processed (stdout w1) = epochs_processed (stdout w) /\
  d = initial_requirements (fs w).
Proof.
  unfold load_requirements, initial_requirements. intros Hl.
  apply bind_inv_Ok in Hl as (w0 & w2 & Hg & Hl).
  unfold get in Hg. inversion Hg; subst w0 w2. clear Hg.
  destruct (fs w !! file_path) as [f|].
  - apply bind_inv_Ok in Hl as ([] & w3 & Hp & Hl).
    rewrite print_Ok in Hp. inversion Hp; subst w3. clear Hp.
    destruct f as [d'| | |]; try discriminate.
    unfold ret in Hl. inversion Hl; subst. simpl. split; [reflexivity|].
    split; [|reflexivity].
    rewrite epochs_processed_app. simpl. now rewrite app_nil_r.
  - apply bind_inv_Ok in Hl as ([] & w3 & Hp & Hl).
    rewrite print_Ok in Hp. inversion Hp; subst w3. clear Hp.
    unfold ret in Hl. inversion Hl; subst. simpl. split; [reflexivity|].
    split; [|reflexivity].
    rewrite epochs_processed_app. simpl. now rewrite app_nil_r.
Qed.

(** A run of [train] that completes: the epochs it went through, the one
    file it wrote, and the gated layer of the model it returns. *)
Lemma train_run (dataset0 : Dataset A) (data : Data A) (ds : Dataset A)
  (epochs num_conv : Z)
  (m : GGNN A) (w w' : World V output) :
  train dataset0 data ds epochs num_conv w = Ok (m, w') ->
  epochs_processed (stdout w')
    = epochs_processed (stdout w) ++ range 1 (epochs + 1) /\
  fs w' = <[file_path :=
              JsonObject (final_requirements (initial_requirements (fs w)) epochs)]>
            (fs w) /\
  (0 <= num_conv)%Z /\
  num_layers (conv m) = Z.to_nat num_conv /\
  out_channels (conv m) = 32 /\
  ((fs w !! file_path = None /\ initial_requirements (fs w) = ∅) \/
   fs w !! file_path = Some (JsonObject (initial_requirements (fs w)))).
Proof.
  unfold train. intros Ht.
  apply bind_inv_Ok in Ht as (loader & w0 & Hloader & Ht).
  apply lift_inv_Ok in Hloader as [_ ->].
  apply bind_inv_Ok in Ht as (in_channels & w1 & Hin & Ht).
  apply lift_inv_Ok in Hin as [_ ->].
  apply bind_inv_Ok in Ht as (m0 & w2 & Hinit & Ht).
  apply GGNN_init_inv in Hinit as (Hfs2 & Hout2 & Hnn & Hn0 & Ho0).
  apply bind_inv_Ok in Ht as (reqs & w3 & Hload & Ht).
  pose proof (load_requirements_file _ _ _ Hload) as Hfile.
  apply load_requirements_inv in Hload as (Hfs3 & Hout3 & ->).
  rewrite Hfs2 in Hfile.
  apply bind_inv_Ok in Ht as ([] & w4 & Hp & Ht).
  rewrite print_Ok in Hp. inversion Hp; subst w4. clear Hp.
  apply bind_inv_Ok in Ht as (st & w5 & Hloop & Ht).
  set (Q := fun (pre : list Z) (s : TrainState A V) (v : World V output) =>
              fs v = fs w /\
              epochs_processed (stdout v) = epochs_processed (stdout w) ++ pre /\
              requirements s
              = fold_left (fun r e => computeStats (e - 1) cpu_count r) pre
                  (computeStats (-1) (-1) (initial_requirements (fs w))) /\
              num_layers (conv (model s)) = Z.to_nat num_conv /\
              out_channels (conv (model s)) = 32).
  assert (Hstep : forall pre e s v s1 v1,
            Q pre s v ->
            train_epoch data loader e s v = Ok (s1, v1) ->
            Q (pre ++ [e]) s1 v1).
  { intros pre e s v s1 v1 (Hf & Ho & Hr & Hn & Hc) Hb.
    apply train_epoch_frame in Hb as (Hf' & Ho' & Hr' & Hn' & Hc').
    split; [congruence|]. split; [rewrite Ho', Ho; now rewrite <- app_assoc|].
    split; [rewrite Hr', Hr, fold_left_app; reflexivity|].
    split; congruence. }
  apply (for_each_steps Q _ Hstep _ []) in Hloop.
  - simpl in Hloop. destruct Hloop as (Hfs5 & Hout5 & Hr5 & Hn5 & Ho5).
    apply bind_inv_Ok in Ht as ([] & w6 & Hp & Ht).
    rewrite print_Ok in Hp. inversion Hp; subst w6. clear Hp.
    apply bind_inv_Ok in Ht as ([] & w7 & Hp & Ht).
    rewrite print_Ok in Hp. inversion Hp; subst w7. clear Hp.
    apply bind_inv_Ok in Ht as ([] & w8 & Hw & Ht).
    unfold write_file, modify in Hw. inversion Hw; subst w8. clear Hw.
    unfold ret in Ht. inversion Ht; subst. simpl.
    split.
    + rewrite !epochs_processed_app, Hout5. simpl. now rewrite !app_nil_r.
    + split; [|now repeat split].
      rewrite Hfs5, Hr5. reflexivity.
  - unfold Q. simpl. split; [congruence|]. split.
    + rewrite epochs_processed_app, Hout3, Hout2. simpl. now rewrite !app_nil_r.
    + rewrite Hfs2. now repeat split.
Qed.

End Train_facts.

Section GGNN_main_facts.
Import Torch GGNN_Train.
Context {A : Type} `{Scalar A} `{!Framework A} {V : Type} `{!Telemetry V}.

(** The visualisation shows a plot and touches no file. *)
Lemma visualization_nodembs_frame (data : Data A) (ds : Dataset A) (m : GGNN A)
  (w w' : World V output) :
  visualization_nodembs data ds m w = Ok (tt, w') ->
  fs w' = fs w /\
  epochs_processed (stdout w') = epochs_processed (stdout w).
Proof.
  unfold visualization_nodembs. intros Hv.
  apply bind_inv_Ok in Hv as (embs & w1 & Hloop & Hv).
  apply (for_each_keeps
           (fun (_ : list (Tensor A)) (v : World V output) =>
              fs v = fs w /\
              epochs_processed (stdout v) = epochs_processed (stdout w)))
    in Hloop; [| |now split].
  2:{ intros b e v e1 v1 [Hfs Hout] Hb.
      apply bind_inv_Ok in Hb as ([] & v0 & Hp & Hb).
      rewrite print_Ok in Hp. inversion Hp; subst v0. clear Hp.
      apply bind_inv_Ok in Hb as (out & v2 & Hfwd & Hb).
      apply run_pure_inv_Ok in Hfwd as [-> _].
      destruct (forallb _ (y b)); [|discriminate].
      unfold ret in Hb. inversion Hb; subst. simpl. split; [exact Hfs|].
      rewrite epochs_processed_app, Hout. simpl. now rewrite app_nil_r. }
  destruct Hloop as [Hfs1 Hout1]. destruct embs; [discriminate|].
  rewrite print_Ok in Hv. inversion Hv; subst. simpl. split; [exact Hfs1|].
  rewrite epochs_processed_app, Hout1. simpl. now rewrite app_nil_r.
Qed.

(** The requirements file is none of the files of the data set. *)
Lemma file_path_not_dataset :
  ~ In file_path (Planetoid_paths (path_join "data" "PubMed") "PubMed").
Proof.
  vm_compute. intros Hin.
  repeat (destruct Hin as [Hin|Hin]; [discriminate|]). exact Hin.
Qed.

Lemma initial_requirements_dataset (files : gmap string (file V)) :
  initial_requirements (Planetoid_files (path_join "data" "PubMed") "PubMed" files)
  = initial_requirements files.
Proof.
  unfold initial_requirements.
  now rewrite (Planetoid_files_frame _ _ files file_path file_path_not_dataset).
Qed.

(** A run of the script that completes. *)
Lemma main_run (content : Dataset A) (argv : list string) (m : GGNN A)
  (w w' : World V output) :
  main content argv w = Ok (m, w') ->
  exists args,
    parse_args argv = FOk args /\
    epochs_processed (stdout w')
      = epochs_processed (stdout w) ++ range 1 (Namespace.epoch args + 1) /\
    fs w' = <[file_path :=
                JsonObject (final_requirements (initial_requirements (fs w))
                              (Namespace.epoch args))]>
              (Planetoid_files (path_join "data" "PubMed") "PubMed" (fs w)) /\
    (0 <= Namespace.conv args)%Z /\
    num_layers (conv m) = Z.to_nat (Namespace.conv args).
Proof.
  unfold main. intros Hm.
  apply bind_inv_Ok in Hm as (ds & w0 & Hds & Hm).
  rewrite Planetoid_Ok in Hds. inversion Hds; subst ds w0. clear Hds.
  apply bind_inv_Ok in Hm as (data & w1 & Hdata & Hm).
  apply lift_inv_Ok in Hdata as [_ ->].
  apply bind_inv_Ok in Hm as ([] & w2 & Hp & Hm).
  rewrite print_Ok in Hp. inversion Hp; subst w2. clear Hp.
  apply bind_inv_Ok in Hm as (args & w3 & Hargs & Hm).
  apply lift_inv_Ok in Hargs as [Hargs ->].
  apply bind_inv_Ok in Hm as (m1 & w4 & Htrain & Hm).
  apply train_run in Htrain as (Hout & Hfs & Hnn & Hn & _ & _).
  apply bind_inv_Ok in Hm as ([] & w5 & Hvis & Hm).
  apply visualization_nodembs_frame in Hvis as (Hfs5 & Hout5).
  unfold ret in Hm. inversion Hm; subst. clear Hm.
  exists args. split; [exact Hargs|]. simpl in Hout, Hfs.
  rewrite initial_requirements_dataset in Hfs.
  split.
  - rewrite Hout5, Hout, epochs_processed_app. simpl. now rewrite app_nil_r.
  - split; [congruence|]. now split.
Qed.

Lemma final_requirements_extends (d : gmap string V) (epochs : Z) :
  (forall e c r, r ⊆ computeStats e c r) ->
  d ⊆ final_requirements d epochs.
Proof.
  intros Hext. unfold final_requirements.
  assert (Hfold : forall l r, r ⊆ fold_left
            (fun r e => computeStats (e - 1) cpu_count r) l r).
  { induction l as [|e l IH]; intros r; simpl; [reflexivity|].
    etransitivity; [apply (Hext (e - 1)%Z cpu_count)|apply IH]. }
  etransitivity; [apply (Hext (-1)%Z (-1)%Z)|apply Hfold].
Qed.

End GGNN_main_facts.

Section Command_line.
Import GGNN_Train.

Lemma parse_args_defaults : parse_args [] = FOk (Namespace.mk 100 3).
Proof. reflexivity. Qed.

Lemma parse_args_epoch v n :
  py_int v = Some n -> parse_args ["--epoch"%string; v] = FOk (Namespace.mk n 3).
Proof. intros Hv. unfold parse_args. simpl. now rewrite Hv. Qed.

Lemma parse_args_conv v n :
  py_int v = Some n -> parse_args ["--conv"%string; v] = FOk (Namespace.mk 100 n).
Proof. intros Hv. unfold parse_args. simpl. now rewrite Hv. Qed.

Lemma parse_args_both v1 v2 n1 n2 :
  py_int v1 = Some n1 -> py_int v2 = Some n2 ->
  parse_args ["--epoch"%string; v1; "--conv"%string; v2] = FOk (Namespace.mk n1 n2).
Proof. intros Hv1 Hv2. unfold parse_args. simpl. now rewrite Hv1, Hv2. Qed.

Example py_int_examples :
  py_int "250" = Some 250%Z /\ py_int "-1" = Some (-1)%Z /\ py_int "3x" = None.
Proof. repeat split. Qed.

End Command_line.

(** ** The files a script writes *)

Section GNN_frame.
Import Torch GNN.
Context {A : Type} `{Scalar A} `{!Framework A} {V : Type}.

(** [test] leaves the world as it found it. *)
Lemma test_frame {S} (loader : DataLoader A) (self : GCN A) (v : bool) r (s s' : S) :
  test loader self v s = Ok (r, s') -> s' = s.
Proof.
  unfold test. intros Ht.
  apply bind_inv_Ok in Ht as (correct & s1 & Hloop & Ht).
  apply (for_each_keeps (fun (_ : nat) (u : S) => u = s)) in Hloop;
    [| |reflexivity].
  2:{ intros d c u c1 u1 -> Hb. unfold test_batch in Hb.
      apply bind_inv_Ok in Hb as (out & u2 & Hout & Hb).
      apply lift_inv_Ok in Hout as [_ ->].
      apply bind_inv_Ok in Hb as (sel & u3 & Hsel & Hb).
      assert (u3 = s).
      { destruct (String.eqb (task (eval_mode self)) "node").
        - apply bind_inv_Ok in Hsel as (p & u4 & Hp & Hsel).
          apply lift_inv_Ok in Hp as [_ ->].
          apply bind_inv_Ok in Hsel as (l & u5 & Hl & Hsel).
          apply lift_inv_Ok in Hl as [_ ->].
          unfold ret in Hsel. now inversion Hsel.
        - unfold ret in Hsel. now inversion Hsel. }
      subst u3.
      apply bind_inv_Ok in Hb as (c2 & u6 & Hc & Hb).
      apply lift_inv_Ok in Hc as [_ ->].
      unfold ret in Hb. now inversion Hb. }
  subst s1.
  apply bind_inv_Ok in Ht as (q & s2 & Hq & Ht).
  apply lift_inv_Ok in Hq as [_ ->].
  unfold ret in Ht. now inversion Ht.
Qed.


Lemma train_batch_frame_gnn (task : string) (b : Data A) (st st' : GCN A * A)
  (w w' : World V output) :
  GNN.train_batch task b st w = Ok (st', w') -> w' = w.
Proof.
  unfold GNN.train_batch. intros Ht.
  apply bind_inv_Ok in Ht as (out & w1 & Hout & Ht).
  apply lift_inv_Ok in Hout as [_ ->].
  apply bind_inv_Ok in Ht as (sel & w2 & Hsel & Ht).
  assert (w2 = w).
  { destruct (String.eqb task "node").
    - apply bind_inv_Ok in Hsel as (p & u4 & Hp & Hsel).
      apply lift_inv_Ok in Hp as [_ ->].
      apply bind_inv_Ok in Hsel as (l & u5 & Hl & Hsel).
      apply lift_inv_Ok in Hl as [_ ->].
      unfold ret in Hsel. now inversion Hsel.
    - unfold ret in Hsel. now inversion Hsel. }
  subst w2. unfold ret in Ht. now inversion Ht.
Qed.



(** The visualisation shows a plot and touches no file. *)
Lemma visualization_nodembs_frame_gnn (ds : Dataset A) (m : GCN A)
  (w w' : World V output) :
  GNN.visualization_nodembs ds m w = Ok (tt, w') ->
  fs w' = fs w /\ stdout w' = stdout w ++ [OutPlot].
Proof.
  unfold GNN.visualization_nodembs. intros Hvis.
  apply bind_inv_Ok in Hvis as (loader & w0 & Hl & Hvis).
  apply lift_inv_Ok in Hl as [_ ->].
  apply bind_inv_Ok in Hvis as (embs & w6 & Hloop & Hvis).
  apply (for_each_keeps (fun (_ : list (Tensor A)) (u : World V output) => u = w))
    in Hloop; [| |reflexivity].
  2:{ intros b e u e1 u1 -> Hb.
      apply bind_inv_Ok in Hb as (out & u2 & Hout & Hb).
      apply lift_inv_Ok in Hout as [_ ->].
      destruct (forallb _ (y b)); [|discriminate].
      unfold ret in Hb. now inversion Hb. }
  subst w6. destruct embs; [discriminate|].
  rewrite print_Ok in Hvis. inversion Hvis; subst w'. now split.
Qed.

(** The statements of the script, one after the other. *)
Lemma main_steps_gnn (now : string) (content : Dataset A) (m : GCN A)
  (w w' : World V output) :
  GNN.main now content w = Ok (m, w') ->
  let writer := String.append "GNN_Basics/log/" now in
  let w0 := mkWorld (<[event_path writer := EventFile []]> (fs w)) (stdout w) in
  let w1 := mkWorld (Planetoid_files "/tmp/cora" "cora" (fs w0)) (stdout w0) in
  exists w2,
    SummaryWriter writer w = Ok (writer, w0) /\
    Planetoid "/tmp/cora" "cora" content w0 = Ok (content, w1) /\
    GNN.train content "node" 6 writer 100 w1 = Ok (m, w2) /\
    GNN.visualization_nodembs content m w2 = Ok (tt, w').
Proof.
  intros Hm writer w0 w1. unfold GNN.main in Hm. fold writer in Hm.
  apply bind_inv_Ok in Hm as (wr & u0 & Hw & Hm).
  assert (Hwr : wr = writer /\ u0 = w0).
  { unfold SummaryWriter in Hw.
    apply bind_inv_Ok in Hw as ([] & u & Hwf & Hw).
    unfold write_file, modify in Hwf. inversion Hwf; subst u.
    unfold ret in Hw. inversion Hw; subst. now split. }
  destruct Hwr as [-> ->].
  apply bind_inv_Ok in Hm as (ds & u1 & Hds & Hm).
  rewrite Planetoid_Ok in Hds. inversion Hds; subst ds u1. clear Hds.
  apply bind_inv_Ok in Hm as (model & w2 & Htrain & Hm).
  apply bind_inv_Ok in Hm as ([] & w3 & Hvis & Hm).
  unfold ret in Hm. inversion Hm; subst model w3. clear Hm.
  exists w2. split; [exact Hw|]. split; [apply Planetoid_Ok|]. now split.
Qed.

(** The event file is none of the files of the data set. *)
Lemma event_path_not_dataset (now : string) :
  ~ In (event_path (String.append "GNN_Basics/log/" now))
       (Planetoid_paths "/tmp/cora" "cora").
Proof.
  unfold event_path. rewrite !append_cons. vm_compute. intros Hin.
  repeat (destruct Hin as [Hin|Hin]; [discriminate|]). exact Hin.
Qed.




End GNN_frame.

Section Script_claims.
Import Torch GGNN_Train.
Context {A : Type} `{Scalar A} `{!Framework A} {V : Type} `{!Telemetry V}.

(** C5, as the code has it.  The options [--epoch] and [--conv] are read as
    integers and default to 100 and 3.  A run of the script that completes
    goes through the epochs [1 .. epoch] in this order, that is [epoch]
    epochs when [epoch] is not negative and none when it is, and the gated
    layer of the model it returns has [conv] propagation steps. *)
Theorem main_runs_epoch_epochs_with_conv_layers :
  parse_args [] = FOk (Namespace.mk 100 3) /\
  (forall v1 v2 n1 n2, py_int v1 = Some n1 -> py_int v2 = Some n2 ->
     parse_args ["--epoch"%string; v1] = FOk (Namespace.mk n1 3) /\
     parse_args ["--conv"%string; v2] = FOk (Namespace.mk 100 n2) /\
     parse_args ["--epoch"%string; v1; "--conv"%string; v2]
     = FOk (Namespace.mk n1 n2)) /\
  (forall (ds : Dataset A) (argv : list string) (m : GGNN A)
          (w w' : World V output),
     main ds argv w = Ok (m, w') ->
     exists args,
       parse_args argv = FOk args /\
       epochs_processed (stdout w')
       = epochs_processed (stdout w) ++ range 1 (Namespace.epoch args + 1) /\
       Z.of_nat (length (range 1 (Namespace.epoch args + 1)))
       = Z.max 0 (Namespace.epoch args) /\
       ((0 <= Namespace.epoch args)%Z ->
        Z.of_nat (length (range 1 (Namespace.epoch args + 1)))
        = Namespace.epoch args) /\
       Z.of_nat (num_layers (conv m)) = Namespace.conv args).
Proof.
  split; [reflexivity|]. split.
  - intros v1 v2 n1 n2 H1 H2.
    split; [now apply parse_args_epoch|].
    split; [now apply parse_args_conv|now apply parse_args_both].
  - intros ds argv m w w' Hrun.
    destruct (main_run ds argv m w w' Hrun) as (args & Hargs & Hout & _ & Hnn & Hn).
    exists args. split; [exact Hargs|]. split; [exact Hout|].
    rewrite range_length. split; [lia|]. split; [lia|].
    rewrite Hn. lia.
Qed.

(** C6.  In a run of [train] that completes, the dictionary the loop starts
    from is the JSON object found under [file_path], or the empty
    dictionary when there is no such file; the file under [file_path] at the
    end holds that dictionary after the calls of [computeStats] of the run;
    and if [computeStats] only adds to the dictionary it is handed, every
    entry of the earlier run is in the file written. *)
Theorem train_accumulates_requirements
  (dataset0 : Dataset A) (data : Data A) (ds : Dataset A)
  (epochs num_conv : Z) (m : GGNN A)
  (w w' : World V output) :
  train dataset0 data ds epochs num_conv w = Ok (m, w') ->
  ((fs w !! file_path = None /\ initial_requirements (fs w) = ∅) \/
   fs w !! file_path = Some (JsonObject (initial_requirements (fs w)))) /\
  fs w' !! file_path
  = Some (JsonObject (final_requirements (initial_requirements (fs w)) epochs)) /\
  ((forall e c r, r ⊆ computeStats e c r) ->
   initial_requirements (fs w)
   ⊆ final_requirements (initial_requirements (fs w)) epochs).
Proof.
  intros Hrun.
  destruct (train_run dataset0 data ds epochs num_conv m w w' Hrun)
    as (_ & Hfs & _ & _ & _ & Hfile).
  split; [exact Hfile|]. split.
  - rewrite Hfs. apply lookup_insert_eq.
  - intros Hext. now apply final_requirements_extends.
Qed.

End Script_claims.

Section Frame_claims.
Import Torch.
Context {A : Type} `{Scalar A}
  `{!GGNN_Train.Framework A} `{!GNN.Framework A}
  {V : Type} `{!GGNN_Train.Telemetry V}.



End Frame_claims.

Section Script_examples.
Import Torch GGNN_Train Sample.

Example main_two_epochs_one_layer :
  match main one_graph ["--epoch"; "2"; "--conv"; "1"]%string empty_world with
  | Ok (m, w') =>
      epochs_processed (stdout w') = [1; 2]%Z /\
      num_layers (conv m) = 1 /\
      fs w' !! file_path
      = Some (JsonObject {["start" := (-1)%Z; "0" := 4%Z; "1" := 4%Z]})
  | Raise _ => False
  end.
Proof. vm_compute. repeat split. Qed.

Lemma main_runs_epoch_epochs_witness :
  exists m w',
    main one_graph ["--epoch"; "2"; "--conv"; "1"]%string empty_world = Ok (m, w') /\
    epochs_processed (stdout w') = [1; 2]%Z /\
    Z.of_nat (num_layers (conv m)) = 1%Z.
Proof.
  destruct (main one_graph ["--epoch"; "2"; "--conv"; "1"]%string empty_world)
    as [[m w']|e] eqn:Hrun; [|vm_compute in Hrun; discriminate].
  exists m, w'. split; [reflexivity|].
  destruct main_runs_epoch_epochs_with_conv_layers as (_ & _ & Hmain).
  destruct (Hmain _ _ _ _ _ Hrun) as (args & Hargs & Hout & _ & _ & Hconv).
  vm_compute in Hargs. injection Hargs as <-.
  split; [exact Hout|exact Hconv].
Defined.

(** The claim of C5 as the specification words it fails for a negative
    [--epoch]: the script runs to its end without going through any epoch,
    and no number of epochs is [-1]. *)
Lemma main_negative_epoch_counterexample :
  exists m w',
    main one_graph ["--epoch"; "-1"]%string empty_world = Ok (m, w') /\
    parse_args ["--epoch"; "-1"]%string = FOk (Namespace.mk (-1) 3) /\
    epochs_processed (stdout w') = [] /\
    Z.of_nat (length (epochs_processed (stdout w'))) <> (-1)%Z.
Proof.
  destruct (main one_graph ["--epoch"; "-1"]%string empty_world)
    as [[m w']|e] eqn:Hrun; [|vm_compute in Hrun; discriminate].
  exists m, w'. split; [reflexivity|]. split; [reflexivity|].
  destruct (main_run _ _ _ _ _ Hrun) as (args & Hargs & Hout & _).
  vm_compute in Hargs. injection Hargs as <-.
  split; [exact Hout|lia].
Qed.

Lemma sample_computeStats_extends (e c : Z) (r : gmap string Z) :
  r ⊆ computeStats e c r.
Proof. simpl. apply map_union_subseteq_l. Qed.

Lemma train_accumulates_requirements_witness :
  exists m w',
    train one_graph graph one_graph 2 1 earlier_world = Ok (m, w') /\
    fs earlier_world !! file_path = Some (JsonObject {["earlier" := 8%Z]}) /\
    fs w' !! file_path
    = Some (JsonObject (final_requirements {["earlier" := 8%Z]} 2)) /\
    ({["earlier" := 8%Z]} : gmap string Z) ⊆ final_requirements {["earlier" := 8%Z]} 2.
Proof.
  destruct (train one_graph graph one_graph 2 1 earlier_world) as [[m w']|e] eqn:Hrun;
    [|vm_compute in Hrun; discriminate].
  exists m, w'. split; [reflexivity|].
  destruct (train_accumulates_requirements _ _ _ _ _ _ _ _ Hrun)
    as (_ & Hwritten & Hkept).
  split; [reflexivity|]. split; [exact Hwritten|].
  apply Hkept. apply sample_computeStats_extends.
Defined.

Example earlier_entries_are_in_the_file :
  final_requirements ({["earlier" := 8%Z]} : gmap string Z) 2
  = {["earlier" := 8%Z; "start" := (-1)%Z; "0" := 4%Z; "1" := 4%Z]}.
Proof. vm_compute. reflexivity. Qed.



End Script_examples.

(** ** Exceptions *)

Section Raises.
Context {S : Type} (P : exn -> Prop).
Hypothesis runtime_ok : forall r, P (Runtime r).

Lemma ro_ret {X} (x : X) : raises_only (S := S) P (ret x).
Proof. intros s e He. discriminate. Qed.

Lemma ro_lift {X} (r : fresult X) : raises_only (S := S) P (lift r).
Proof. intros s e He. destruct r; simpl in He; inversion He. apply runtime_ok. Qed.

Lemma ro_raise_runtime {X} (r : runtime_error) :
  raises_only (S := S) (X := X) P (raise (Runtime r)).
Proof. intros s e He. inversion He. apply runtime_ok. Qed.

Lemma ro_modify (f : S -> S) : raises_only P (modify f).
Proof. intros s e He. discriminate. Qed.

Lemma ro_get : raises_only (S := S) P get.
Proof. intros s e He. discriminate. Qed.

Lemma ro_bind {X Y} (m : M S X) (k : X -> M S Y) :
  raises_only P m -> (forall x, raises_only P (k x)) -> raises_only P (bind m k).
Proof.
  intros Hm Hk s e He. apply bind_inv_Raise in He as [He|(x & s' & _ & He)].
  - now apply (Hm s).
  - now apply (Hk x s').
Qed.

Lemma ro_for_each {I X} (l : list I) (body : I -> X -> M S X) :
  (forall i x, raises_only P (body i x)) ->
  forall x, raises_only P (for_each l body x).
Proof.
  intros Hb. induction l as [|i l IH]; intros x; simpl.
  - apply ro_ret.
  - apply ro_bind; [apply Hb|exact IH].
Qed.

Lemma ro_run_pure {L X} (m : M (list L) X) :
  raises_only P m -> raises_only (S := S) P (run_pure m).
Proof.
  intros Hm s e He. unfold run_pure, run_from in He.
  destruct (m []) as [[x l]|e'] eqn:Hrun; [discriminate|].
  inversion He; subst. now apply (Hm []).
Qed.

End Raises.

Lemma ro_print {V O} (P : exn -> Prop) (o : O) : raises_only (S := World V O) P (print o).
Proof. apply ro_modify. Qed.

Lemma ro_write_file {V O} (P : exn -> Prop) (path : string) (f : file V) :
  raises_only (S := World V O) P (write_file path f).
Proof. apply ro_modify. Qed.

(** Decomposes a goal [raises_only P m] along the structure of [m];
    [HP] proves that runtime errors satisfy [P]. *)
Ltac raises_only_steps HP :=
  repeat first
    [ apply ro_ret
    | apply (ro_lift _ HP)
    | apply (ro_raise_runtime _ HP)
    | apply ro_print
    | apply ro_write_file
    | apply ro_modify
    | apply ro_get
    | apply ro_bind; [|intros ?]
    | apply ro_for_each; intros ? ?
    | apply ro_run_pure
    | match goal with
      | |- raises_only _ (if ?b then _ else _) => destruct b
      | |- raises_only _ (match ?u with _ => _ end) => destruct u
      end ].

Lemma not_authored_runtime r : not_authored (Runtime r).
Proof. reflexivity. Qed.

Lemma only_the_guard_runtime r : only_the_guard (Runtime r).
Proof. intros Ha. discriminate. Qed.

Section GGNN_exceptions.
Import Torch GGNN_Train.
Context {A : Type} `{Scalar A} `{!Framework A} {V : Type} `{!Telemetry V}.

Lemma forward_raises_only_guard (data : Data A) (self : GatedGraphConv A) x :
  raises_only only_the_guard (forward data self x).
Proof.
  intros log e He Ha. now apply (forward_authored_only_guard data self x log).
Qed.

Lemma GGNN_forward_raises_only_guard (data : Data A) (self : GGNN A) d :
  raises_only only_the_guard (GGNN_forward data self d).
Proof.
  unfold GGNN_forward.
  apply ro_bind; [apply (ro_lift _ only_the_guard_runtime)|intros t].
  apply ro_bind; [apply forward_raises_only_guard|intros t'].
  raises_only_steps only_the_guard_runtime.
Qed.

Lemma accuracy_raises_no_authored {S} (logits : Tensor A) d mask :
  raises_only (S := S) only_the_guard (accuracy logits d mask).
Proof. unfold accuracy. raises_only_steps only_the_guard_runtime. Qed.

Lemma train_raises_only_guard (dataset0 : Dataset A) (data : Data A) ds epochs num_conv :
  raises_only (S := World V output) only_the_guard
    (train dataset0 data ds epochs num_conv).
Proof.
  unfold train, GGNN_init, load_requirements, train_epoch, train_batch, eval_batch.
  raises_only_steps only_the_guard_runtime;
    try apply GGNN_forward_raises_only_guard;
    try apply forward_raises_only_guard;
    try apply accuracy_raises_no_authored.
Qed.

Lemma main_raises_only_guard (ds : Dataset A) argv :
  raises_only (S := World V output) only_the_guard (main ds argv).
Proof.
  unfold main, visualization_nodembs.
  raises_only_steps only_the_guard_runtime;
    try apply GGNN_forward_raises_only_guard;
    try apply forward_raises_only_guard;
    try apply train_raises_only_guard.
Qed.

End GGNN_exceptions.

Section GNN_exceptions.
Import Torch GNN.
Context {A : Type} `{Scalar A} `{!Framework A} {V : Type}.

Lemma test_raises_no_authored {S} (loader : DataLoader A) (self : GCN A) v :
  raises_only (S := S) not_authored (test loader self v).
Proof.
  unfold test, test_batch. raises_only_steps not_authored_runtime.
Qed.

Lemma main_raises_no_authored (now : string) (ds : Dataset A) :
  raises_only (S := World V output) not_authored (main now ds).
Proof.
  unfold main, SummaryWriter, train, train_epoch, train_batch, add_scalar,
    visualization_nodembs.
  raises_only_steps not_authored_runtime; try apply test_raises_no_authored.
Qed.

End GNN_exceptions.

Section Exception_claims.
Import Torch.
Context {A : Type} `{Scalar A}
  `{!GGNN_Train.Framework A} `{!GNN.Framework A}
  {V : Type} `{!GGNN_Train.Telemetry V}.

(** C1.  [GatedGraphConv.forward] raises an authored exception exactly when
    its input has more features than [out_channels], and the exception is
    then the [ValueError] of the guard.  It is the only authored exception
    of the repository: whatever else the gated-network script raises is a
    runtime error, and so is everything that the basic script, its [test],
    [GCN.forward] and the layers of [ADGN_Message] raise. *)
Theorem channel_guard_is_the_only_authored_error :
  (forall (data : Data A) (self : GGNN_Train.GatedGraphConv A) (x : Tensor A)
          (log : list GGNN_Train.call),
     ((exists e, GGNN_Train.forward data self x log = Raise e /\ authored e = true)
      <-> GGNN_Train.out_channels self < size1 x) /\
     (GGNN_Train.out_channels self < size1 x ->
      GGNN_Train.forward data self x log
      = Raise (ValueError GGNN_Train.channel_error))) /\
  (forall (ds : Dataset A) (argv : list string) (w : World V GGNN_Train.output) e,
     GGNN_Train.main ds argv w = Raise e -> authored e = true ->
     e = ValueError GGNN_Train.channel_error) /\
  (forall (now : string) (ds : Dataset A) (w : World V GNN.output) e,
     GNN.main now ds w = Raise e -> authored e = false) /\
  (forall (loader : DataLoader A) (self : GNN.GCN A) (is_validation : bool)
          (w : World V GNN.output) e,
     GNN.test loader self is_validation w = Raise e -> authored e = false) /\
  (forall (self : GNN.GCN A) (d : Data A) (w : World V GNN.output) e,
     lift (GNN.GCN_forward self d) w = Raise e -> authored e = false) /\
  (forall (self : ADGN_Message.ADGNConv) (x : Tensor R) (edge_index : list (nat * nat))
          (w : World V GNN.output) e,
     lift (ADGN_Message.forward self x edge_index) w = Raise e ->
     authored e = false) /\
  (forall (self : ADGN_Message.ADGN) (d : Data R) (w : World V GNN.output) e,
     lift (ADGN_Message.ADGN_forward self d) w = Raise e -> authored e = false).
Proof.
  split; [|split; [|split; [|split; [|split; [|split]]]]].
  - intros data self x log. split; [split|].
    + intros (e & He & Ha).
      now apply (forward_authored_only_guard data self x log e).
    + intros Hlt. exists (ValueError GGNN_Train.channel_error).
      split; [now apply forward_guard|reflexivity].
    + apply forward_guard.
  - intros ds argv w e He. exact (main_raises_only_guard ds argv w e He).
  - intros now ds w e He. exact (main_raises_no_authored now ds w e He).
  - intros loader self v w e He.
    exact (test_raises_no_authored loader self v w e He).
  - intros self d w e He. exact (lift_not_authored _ w e He).
  - intros self x ei w e He. exact (lift_not_authored _ w e He).
  - intros self d w e He. exact (lift_not_authored _ w e He).
Qed.

End Exception_claims.

(** ** Masked accuracy of the two evaluation loops *)

Section Accuracy_statements.
Import Torch.
Context {A : Type} `{Scalar A}.

(** The accuracy that the evaluation block of [GGNN_Train.train] computes
    for a mask, when it computes one: the number of nodes of the mask whose
    most likely class is their label, over the number of nodes of that
    mask, which is not empty. *)
Theorem train_accuracy_is_masked_accuracy `{!GGNN_Train.Framework A} {S}
  (logits : Tensor A) (d : Data A) (mask : list bool) (s s' : S) (acc : Q) :
  GGNN_Train.accuracy logits d mask s = Ok (acc, s') ->
  mask_sum mask <> 0 /\
  acc = Qmake
          (Z.of_nat (length (List.filter
                               (fun i => GGNN_Train.argmax (row logits i) =? nth i (y d) 0)
                               (mask_positions mask))))
          (Pos.of_nat (mask_sum mask)).
Proof. intros Ha. now apply accuracy_spec in Ha as (_ & Hn & Hacc). Qed.

(** What [GNN.test] returns on a node task, when it returns: the correct
    predictions among the nodes of the validation mask
    ([is_validation=True]) or of the test mask, over the number of nodes of
    the test mask in both cases. *)
Theorem test_divides_by_test_mask_total `{!GNN.Framework A} {S}
  (loader : DataLoader A) (self : GNN.GCN A) (is_validation : bool)
  (s s' : S) (acc : Q) (m : GNN.GCN A) :
  String.eqb (GNN.task self) "node" = true ->
  GNN.test loader self is_validation s = Ok ((acc, m), s') ->
  acc = Qmake
          (Z.of_nat (GNN.selected_correct (GNN.eval_mode self)
                       (fun d => if is_validation then val_mask d else test_mask d)
                       (batches loader)))
          (Pos.of_nat (GNN.selected_total test_mask (graphs (dataset loader)))).
Proof. intros Hnode Ht. now apply test_spec in Ht as (_ & _ & _ & Hacc). Qed.

End Accuracy_statements.

Section Accuracy_examples.
Import Torch Sample.

Lemma train_accuracy_witness :
  mask_sum (test_mask scored) <> 0 /\
  Qmake 2 2
  = Qmake
      (Z.of_nat (length (List.filter
                           (fun i => first_argmax (row (of_rows 2 [[0; 5]; [3; 1]; [0; 2]]%Z) i)
                                     =? nth i (y scored) 0)
                           (mask_positions (test_mask scored)))))
      (Pos.of_nat (mask_sum (test_mask scored))).
Proof.
  refine (train_accuracy_is_masked_accuracy (S := unit)
            (of_rows 2 [[0; 5]; [3; 1]; [0; 2]]%Z) scored (test_mask scored)
            tt tt (Qmake 2 2) _).
  reflexivity.
Defined.

Lemma test_divides_by_test_mask_witness :
  Qmake 1 2
  = Qmake
      (Z.of_nat (GNN.selected_correct (GNN.eval_mode gcn_for_scored) val_mask [scored]))
      (Pos.of_nat (GNN.selected_total test_mask [scored])).
Proof.
  refine (test_divides_by_test_mask_total (S := unit) scored_loader gcn_for_scored
            true tt tt (Qmake 1 2) (GNN.eval_mode gcn_for_scored) _ _).
  - reflexivity.
  - vm_compute. reflexivity.
Defined.

End Accuracy_examples.

(* ================================================================== *)
(** * Further properties of the three scripts                          *)
(* ================================================================== *)

(** ** What a run of the basic script records *)


Section GNN_run.
Import Torch GNN.
Context {A : Type} `{Scalar A} `{!Framework A} {V : Type}.

Lemma event_scalars_insert (files : gmap string (file V)) (writer : string)
  (l : list (string * Z)) :
  event_scalars (<[event_path writer := EventFile l]> files) writer = l.
Proof. unfold event_scalars. now rewrite lookup_insert_eq. Qed.

(** [add_scalar] appends one scalar to the event file of the writer. *)
Lemma add_scalar_run (writer tag : string) (step : Z) (w w' : World V output) :
  add_scalar writer tag step w = Ok (tt, w') ->
  fs w' = <[event_path writer :=
              EventFile (event_scalars (fs w) writer ++ [(tag, step)])]> (fs w) /\
  stdout w' = stdout w.
Proof.
  unfold add_scalar, modify, event_scalars. intros Ha.
  inversion Ha; subst. simpl. now split.
Qed.

(** [test] hands the model back in evaluation mode. *)
Lemma test_eval_mode {S} (loader : DataLoader A) (self : GCN A) (v : bool)
  (acc : Q) (m : GCN A) (s s' : S) :
  test loader self v s = Ok ((acc, m), s') -> m = eval_mode self.
Proof.
  unfold test. intros Ht.
  apply bind_inv_Ok in Ht as (correct & s1 & _ & Ht).
  apply bind_inv_Ok in Ht as (q & s2 & _ & Ht).
  unfold ret in Ht. now inversion Ht.
Qed.

(** A training step keeps the mode and the task of the model. *)
Lemma train_batch_mode (tk : string) (b : Data A) (st st' : GCN A * A)
  (w w' : World V output) :
  GNN.train_batch tk b st w = Ok (st', w') ->
  training (fst st') = training (fst st) /\ task (fst st') = task (fst st).
Proof.
  unfold GNN.train_batch. intros Ht.
  apply bind_inv_Ok in Ht as (out & w1 & _ & Ht).
  apply bind_inv_Ok in Ht as (sel & w2 & _ & Ht).
  unfold ret in Ht. inversion Ht; subst. now split.
Qed.

(** One epoch: the loss goes to the writer, and on every tenth epoch the
    model is tested, a line is printed and the accuracy goes to the writer
    too; the model is left in evaluation mode exactly by a test. *)
Lemma train_epoch_run (tk writer : string) (loader test_loader : DataLoader A)
  (epoch : Z) (m m' : GCN A) (w w' : World V output) :
  GNN.train_epoch tk writer loader test_loader epoch m w = Ok (m', w') ->
  fs w' = <[event_path writer :=
              EventFile (event_scalars (fs w) writer ++ scalars_of_epoch epoch)]>
            (fs w) /\
  epochs_tested (stdout w')
  = epochs_tested (stdout w) ++ (if (epoch mod 10 =? 0)%Z then [epoch] else []) /\
  training m' = negb (epoch mod 10 =? 0)%Z /\
  task m' = task m.
Proof.
  unfold GNN.train_epoch, scalars_of_epoch. intros Ht.
  apply bind_inv_Ok in Ht as (st & w1 & Hloop & Ht).
  pose proof Hloop as Hmode.
  apply (for_each_keeps (fun (_ : GCN A * A) (u : World V output) => u = w))
    in Hloop; [| |reflexivity].
  2:{ intros b s u s1 u1 -> Hb. now apply train_batch_frame_gnn in Hb. }
  subst w1.
  apply (for_each_keeps
           (fun (s : GCN A * A) (_ : World V output) =>
              training (fst s) = true /\ task (fst s) = task m))
    in Hmode; [| |now split].
  2:{ intros b s u s1 u1 [Hs Hk] Hb.
      apply train_batch_mode in Hb as [Hb1 Hb2]. split; congruence. }
  destruct Hmode as [Hmode Htask].
  apply bind_inv_Ok in Ht as (total_loss & w2 & Hdiv & Ht).
  assert (w2 = w).
  { destruct (length (graphs (dataset loader)) =? 0); [discriminate|].
    unfold ret in Hdiv. now inversion Hdiv. }
  subst w2. clear Hdiv.
  apply bind_inv_Ok in Ht as ([] & w3 & Hloss & Ht).
  apply add_scalar_run in Hloss as [Hfs3 Hout3].
  destruct (epoch mod 10 =? 0)%Z.
  - apply bind_inv_Ok in Ht as ([acc m1] & w4 & Htest & Ht).
    pose proof (test_eval_mode _ _ _ _ _ _ _ Htest) as ->.
    apply test_frame in Htest as ->.
    apply bind_inv_Ok in Ht as ([] & w5 & Hpr & Ht).
    rewrite print_Ok in Hpr. inversion Hpr; subst w5. clear Hpr.
    apply bind_inv_Ok in Ht as ([] & w6 & Hacc & Ht).
    apply add_scalar_run in Hacc as [Hfs6 Hout6]. simpl in Hfs6, Hout6.
    unfold ret in Ht. inversion Ht; subst. clear Ht.
    split; [|split; [|split]].
    + rewrite Hfs6, Hfs3, event_scalars_insert, insert_insert_eq.
      now rewrite <- app_assoc.
    + rewrite Hout6, Hout3. unfold epochs_tested.
      rewrite flat_map_app. reflexivity.
    + reflexivity.
    + exact Htask.
  - unfold ret in Ht. inversion Ht; subst. clear Ht.
    split; [exact Hfs3|]. split; [now rewrite Hout3, app_nil_r|].
    split; [exact Hmode|exact Htask].
Qed.

(** A run of [train] that completes built its loaders and went through
    the loop. *)
Lemma train_inv (ds : Dataset A) (tk : string) (conv_layer : Z) (writer : string)
  (epochs : Z) (m : GCN A) (w w' : World V output) :
  GNN.train ds tk conv_layer writer epochs w = Ok (m, w') ->
  exists loader test_loader features,
    train_loaders ds tk = FOk (loader, test_loader) /\
    for_each (range 0 epochs) (GNN.train_epoch tk writer loader test_loader)
      (GCN_init (Nat.max features 1) 32 (num_classes ds) conv_layer (1 # 4) tk) w
    = Ok (m, w').
Proof.
  unfold GNN.train. intros Ht.
  apply bind_inv_Ok in Ht as ([loader test_loader] & w0 & Hl & Ht).
  apply lift_inv_Ok in Hl as [Hl ->].
  apply bind_inv_Ok in Ht as (features & w1 & Hf & Ht).
  apply lift_inv_Ok in Hf as [_ ->].
  now exists loader, test_loader, features.
Qed.

(** The loop of [train] over the epochs [l], from a model in training
    mode. *)
Lemma train_loop_run (tk writer : string) (loader test_loader : DataLoader A)
  (l : list Z) (m0 m : GCN A) (w w' : World V output) :
  training m0 = true ->
  for_each l (GNN.train_epoch tk writer loader test_loader) m0 w = Ok (m, w') ->
  event_scalars (fs w') writer
  = event_scalars (fs w) writer ++ flat_map scalars_of_epoch l /\
  (l <> [] ->
   fs w' !! event_path writer = Some (EventFile (event_scalars (fs w') writer))) /\
  (forall p, p <> event_path writer -> fs w' !! p = fs w !! p) /\
  epochs_tested (stdout w')
  = epochs_tested (stdout w) ++ List.filter (fun e => (e mod 10 =? 0)%Z) l /\
  training m = List.last (map (fun e => negb (e mod 10 =? 0)%Z) l) true /\
  task m = task m0.
Proof.
  intros Hm0 Hloop.
  set (Q := fun (pre : list Z) (s : GCN A) (v : World V output) =>
              event_scalars (fs v) writer
              = event_scalars (fs w) writer ++ flat_map scalars_of_epoch pre /\
              (pre <> [] ->
               fs v !! event_path writer
               = Some (EventFile (event_scalars (fs v) writer))) /\
              (forall p, p <> event_path writer -> fs v !! p = fs w !! p) /\
              epochs_tested (stdout v)
              = epochs_tested (stdout w)
                ++ List.filter (fun e => (e mod 10 =? 0)%Z) pre /\
              training s = List.last (map (fun e => negb (e mod 10 =? 0)%Z) pre) true /\
              task s = task m0).
  assert (Hstep : forall pre e s v s1 v1,
            Q pre s v ->
            GNN.train_epoch tk writer loader test_loader e s v = Ok (s1, v1) ->
            Q (pre ++ [e]) s1 v1).
  { intros pre e s v s1 v1 (Hev & _ & Hframe & Hout & _ & Htask) Hb.
    apply train_epoch_run in Hb as (Hfs & Hout' & Hmode & Htask').
    split; [|split; [|split; [|split; [|split]]]].
    - rewrite Hfs, event_scalars_insert, Hev, flat_map_app. simpl.
      now rewrite app_nil_r, <- app_assoc.
    - intros _. rewrite Hfs, event_scalars_insert. apply lookup_insert_eq.
    - intros p Hp. rewrite Hfs, lookup_insert_ne by congruence. now apply Hframe.
    - rewrite Hout', Hout, List.filter_app, <- app_assoc. simpl.
      destruct (e mod 10 =? 0)%Z; reflexivity.
    - rewrite last_map_snoc. exact Hmode.
    - congruence. }
  apply (for_each_steps Q _ Hstep l [] m0 w m w') in Hloop.
  - exact Hloop.
  - unfold Q. simpl. rewrite !app_nil_r. repeat split; try easy.
Qed.

End GNN_run.

Section GNN_run_statements.
Import Torch GNN.
Context {A : Type} `{Scalar A} `{!Framework A} {V : Type}.

(** In a run of [GNN.train] that completes, the writer receives the loss of
    every epoch [0 .. epochs-1] and, after it, the test accuracy of the
    epochs that are multiples of ten, in this order and nothing else; the
    model is tested, and a line printed, for exactly these epochs; with no
    epoch to run, nothing is written or printed. *)
Theorem train_logs_loss_every_epoch_and_accuracy_every_tenth
  (ds : Dataset A) (tk : string) (conv_layer : Z) (writer : string) (epochs : Z)
  (m : GCN A) (w w' : World V output) :
  GNN.train ds tk conv_layer writer epochs w = Ok (m, w') ->
  event_scalars (fs w') writer
  = event_scalars (fs w) writer ++ scalars_of_run epochs /\
  ((0 < epochs)%Z ->
   fs w' !! event_path writer
   = Some (EventFile (event_scalars (fs w) writer ++ scalars_of_run epochs))) /\
  (forall p, p <> event_path writer -> fs w' !! p = fs w !! p) /\
  epochs_tested (stdout w')
  = epochs_tested (stdout w)
    ++ List.filter (fun e => (e mod 10 =? 0)%Z) (range 0 epochs) /\
  ((epochs <= 0)%Z -> w' = w).
Proof.
  intros Ht.
  apply train_inv in Ht as (loader & test_loader & features & _ & Ht).
  split; [|split; [|split; [|split]]].
  - apply train_loop_run in Ht as (Hev & _); [exact Hev|reflexivity].
  - intros Hpos.
    apply train_loop_run in Ht as (Hev & Hfile & _); [|reflexivity].
    unfold scalars_of_run. rewrite <- Hev. apply Hfile. rewrite (range_snoc 0 epochs Hpos).
    now destruct (range 0 (epochs - 1)).
  - apply train_loop_run in Ht as (_ & _ & Hframe & _); [exact Hframe|reflexivity].
  - apply train_loop_run in Ht as (_ & _ & _ & Hout & _); [exact Hout|reflexivity].
  - intros Hle. rewrite (range_nonpos 0 epochs Hle) in Ht.
    simpl in Ht. unfold ret in Ht. now inversion Ht.
Qed.

(** The model that [GNN.train] returns is in the mode its last epoch left
    it in: in evaluation mode when that epoch, [epochs - 1], is a multiple
    of ten and so ended with a test, in training mode otherwise, as it is
    when no epoch was run. *)
Theorem train_returns_model_in_mode_of_last_epoch
  (ds : Dataset A) (tk : string) (conv_layer : Z) (writer : string) (epochs : Z)
  (m : GCN A) (w w' : World V output) :
  GNN.train ds tk conv_layer writer epochs w = Ok (m, w') ->
  training m
  = (if (epochs <=? 0)%Z then true else negb ((epochs - 1) mod 10 =? 0)%Z).
Proof.
  intros Ht.
  apply train_inv in Ht as (loader & test_loader & features & _ & Ht).
  apply train_loop_run in Ht as (_ & _ & _ & _ & Hmode & _); [|reflexivity].
  rewrite Hmode. destruct (epochs <=? 0)%Z eqn:Hle.
  - apply Z.leb_le in Hle. now rewrite (range_nonpos 0 epochs Hle).
  - apply Z.leb_gt in Hle. rewrite (range_snoc 0 epochs Hle).
    apply (last_map_snoc (fun e => negb (e mod 10 =? 0)%Z)).
Qed.

(** A run of the basic script that completes: the event file of its writer
    holds the 110 scalars of a run of 100 epochs and nothing else, the
    model was tested at the epochs 0, 10, ..., 90, and the model that
    [train] returned and [visualization_nodembs] was called on is in
    training mode, the last epoch, 99, having ended without a test. *)
Theorem main_records_hundred_epochs_and_plots_in_training_mode
  (now : string) (content : Dataset A) (m : GCN A) (w w' : World V output) :
  GNN.main now content w = Ok (m, w') ->
  let writer := String.append "GNN_Basics/log/" now in
  fs w' !! event_path writer = Some (EventFile (scalars_of_run 100)) /\
  length (scalars_of_run 100) = 110 /\
  epochs_tested (stdout w')
  = epochs_tested (stdout w) ++ [0; 10; 20; 30; 40; 50; 60; 70; 80; 90]%Z /\
  training m = true /\
  exists w0 w1 w2,
    SummaryWriter writer w = Ok (writer, w0) /\
    Planetoid "/tmp/cora" "cora" content w0 = Ok (content, w1) /\
    GNN.train content "node" 6 writer 100 w1 = Ok (m, w2) /\
    visualization_nodembs content m w2 = Ok (tt, w').
Proof.
  intros Hm writer.
  destruct (main_steps_gnn now content m w w' Hm) as (w2 & Hw & Hds & Htrain & Hvis).
  fold writer in Hw, Hds, Htrain.
  set (w0 := mkWorld (<[event_path writer := EventFile []]> (fs w)) (stdout w)) in *.
  set (w1 := mkWorld (Planetoid_files "/tmp/cora" "cora" (fs w0)) (stdout w0)) in *.
  assert (Hev1 : event_scalars (fs w1) writer = []).
  { unfold event_scalars, w1. cbn [fs].
    rewrite (Planetoid_files_keeps "/tmp/cora" "cora" (fs w0) (event_path writer)
               (EventFile [])); [reflexivity| |].
    - unfold w0. cbn [fs]. apply lookup_insert_eq.
    - left. intros Hin. apply (event_path_not_dataset now).
      unfold Planetoid_paths. apply in_or_app. now right. }
  pose proof (visualization_nodembs_frame_gnn _ _ _ _ Hvis) as [Hfs' Hout'].
  pose proof Htrain as Hrun.
  apply train_inv in Hrun as (loader & test_loader & features & _ & Hrun).
  apply train_loop_run in Hrun as (Hev & Hfile & _ & Hout & Hmode & _);
    [|reflexivity].
  split; [|split; [|split; [|split]]].
  - rewrite Hfs', Hfile by discriminate. now rewrite Hev, Hev1.
  - reflexivity.
  - rewrite Hout'. unfold epochs_tested at 1. rewrite flat_map_app. simpl.
    rewrite app_nil_r. fold (epochs_tested (stdout w2)). rewrite Hout. reflexivity.
  - rewrite Hmode. reflexivity.
  - exists w0, w1, w2. now repeat split.
Qed.

End GNN_run_statements.

Section GNN_run_examples.
Import Torch GNN Sample.

Lemma train_logs_witness :
  exists m w',
    GNN.train scored_dataset "node" 6 "log" 12 empty_world_gnn = Ok (m, w') /\
    fs w' !! event_path "log"
    = Some (EventFile
              [("Loss", 0); ("test accuracy", 0); ("Loss", 1); ("Loss", 2);
               ("Loss", 3); ("Loss", 4); ("Loss", 5); ("Loss", 6); ("Loss", 7);
               ("Loss", 8); ("Loss", 9); ("Loss", 10); ("test accuracy", 10);
               ("Loss", 11)]%Z%string) /\
    epochs_tested (stdout w') = [0; 10]%Z.
Proof.
  destruct (GNN.train scored_dataset "node" 6 "log" 12 empty_world_gnn)
    as [[m w']|e] eqn:Hrun; [|vm_compute in Hrun; discriminate].
  exists m, w'. split; [reflexivity|].
  destruct (train_logs_loss_every_epoch_and_accuracy_every_tenth _ _ _ _ _ _ _ _ Hrun)
    as (_ & Hfile & _ & Hout & _).
  split; [apply Hfile; lia|exact Hout].
Defined.

Lemma train_returns_model_in_mode_witness :
  exists m w',
    GNN.train scored_dataset "node" 6 "log" 12 empty_world_gnn = Ok (m, w') /\
    training m = true.
Proof.
  destruct (GNN.train scored_dataset "node" 6 "log" 12 empty_world_gnn)
    as [[m w']|e] eqn:Hrun; [|vm_compute in Hrun; discriminate].
  exists m, w'. split; [reflexivity|].
  exact (train_returns_model_in_mode_of_last_epoch _ _ _ _ _ _ _ _ Hrun).
Defined.

(** A run of eleven epochs ends on a test, and its model is in evaluation
    mode. *)
Example train_eleven_epochs_ends_in_evaluation_mode :
  match GNN.train scored_dataset "node" 6 "log" 11 empty_world_gnn with
  | Ok (m, _) => training m = false
  | Raise _ => False
  end.
Proof. vm_compute. reflexivity. Qed.

Lemma main_records_hundred_epochs_witness :
  exists m w',
    GNN.main "20240101-000000" scored_dataset empty_world_gnn = Ok (m, w') /\
    fs w' !! "GNN_Basics/log/20240101-000000/events.out.tfevents"%string
    = Some (EventFile (scalars_of_run 100)) /\
    training m = true.
Proof.
  destruct (GNN.main "20240101-000000" scored_dataset empty_world_gnn)
    as [[m w']|e] eqn:Hrun; [|vm_compute in Hrun; discriminate].
  exists m, w'. split; [reflexivity|].
  destruct (main_records_hundred_epochs_and_plots_in_training_mode _ _ _ _ _ Hrun)
    as (Hfile & _ & _ & Hmode & _).
  split; [exact Hfile|exact Hmode].
Defined.

End GNN_run_examples.

(** ** The data split, the layers and the test of the basic script *)

Section GNN_more.
Import Torch GNN.
Context {A : Type} `{Scalar A} `{!Framework A} {V : Type}.

Lemma four_fifths_le n : four_fifths n <= n.
Proof.
  unfold four_fifths. apply Nat.Div0.div_le_upper_bound. lia.
Qed.

Lemma four_fifths_lt n : 0 < n -> four_fifths n < n.
Proof.
  intros Hn. unfold four_fifths. apply Nat.Div0.div_lt_upper_bound. lia.
Qed.

(** On a task that is not a node task [test_batch] compares the predicted
    class of every row with the labels, whatever [is_validation] is. *)
Lemma test_batch_graph {S} (self : GCN A) (v : bool) (d : Data A)
  (correct : nat) (s : S) :
  String.eqb (task self) "node" = false ->
  test_batch self v d correct s
  = match GCN_forward self d with
    | FOk out =>
        match eq_sum (map argmax (to_rows (snd out))) (y d) with
        | FOk c => Ok (correct + c, s)
        | FErr e => Raise (Runtime e)
        end
    | FErr e => Raise (Runtime e)
    end.
Proof.
  intros Hnode. unfold test_batch. rewrite Hnode.
  unfold bind, lift, ret.
  destruct (GCN_forward self d) as [out|e]; [|reflexivity].
  destruct (eq_sum _ _); reflexivity.
Qed.

Lemma test_loop_graph {S} (self : GCN A) (v : bool) (ds : list (Data A)) :
  String.eqb (task self) "node" = false ->
  forall (correct correct' : nat) (s s' : S),
  for_each ds (test_batch self v) correct s = Ok (correct', s') ->
  s' = s /\
  correct' = fold_left
    (fun n d =>
       match GCN_forward self d with
       | FOk out => n + count_eq (map argmax (to_rows (snd out))) (y d)
       | FErr _ => n
       end) ds correct.
Proof.
  intros Hnode. induction ds as [|d ds IH]; intros correct correct' s s' Hl.
  - simpl in Hl. unfold ret in Hl. inversion Hl. now split.
  - simpl in Hl. apply bind_inv_Ok in Hl as (c1 & s1 & Hb & Hl).
    rewrite (test_batch_graph self v d correct s Hnode) in Hb.
    destruct (GCN_forward self d) as [out|e] eqn:Hout; [|discriminate].
    unfold eq_sum in Hb.
    destruct (length (map argmax (to_rows (snd out))) =? length (y d));
      [|discriminate].
    inversion Hb; subst c1 s1. clear Hb.
    apply IH in Hl as (-> & ->). split; [reflexivity|].
    simpl. now rewrite Hout.
Qed.

Lemma test_ignores_is_validation {S} (loader : DataLoader A) (self : GCN A)
  (v : bool) (s : S) :
  String.eqb (task self) "node" = false ->
  test loader self v s = test loader self true s.
Proof.
  intros Hnode.
  assert (Hb : forall l c (u : S),
            for_each l (test_batch (eval_mode self) v) c u
            = for_each l (test_batch (eval_mode self) true) c u).
  { induction l as [|d l IH]; intros c u; [reflexivity|].
    simpl. unfold bind.
    rewrite !(test_batch_graph (eval_mode self) _ d c u Hnode).
    destruct (GCN_forward (eval_mode self) d) as [out|e]; [|reflexivity].
    destruct (eq_sum _ _); [apply IH|reflexivity]. }
  unfold test, bind. now rewrite Hb.
Qed.

End GNN_more.

Section GNN_more_statements.
Import Torch GNN.
Context {A : Type} `{Scalar A} `{!Framework A} {V : Type}.

(** For a graph task [train] cuts the data set in two: the first
    [int(0.8 * n)] of its [n] graphs are trained on, the others are tested
    on; the two parts follow each other in the data set, so no graph is in
    both and none is left out, and neither part is empty.  This takes two
    graphs at least: with fewer the first part is empty and its loader,
    which shuffles, is not built.  For any other task both loaders are one
    loader on the whole data set, built unless the data set is empty. *)
Theorem train_splits_graph_data_set_four_to_one (ds : Dataset A) :
  let n := length (graphs ds) in
  (2 <= n ->
   exists loader test_loader,
     train_loaders ds "graph" = FOk (loader, test_loader) /\
     graphs (dataset loader) ++ graphs (dataset test_loader) = graphs ds /\
     length (graphs (dataset loader)) = n * 8 / 10 /\
     length (graphs (dataset test_loader)) = n - n * 8 / 10 /\
     0 < length (graphs (dataset loader)) /\
     0 < length (graphs (dataset test_loader))) /\
  (n < 2 -> train_loaders ds "graph" = FErr LibraryValueError) /\
  (forall tk, String.eqb tk "graph" = false ->
     (0 < n ->
      exists loader, train_loaders ds tk = FOk (loader, loader) /\
                     dataset loader = ds) /\
     (n = 0 -> train_loaders ds tk = FErr LibraryValueError)).
Proof.
  intros n.
  pose proof (four_fifths_le n) as Hle.
  assert (Hl : graphs (slice ds 0 (four_fifths n)) = firstn (four_fifths n) (graphs ds)).
  { unfold slice. simpl. now rewrite Nat.sub_0_r. }
  assert (Ht : graphs (slice ds (four_fifths n) n) = skipn (four_fifths n) (graphs ds)).
  { unfold slice. simpl. apply firstn_all2. rewrite length_skipn. fold n. lia. }
  assert (Hll : length (graphs (slice ds 0 (four_fifths n))) = four_fifths n).
  { rewrite Hl, length_firstn. fold n. lia. }
  assert (Htl : length (graphs (slice ds (four_fifths n) n)) = n - four_fifths n).
  { rewrite Ht, length_skipn. reflexivity. }
  split; [|split].
  - intros Hn.
    assert (Hpos : 0 < four_fifths n).
    { unfold four_fifths. apply Nat.div_str_pos. lia. }
    assert (Hlt : four_fifths n < n) by (apply four_fifths_lt; lia).
    unfold train_loaders, DataLoader_init. cbn [String.eqb Ascii.eqb Bool.eqb andb].
    fold n. rewrite Hll, Htl.
    destruct (Nat.eqb_spec (four_fifths n) 0) as [Hz|_]; [lia|].
    destruct (Nat.eqb_spec (n - four_fifths n) 0) as [Hz|_]; [lia|].
    cbn [andb fbind]. eexists. eexists. split; [reflexivity|].
    cbn [dataset]. rewrite Hl, Ht.
    split; [apply firstn_skipn|].
    split; [rewrite length_firstn; fold n; unfold four_fifths in *; lia|].
    split; [rewrite length_skipn; fold n; unfold four_fifths in *; lia|].
    split; [rewrite length_firstn; fold n; lia|].
    rewrite length_skipn. fold n. lia.
  - intros Hn.
    assert (Hz : four_fifths n = 0).
    { unfold four_fifths. apply Nat.div_small. lia. }
    unfold train_loaders, DataLoader_init. cbn [String.eqb Ascii.eqb Bool.eqb andb].
    fold n. rewrite Hll, Hz. reflexivity.
  - intros tk Htk. unfold train_loaders, DataLoader_init. rewrite Htk. fold n.
    split.
    + intros Hn. destruct (Nat.eqb_spec n 0) as [Hz|_]; [lia|].
      cbn [andb fbind]. eexists. split; reflexivity.
    + intros ->. reflexivity.
Qed.

(** A graph task on a data set of fewer than two graphs: eighty per cent
    of one graph is no graph, the training part is empty, and the loader
    of [train] for it, which shuffles, is not built.  [train] raises the
    error of the library before its model is built, whatever the number
    of epochs, none included. *)
Theorem train_on_single_graph_fails_to_build_loader
  (ds : Dataset A) (conv_layer : Z) (writer : string) (epochs : Z)
  (w : World V output) :
  length (graphs ds) < 2 ->
  GNN.train ds "graph" conv_layer writer epochs w
  = Raise (Runtime LibraryValueError).
Proof.
  intros Hn.
  assert (Hz : four_fifths (length (graphs ds)) = 0).
  { unfold four_fifths. apply Nat.div_small. lia. }
  assert (Hl : train_loaders ds "graph" = FErr LibraryValueError).
  { unfold train_loaders, DataLoader_init. cbn [String.eqb Ascii.eqb Bool.eqb andb].
    rewrite Hz. unfold slice. cbn [graphs]. reflexivity. }
  unfold GNN.train. now rewrite Hl.
Qed.

(** [GCN.__init__] builds [conv_layers + 1] convolutions and sets
    [num_layers] to that number when [conv_layers] is not negative, so the
    loop of [forward] indexes [convs] within its bounds.  With a negative
    [conv_layers] there is one convolution and [num_layers] is not
    positive: the loop of [forward] is not entered, [emb] is never
    assigned, and [forward] returns on no input. *)
Theorem GCN_forward_never_returns_for_negative_conv_layers
  (input_dim hidden_dim out_dim : nat) (conv_layers : Z) (doutrate : Q)
  (tk : string) :
  let self := GCN_init input_dim hidden_dim out_dim conv_layers doutrate tk in
  ((0 <= conv_layers)%Z -> Z.of_nat (length (convs self)) = num_layers self) /\
  ((conv_layers < 0)%Z ->
   length (convs self) = 1 /\ (num_layers self <= 0)%Z /\
   forall d, exists e, GCN_forward self d = FErr e).
Proof.
  intros self. split.
  - intros Hnn. unfold self. simpl. rewrite repeat_length. lia.
  - intros Hneg. split; [|split].
    + unfold self. simpl. rewrite repeat_length.
      replace (Z.to_nat conv_layers) with 0 by lia. reflexivity.
    + unfold self. simpl. lia.
    + intros d. unfold GCN_forward, layer_stack.
      assert (Hr : range 0 (num_layers self) = []).
      { apply range_nonpos. unfold self. simpl. lia. }
      rewrite Hr. simpl.
      repeat match goal with
             | |- context [match ?r with FOk _ => _ | FErr _ => _ end] =>
                 destruct r
             | |- context [if ?b then _ else _] => destruct b
             | |- context [match ?o with Some _ => _ | None => _ end] =>
                 destruct o
             end; eexists; reflexivity.
Qed.

(** On a task that is not a node task, what [test] returns when it
    returns: the number of rows of the predictions whose class is the
    label, over the number of graphs of the data set of the loader for a
    graph task, and over the number of test nodes of that data set
    otherwise; [is_validation] is not read. *)
Theorem test_counts_graphs_on_graph_task {S}
  (loader : DataLoader A) (self : GCN A) (is_validation : bool)
  (s s' : S) (acc : Q) (m : GCN A) :
  String.eqb (task self) "node" = false ->
  test loader self is_validation s = Ok ((acc, m), s') ->
  let total := if String.eqb (task self) "graph"
               then length (graphs (dataset loader))
               else selected_total test_mask (graphs (dataset loader)) in
  total <> 0 /\
  acc = Qmake (Z.of_nat (graphs_correct (eval_mode self) (batches loader)))
          (Pos.of_nat total) /\
  test loader self (negb is_validation) s = Ok ((acc, m), s').
Proof.
  intros Hnode Ht total.
  assert (Hflip : test loader self (negb is_validation) s
                  = test loader self is_validation s).
  { rewrite (test_ignores_is_validation loader self (negb is_validation) s Hnode).
    now rewrite (test_ignores_is_validation loader self is_validation s Hnode). }
  rewrite Hflip. pose proof Ht as Ht0. unfold test in Ht.
  apply bind_inv_Ok in Ht as (correct & s1 & Hloop & Ht).
  apply test_loop_graph in Hloop as (-> & ->); [|exact Hnode].
  apply bind_inv_Ok in Ht as (q & s2 & Hq & Ht).
  unfold ret in Ht. inversion Ht; subst. clear Ht.
  apply lift_inv_Ok in Hq as [Hq _]. simpl in Hq.
  fold (selected_total test_mask (graphs (dataset loader))) in Hq.
  fold total in Hq. unfold py_div in Hq.
  destruct (total =? 0) eqn:Hz; [discriminate|].
  inversion Hq; subst. apply Nat.eqb_neq in Hz.
  split; [exact Hz|]. split; [reflexivity|]. exact Ht0.
Qed.

End GNN_more_statements.

Section GNN_more_examples.
Import Torch GNN Sample.

Lemma train_on_single_graph_witness :
  GNN.train scored_dataset "graph" 6 "log" 0 empty_world_gnn
  = Raise (Runtime LibraryValueError).
Proof.
  apply (train_on_single_graph_fails_to_build_loader (V := Z)
           scored_dataset 6 "log" 0 empty_world_gnn).
  simpl. lia.
Defined.

(** With two graphs the loaders are built: one graph to train on, one to
    test on. *)
Example train_loaders_of_two_graphs :
  match train_loaders two_graphs "graph" with
  | FOk (loader, test_loader) =>
      length (graphs (dataset loader)) = 1 /\
      length (graphs (dataset test_loader)) = 1
  | FErr _ => False
  end.
Proof. vm_compute. split; reflexivity. Qed.

(** The same data set as a node task runs to the end. *)
Example train_on_single_graph_as_node_task :
  match GNN.train scored_dataset "node" 6 "log" 3 empty_world_gnn with
  | Ok _ => True
  | Raise _ => False
  end.
Proof. vm_compute. exact I. Qed.

(** A model built with [conv_layers = -1] has one convolution and no
    layer to run: the head rejects the features of the graph, and when it
    accepts them [emb] is read before it was assigned. *)
Example GCN_without_layers :
  GCN_forward (GCN_init 2 32 2 (-1) (1 # 4) "node") scored = FErr ShapeMismatch /\
  GCN_forward (GCN_init 2 2 2 (-1) (1 # 4) "node") scored = FErr NameError.
Proof. vm_compute. split; reflexivity. Qed.

Lemma test_counts_graphs_witness :
  1 <> 0 /\
  Qmake 1 2
  = Qmake (Z.of_nat (graphs_correct (eval_mode gcn_for_graphs)
                       (batches two_graphs_loader)))
      (Pos.of_nat 2) /\
  test two_graphs_loader gcn_for_graphs false tt
  = Ok ((Qmake 1 2, eval_mode gcn_for_graphs), tt).
Proof.
  destruct (test_counts_graphs_on_graph_task (S := unit) two_graphs_loader
              gcn_for_graphs true tt tt (Qmake 1 2) (eval_mode gcn_for_graphs))
    as (Hz & Hacc & Hflip).
  - reflexivity.
  - vm_compute. reflexivity.
  - split; [lia|]. split; [exact Hacc|exact Hflip].
Defined.

End GNN_more_examples.

(** ** The antisymmetric layer on a graph *)

Section ADGN_more.
Import Torch ADGN_Message.
Open Scope R_scope.

(** [forward] in four stages: the weight matrix, the linear image of the
    features, the normalised edges and the messages they carry, and the
    residual update. *)
Lemma forward_decomposition (self : ADGNConv) (x : Tensor R) (ei : list (nat * nat)) :
  forward self x ei
  = (let* W := effective_W self in
     let* lx := linear self x in
     let* norm := normalisation ei (size0 x) in
     let* aggr_x := propagate (message norm) (add_self_loops ei (size0 x)) lx in
     update self x W aggr_x).
Proof.
  unfold forward, normalisation, update.
  destruct (effective_W self) as [W|e]; [|reflexivity]. unfold fbind at 1 12.
  destruct (linear self x) as [lx|e] eqn:Hlx; [|reflexivity].
  unfold fbind at 1 11.
  unfold linear in Hlx. apply matmul_inv in Hlx as (_ & H0 & _). rewrite H0.
  destruct (degree _ _) as [deg|e]; [|reflexivity]. unfold fbind at 1 10.
  destruct (vindex _ (map fst _)) as [nrow|e]; [|reflexivity]. unfold fbind at 1 9.
  destruct (vindex _ (map snd _)) as [ncol|e]; [|reflexivity]. unfold fbind at 1 8.
  reflexivity.
Qed.

(** How often a node occurs among the nodes [a, a+1, ..., a+n-1]. *)
Lemma count_in_seq (i a n : nat) :
  length (List.filter (fun k => k =? i)%nat (seq a n))
  = if ((a <=? i) && (i <? a + n))%nat then 1%nat else 0%nat.
Proof.
  revert a. induction n as [|n IH]; intros a; simpl.
  - destruct (Nat.leb_spec a i); destruct (Nat.ltb_spec i (a + 0)); simpl; lia.
  - destruct (Nat.eqb_spec a i); simpl; rewrite IH;
      destruct (Nat.leb_spec a i);
      destruct (Nat.leb_spec (S a) i); destruct (Nat.ltb_spec i (a + S n));
      destruct (Nat.ltb_spec i (S a + n)); simpl; lia.
Qed.

Lemma sources_with_self_loops (ei : list (nat * nat)) (n : nat) :
  map fst (add_self_loops ei n) = map fst ei ++ seq 0 n /\
  map snd (add_self_loops ei n) = map snd ei ++ seq 0 n.
Proof.
  unfold add_self_loops. rewrite !map_app, !map_map. simpl.
  now rewrite map_id.
Qed.

Lemma edges_below_self_loops (ei : list (nat * nat)) (n : nat) :
  edges_below ei n -> edges_below (add_self_loops ei n) n.
Proof.
  intros Hei e He. unfold add_self_loops in He. apply in_app_or in He as [He|He].
  - now apply Hei.
  - apply in_map_iff in He as (i & <- & Hi). apply in_seq in Hi. simpl. lia.
Qed.

Lemma edges_below_forallb (ei : list (nat * nat)) (n : nat) :
  edges_below ei n ->
  forallb (fun i => i <? n)%nat (map fst ei) = true /\
  forallb (fun i => i <? n)%nat (map snd ei) = true /\
  forallb (fun e => (fst e <? n) && (snd e <? n))%nat ei = true.
Proof.
  intros Hei. repeat split; apply forallb_forall.
  - intros i Hi. apply in_map_iff in Hi as (e & <- & He).
    apply Nat.ltb_lt. now apply Hei.
  - intros i Hi. apply in_map_iff in Hi as (e & <- & He).
    apply Nat.ltb_lt. now apply Hei.
  - intros e He. destruct (Hei e He) as [H1 H2].
    apply andb_true_intro. split; now apply Nat.ltb_lt.
Qed.

Lemma forallb_edges_below (ei : list (nat * nat)) (n : nat) :
  forallb (fun i => i <? n)%nat (map fst ei) = true ->
  forallb (fun i => i <? n)%nat (map snd ei) = true ->
  edges_below ei n.
Proof.
  intros H1 H2 e He. split.
  - apply Nat.ltb_lt. apply (proj1 (forallb_forall _ _) H1). now apply in_map.
  - apply Nat.ltb_lt. apply (proj1 (forallb_forall _ _) H2). now apply in_map.
Qed.

(** The inverse square root of a degree that is at least one. *)
Lemma inv_sqrt_bounds (d : R) : 1 <= d -> 0 < / sqrt d <= 1.
Proof.
  intros Hd.
  assert (Hs : 1 <= sqrt d).
  { rewrite <- sqrt_1. apply sqrt_le_1_alt. exact Hd. }
  split.
  - apply Rinv_0_lt_compat. lra.
  - rewrite <- Rinv_1. apply Rinv_le_contravar; lra.
Qed.

(** The degree of a node of the graph, counted on the sources of the edges
    after the self loops were added, is at least one. *)
Lemma degree_with_self_loops (ei : list (nat * nat)) (n i : nat) :
  (i < n)%nat ->
  1 <= INR (length (List.filter (fun k => k =? i)%nat
                      (map fst (add_self_loops ei n)))).
Proof.
  intros Hi. destruct (sources_with_self_loops ei n) as [-> _].
  rewrite List.filter_app, length_app, count_in_seq. simpl.
  destruct (Nat.ltb_spec i n); [|lia].
  rewrite plus_INR. simpl. pose proof (pos_INR (length (List.filter
    (fun k => k =? i)%nat (map fst ei)))). lra.
Qed.

(** The normalisation of [forward] on a graph whose edges are within its
    [n] nodes: one coefficient per edge, self loops included, each the
    product of the inverse square roots of the degrees of the two ends of
    its edge. *)
Lemma normalisation_spec (ei : list (nat * nat)) (n : nat) :
  edges_below ei n ->
  exists norm,
    normalisation ei n = FOk norm /\
    vsize norm = (length ei + n)%nat /\
    forall e, vitem norm e
      = / sqrt (INR (length (List.filter
                       (fun k => k =? nth e (map fst (add_self_loops ei n)) 0)%nat
                       (map fst (add_self_loops ei n)))))
        * / sqrt (INR (length (List.filter
                         (fun k => k =? nth e (map snd (add_self_loops ei n)) 0)%nat
                         (map fst (add_self_loops ei n))))).
Proof.
  intros Hei. apply edges_below_self_loops in Hei.
  destruct (edges_below_forallb _ _ Hei) as (Hsrc & Hdst & _).
  unfold normalisation, degree. rewrite Hsrc. unfold fbind at 1.
  unfold vindex, pow_minus_half. cbn [vsize vitem]. rewrite Hsrc, Hdst.
  unfold fbind. unfold vmul. cbn [vsize vitem].
  rewrite !length_map, Nat.eqb_refl.
  eexists. split; [reflexivity|]. cbn [vsize vitem].
  split; [|reflexivity].
  unfold add_self_loops. now rewrite length_app, length_map, length_seq.
Qed.

Lemma normalisation_inv (ei : list (nat * nat)) (n : nat) (norm : Vector R) :
  normalisation ei n = FOk norm -> edges_below ei n.
Proof.
  unfold normalisation. intros Hn.
  apply fbind_inv in Hn as (deg & Hdeg & Hn).
  apply fbind_inv in Hn as (nrow & Hrow & Hn).
  apply fbind_inv in Hn as (ncol & Hcol & Hn).
  unfold degree in Hdeg.
  destruct (forallb _ (map fst (add_self_loops ei n))) eqn:Hsrc; [|discriminate].
  inversion Hdeg; subst deg. clear Hdeg.
  unfold vindex, pow_minus_half in Hcol. cbn [vsize] in Hcol.
  destruct (forallb _ (map snd (add_self_loops ei n))) eqn:Hdst; [|discriminate].
  pose proof (forallb_edges_below _ _ Hsrc Hdst) as Hall.
  intros e He. apply Hall. unfold add_self_loops. apply in_or_app. now left.
Qed.

Lemma linear_Ok (self : ADGNConv) (x : Tensor R) :
  size1 x = in_channels self ->
  exists lx, linear self x = FOk lx /\
    size0 lx = size0 x /\ size1 lx = out_channels self.
Proof.
  intros Hx. unfold linear, matmul. cbn [transpose size0 size1].
  rewrite Hx, Nat.eqb_refl. eexists. split; [reflexivity|]. now split.
Qed.

Lemma linear_inv (self : ADGNConv) (x lx : Tensor R) :
  linear self x = FOk lx ->
  size1 x = in_channels self /\
  size0 lx = size0 x /\ size1 lx = out_channels self.
Proof.
  unfold linear. intros Hl. apply matmul_inv in Hl as (H1 & H2 & H3).
  now repeat split.
Qed.

Lemma fold_left_ext_in {X Y} (f g : X -> Y -> X) (l : list Y) (a : X) :
  (forall acc e, In e l -> f acc e = g acc e) ->
  fold_left f l a = fold_left g l a.
Proof.
  revert a. induction l as [|e l IH]; intros a Hfg; [reflexivity|].
  simpl. rewrite (Hfg a e) by now left.
  apply IH. intros acc e' He'. apply Hfg. now right.
Qed.

(** The messages of [propagate] under [ADGNConv.message]: node [i]
    receives, from every edge that ends in it, the features of the source
    of the edge times the coefficient of the edge. *)
Lemma propagate_message_Ok (norm : Vector R) (edges : list (nat * nat))
  (lx : Tensor R) :
  vsize norm = length edges ->
  edges_below edges (size0 lx) ->
  exists aggr,
    propagate (message norm) edges lx = FOk aggr /\
    size0 aggr = size0 lx /\ size1 aggr = size1 lx /\
    forall i j, (j < size1 lx)%nat ->
      item aggr i j
      = fold_left
          (fun acc e =>
             if (nth e (map snd edges) 0 =? i)%nat
             then acc + vitem norm e * item lx (nth e (map fst edges) 0%nat) j
             else acc)
          (seq 0 (length edges)) 0.
Proof.
  intros Hnorm Hedges.
  destruct (edges_below_forallb _ _ Hedges) as (_ & _ & Hall).
  unfold propagate. rewrite Hall.
  unfold message, broadcast2. cbn [size0 size1 select_rows].
  rewrite length_map, Hnorm, broadcast_dim_refl, broadcast_dim_1_l.
  eexists. split; [reflexivity|]. cbn [size0 size1 scatter_add item].
  split; [reflexivity|]. split; [reflexivity|].
  intros i j Hj. rewrite length_map.
  apply fold_left_ext_in. intros acc e He. apply in_seq in He.
  rewrite !bidx_lt by lia. reflexivity.
Qed.

Lemma propagate_message_inv (norm : Vector R) (edges : list (nat * nat))
  (lx aggr : Tensor R) :
  propagate (message norm) edges lx = FOk aggr ->
  size0 aggr = size0 lx /\ size1 aggr = size1 lx.
Proof.
  intros Hp. apply propagate_inv in Hp as (msg & Hmsg & H0 & H1).
  unfold message in Hmsg.
  apply broadcast2_inv in Hmsg as (n1 & m1 & _ & Hm1 & ->).
  cbn [size1 select_rows] in Hm1. rewrite broadcast_dim_1_l in Hm1.
  injection Hm1 as <-. now split.
Qed.

(** Broadcasting a dimension against the dimension it gave. *)
Lemma broadcast_dim_again (a b m : nat) :
  broadcast_dim a b = Some m ->
  broadcast_dim m a = Some m /\ broadcast_dim a m = Some m.
Proof.
  unfold broadcast_dim.
  destruct (Nat.eqb_spec a b) as [->|Hab].
  - intros Hm. injection Hm as <-. now rewrite Nat.eqb_refl.
  - destruct (Nat.eqb_spec a 1) as [->|Ha].
    + intros Hm. injection Hm as <-.
      destruct (Nat.eqb_spec b 1); [lia|].
      destruct (Nat.eqb_spec 1 b); [lia|]. now split.
    + destruct (Nat.eqb_spec b 1) as [->|Hb]; [|discriminate].
      intros Hm. injection Hm as <-. now rewrite Nat.eqb_refl.
Qed.

Lemma broadcast2_Ok (f : R -> R -> R) (a b : Tensor R) (n m : nat) :
  broadcast_dim (size0 a) (size0 b) = Some n ->
  broadcast_dim (size1 a) (size1 b) = Some m ->
  exists c, broadcast2 f a b = FOk c /\ size0 c = n /\ size1 c = m /\
    forall i j,
      item c i j = f (item a (bidx (size0 a) i) (bidx (size1 a) j))
                     (item b (bidx (size0 b) i) (bidx (size1 b) j)).
Proof.
  intros H0 H1. unfold broadcast2. rewrite H0, H1.
  eexists. split; [reflexivity|]. now repeat split.
Qed.

Lemma broadcast2_Err (f : R -> R -> R) (a b : Tensor R) :
  broadcast_dim (size1 a) (size1 b) = None ->
  broadcast2 f a b = FErr ShapeMismatch.
Proof.
  intros H1. unfold broadcast2. rewrite H1.
  now destruct (broadcast_dim (size0 a) (size0 b)).
Qed.

Lemma matmul_Ok (a b : Tensor R) :
  size1 a = size0 b ->
  exists c, matmul a b = FOk c /\ size0 c = size0 a /\ size1 c = size1 b.
Proof.
  intros Hab. unfold matmul. rewrite Hab, Nat.eqb_refl.
  eexists. split; [reflexivity|]. now split.
Qed.

(** The residual update, by shape. *)
Lemma update_shape (self : ADGNConv) (x W aggr : Tensor R) :
  size0 W = in_channels self -> size1 W = in_channels self ->
  size1 x = in_channels self ->
  size0 aggr = size0 x -> size1 aggr = out_channels self ->
  match broadcast_dim (in_channels self) (out_channels self) with
  | Some m => exists out, update self x W aggr = FOk out /\
                size0 out = size0 x /\ size1 out = m
  | None => update self x W aggr = FErr ShapeMismatch
  end.
Proof.
  intros HW0 HW1 Hx Ha0 Ha1.
  destruct (matmul_Ok x W) as (xw & Hxw & Hxw0 & Hxw1); [congruence|].
  unfold update. rewrite Hxw. cbn [fbind]. unfold tadd.
  destruct (broadcast_dim (in_channels self) (out_channels self)) as [m|] eqn:Hm.
  - destruct (broadcast_dim_again _ _ _ Hm) as [Hm1 Hm2].
    destruct (broadcast2_Ok s_add xw aggr (size0 x) m)
      as (s & Hs & Hs0 & Hs1 & _);
      [rewrite Hxw0, Ha0; apply broadcast_dim_refl|congruence|].
    rewrite Hs. cbn [fbind].
    destruct (broadcast2_Ok s_add s (as_row (bias self)) (size0 x) m)
      as (pre & Hpre & Hp0 & Hp1 & _);
      [rewrite Hs0; apply broadcast_dim_1_r|rewrite Hs1; exact Hm1|].
    rewrite Hpre. cbn [fbind].
    destruct (broadcast2_Ok s_add x
                (scale (epsilon self) (map_tensor act_func pre)) (size0 x) m)
      as (out & Hout & Ho0 & Ho1 & _);
      [cbn [size0 scale map_tensor]; rewrite Hp0; apply broadcast_dim_refl
      |cbn [size1 scale map_tensor]; rewrite Hx, Hp1; exact Hm2|].
    exists out. now repeat split.
  - rewrite broadcast2_Err; [reflexivity|congruence].
Qed.

(** A tensor plus a vector, read as a row, of the width of the tensor. *)
Lemma tadd_row (a : Tensor R) (v : Vector R) :
  size1 a = vsize v ->
  exists c, tadd a (as_row v) = FOk c /\
    size0 c = size0 a /\ size1 c = size1 a /\
    forall i j, (i < size0 a)%nat -> (j < size1 a)%nat ->
      item c i j = item a i j + vitem v j.
Proof.
  intros Hv.
  destruct (broadcast2_Ok s_add a (as_row v) (size0 a) (size1 a))
    as (c & Hc & Hc0 & Hc1 & Hci);
    [apply broadcast_dim_1_r|cbn [size1 as_row]; rewrite Hv; apply broadcast_dim_refl|].
  exists c. split; [exact Hc|]. split; [exact Hc0|]. split; [exact Hc1|].
  intros i j Hi Hj. rewrite Hci. cbn [as_row item size0 size1].
  rewrite !bidx_lt by (rewrite <- ?Hv; assumption). reflexivity.
Qed.

(** The residual update, entry by entry, for as many output as input
    channels. *)
Lemma update_same (self : ADGNConv) (x W aggr : Tensor R) :
  size0 W = in_channels self -> size1 W = in_channels self ->
  size1 x = in_channels self ->
  size0 aggr = size0 x -> size1 aggr = in_channels self ->
  exists xw out,
    matmul x W = FOk xw /\ update self x W aggr = FOk out /\
    size0 out = size0 x /\ size1 out = size1 x /\
    forall i j, (i < size0 x)%nat -> (j < size1 x)%nat ->
      item out i j
      = item x i j
        + epsilon self * tanh (item xw i j + item aggr i j + bias_entries self j).
Proof.
  intros HW0 HW1 Hx Ha0 Ha1.
  destruct (matmul_Ok x W) as (xw & Hxw & Hxw0 & Hxw1); [congruence|].
  exists xw. unfold update. rewrite Hxw. cbn [fbind]. unfold tadd at 1.
  destruct (broadcast2_same s_add xw aggr) as (s & Hs & Hs0 & Hs1 & Hsi);
    [congruence..|].
  rewrite Hs. cbn [fbind].
  destruct (tadd_row s (bias self)) as (pre & Hpre & Hp0 & Hp1 & Hpi);
    [cbn [vsize bias]; congruence|].
  rewrite Hpre. cbn [fbind]. unfold tadd.
  destruct (broadcast2_same s_add x
              (scale (epsilon self) (map_tensor act_func pre)))
    as (out & Hout & Ho0 & Ho1 & Hoi);
    [cbn [size0 scale map_tensor]; congruence
    |cbn [size1 scale map_tensor]; congruence|].
  exists out. split; [reflexivity|]. split; [exact Hout|].
  split; [exact Ho0|]. split; [exact Ho1|].
  intros i j Hi Hj. rewrite Hoi by assumption.
  cbn [item scale map_tensor s_add s_mul Scalar_R]. unfold act_func.
  rewrite Hpi by congruence. rewrite Hsi by congruence. reflexivity.
Qed.

End ADGN_more.

Section ADGN_more_graph.
Import Torch ADGN_Message.
Open Scope R_scope.

Lemma effective_W_Ok (self : ADGNConv) :
  exists W, effective_W self = FOk W /\
    size0 W = in_channels self /\ size1 W = in_channels self.
Proof.
  destruct (antisymmetry self) eqn:Ha.
  - destruct (effective_W_antisymmetry_entries self Ha) as (W & HW & H0 & H1 & _).
    now exists W.
  - exists (Weights self). unfold effective_W. rewrite Ha. now repeat split.
Qed.

Lemma broadcast_dim_Some_iff (a b : nat) :
  broadcast_dim a b <> None <-> a = b \/ a = 1%nat \/ b = 1%nat.
Proof.
  unfold broadcast_dim.
  destruct (Nat.eqb_spec a b); [intuition congruence|].
  destruct (Nat.eqb_spec a 1); [intuition congruence|].
  destruct (Nat.eqb_spec b 1); [intuition congruence|].
  intuition congruence.
Qed.

(** The sum that [scatter] forms over the self loops alone: node [i]
    receives from itself only. *)
Lemma fold_pick_seq (f : nat -> R) (i : nat) (n : nat) : forall (a : nat) (acc : R),
  fold_left (fun acc e => if (e =? i)%nat then acc + f e else acc) (seq a n) acc
  = if ((a <=? i) && (i <? a + n))%nat then acc + f i else acc.
Proof.
  induction n as [|n IH]; intros a acc; simpl.
  - destruct (Nat.leb_spec a i); destruct (Nat.ltb_spec i (a + 0)); simpl;
      try reflexivity; lia.
  - rewrite IH.
    destruct (Nat.eqb_spec a i) as [->|Hai].
    + destruct (Nat.leb_spec (S i) i); [lia|]. simpl.
      destruct (Nat.leb_spec i i); [|lia].
      destruct (Nat.ltb_spec i (i + S n)); [|lia]. reflexivity.
    + destruct (Nat.leb_spec (S a) i); destruct (Nat.leb_spec a i);
        destruct (Nat.ltb_spec i (S a + n)); destruct (Nat.ltb_spec i (a + S n));
        simpl; try reflexivity; lia.
Qed.

(** Whether [forward] returns is a matter of shapes. *)
Lemma forward_Ok (self : ADGNConv) (x : Tensor R) (ei : list (nat * nat)) (m : nat) :
  size1 x = in_channels self -> edges_below ei (size0 x) ->
  broadcast_dim (in_channels self) (out_channels self) = Some m ->
  exists out, forward self x ei = FOk out /\
    size0 out = size0 x /\ size1 out = m.
Proof.
  intros Hx Hei Hm. rewrite forward_decomposition.
  destruct (effective_W_Ok self) as (W & HW & HW0 & HW1). rewrite HW. cbn [fbind].
  destruct (linear_Ok self x Hx) as (lx & Hlx & Hl0 & Hl1). rewrite Hlx. cbn [fbind].
  destruct (normalisation_spec ei (size0 x) Hei) as (norm & Hnorm & Hsize & _).
  rewrite Hnorm. cbn [fbind].
  destruct (propagate_message_Ok norm (add_self_loops ei (size0 x)) lx)
    as (aggr & Haggr & Ha0 & Ha1 & _).
  { rewrite Hsize. unfold add_self_loops.
    now rewrite length_app, length_map, length_seq. }
  { rewrite Hl0. now apply edges_below_self_loops. }
  rewrite Haggr. cbn [fbind].
  pose proof (update_shape self x W aggr HW0 HW1 Hx) as Hup.
  rewrite Hm in Hup. apply Hup; congruence.
Qed.

Lemma forward_inv (self : ADGNConv) (x : Tensor R) (ei : list (nat * nat))
  (out : Tensor R) :
  forward self x ei = FOk out ->
  size1 x = in_channels self /\ edges_below ei (size0 x) /\
  size0 out = size0 x /\
  broadcast_dim (in_channels self) (out_channels self) = Some (size1 out).
Proof.
  rewrite forward_decomposition. intros Hf.
  apply fbind_inv in Hf as (W & HW & Hf).
  apply fbind_inv in Hf as (lx & Hlx & Hf).
  apply fbind_inv in Hf as (norm & Hnorm & Hf).
  apply fbind_inv in Hf as (aggr & Haggr & Hf).
  apply effective_W_shape in HW as [HW0 HW1].
  apply linear_inv in Hlx as (Hx & Hl0 & Hl1).
  apply normalisation_inv in Hnorm.
  apply propagate_message_inv in Haggr as [Ha0 Ha1].
  split; [exact Hx|]. split; [exact Hnorm|].
  pose proof (update_shape self x W aggr HW0 HW1 Hx) as Hup.
  destruct (broadcast_dim (in_channels self) (out_channels self)) as [m|].
  - destruct Hup as (out' & Hout' & H0 & H1); [congruence..|].
    assert (out' = out) by congruence. subst out'. split; congruence.
  - rewrite Hup in Hf by congruence. discriminate.
Qed.

End ADGN_more_graph.

Section ADGN_layer_statements.
Import Torch ADGN_Message.
Open Scope R_scope.

(** In [ADGNConv.forward] the self loops are added before the degrees are
    counted, so on a graph whose edges are within its [n] nodes every node
    has a degree of at least one, [deg.pow(-0.5)] is finite and positive,
    and the normalisation coefficient of every edge, self loops included,
    lies in the interval from 0 (excluded) to 1; these are the
    coefficients that [forward] hands to [propagate]. *)
Theorem self_loops_keep_every_degree_positive (ei : list (nat * nat)) (n : nat) :
  edges_below ei n ->
  let edges := add_self_loops ei n in
  exists deg norm,
    degree (map fst edges) n = FOk deg /\ vsize deg = n /\
    (forall i, (i < n)%nat ->
       1 <= vitem deg i /\ 0 < vitem (pow_minus_half deg) i <= 1) /\
    normalisation ei n = FOk norm /\ vsize norm = length edges /\
    (forall e, (e < length edges)%nat -> 0 < vitem norm e <= 1) /\
    (forall self x, size0 x = n ->
       forward self x ei
       = (let* W := effective_W self in
          let* lx := linear self x in
          let* aggr_x := propagate (message norm) edges lx in
          update self x W aggr_x)).
Proof.
  intros Hei edges.
  pose proof (edges_below_self_loops ei n Hei) as Hedges. fold edges in Hedges.
  destruct (edges_below_forallb _ _ Hedges) as (Hsrc & _ & _).
  destruct (normalisation_spec ei n Hei) as (norm & Hnorm & Hsize & Hitem).
  assert (Hlen : length edges = (length ei + n)%nat).
  { unfold edges, add_self_loops. now rewrite length_app, length_map, length_seq. }
  eexists. exists norm. split.
  { unfold degree. fold edges. rewrite Hsrc. reflexivity. }
  cbn [vsize vitem pow_minus_half]. split; [reflexivity|]. split.
  { intros i Hi. pose proof (degree_with_self_loops ei n i Hi) as Hd.
    fold edges in Hd. split; [exact Hd|now apply inv_sqrt_bounds]. }
  split; [exact Hnorm|]. split; [congruence|]. split.
  - intros e He. rewrite Hitem. fold edges.
    assert (Hs : (nth e (map fst edges) 0 < n)%nat).
    { destruct (Hedges (nth e edges (0, 0)%nat)) as [H1 _];
        [apply nth_In; exact He|].
      now rewrite <- (map_nth fst) in H1. }
    assert (Ht : (nth e (map snd edges) 0 < n)%nat).
    { destruct (Hedges (nth e edges (0, 0)%nat)) as [_ H2];
        [apply nth_In; exact He|].
      now rewrite <- (map_nth snd) in H2. }
    pose proof (inv_sqrt_bounds _ (degree_with_self_loops ei n _ Hs)) as B1.
    pose proof (inv_sqrt_bounds _ (degree_with_self_loops ei n _ Ht)) as B2.
    fold edges in B1, B2. split; nra.
  - intros self x Hx. rewrite forward_decomposition, Hx. fold edges.
    destruct (effective_W self); [|reflexivity]. cbn [fbind].
    destruct (linear self x); [|reflexivity]. cbn [fbind].
    now rewrite Hnorm.
Qed.

(** [ADGNConv.forward] returns exactly when the shapes fit: the features
    have [in_channels] columns, the edges name nodes of [x] only, and
    [in_channels] and [out_channels] are equal or one of them is 1, the
    sum [x @ W + aggr_x] being formed with broadcasting.  What it returns
    has a row per node, and as many columns as the two numbers of channels
    broadcast to. *)
Theorem forward_returns_iff_shapes_fit
  (self : ADGNConv) (x : Tensor R) (ei : list (nat * nat)) :
  ((exists out, forward self x ei = FOk out) <->
   size1 x = in_channels self /\ edges_below ei (size0 x) /\
   (in_channels self = out_channels self \/ in_channels self = 1%nat \/
    out_channels self = 1%nat)) /\
  (forall out, forward self x ei = FOk out ->
     size0 out = size0 x /\
     broadcast_dim (in_channels self) (out_channels self) = Some (size1 out)) /\
  (in_channels self = out_channels self -> size1 x = in_channels self ->
   edges_below ei (size0 x) ->
   exists out, forward self x ei = FOk out /\
     size0 out = size0 x /\ size1 out = size1 x).
Proof.
  split; [split|split].
  - intros (out & Hout).
    destruct (forward_inv self x ei out Hout) as (Hx & Hei & _ & Hm).
    split; [exact Hx|]. split; [exact Hei|].
    apply broadcast_dim_Some_iff. congruence.
  - intros (Hx & Hei & Hio). apply broadcast_dim_Some_iff in Hio.
    destruct (broadcast_dim (in_channels self) (out_channels self)) as [m|] eqn:Hm;
      [|congruence].
    destruct (forward_Ok self x ei m Hx Hei Hm) as (out & Hout & _).
    now exists out.
  - intros out Hout.
    destruct (forward_inv self x ei out Hout) as (_ & _ & H0 & Hm). now split.
  - intros Hio Hx Hei.
    destruct (forward_Ok self x ei (in_channels self) Hx Hei) as (out & Hout & H0 & H1).
    { rewrite <- Hio. apply broadcast_dim_refl. }
    exists out. split; [exact Hout|]. split; congruence.
Qed.

(** On a graph without edges every node hears only itself: the self loop
    is its one edge, with coefficient 1, the aggregated message of a node
    is the linear image of its own features, and [forward] returns
    [x + epsilon * tanh(x @ W + linear(x) + bias)]. *)
Theorem forward_on_edgeless_graph_hears_only_itself
  (self : ADGNConv) (x : Tensor R) :
  size1 x = in_channels self -> in_channels self = out_channels self ->
  exists W xw lx out,
    effective_W self = FOk W /\ matmul x W = FOk xw /\
    linear self x = FOk lx /\ forward self x [] = FOk out /\
    size0 out = size0 x /\ size1 out = size1 x /\
    forall i j, (i < size0 x)%nat -> (j < size1 x)%nat ->
      item out i j
      = item x i j
        + epsilon self * tanh (item xw i j + item lx i j + bias_entries self j).
Proof.
  intros Hx Hio.
  assert (Hei : edges_below [] (size0 x)) by (intros e []).
  destruct (effective_W_Ok self) as (W & HW & HW0 & HW1).
  destruct (linear_Ok self x Hx) as (lx & Hlx & Hl0 & Hl1).
  destruct (normalisation_spec [] (size0 x) Hei) as (norm & Hnorm & Hsize & Hitem).
  destruct (sources_with_self_loops [] (size0 x)) as [Hsrc Hdst].
  simpl in Hsrc, Hdst, Hsize.
  assert (Hone : forall e, (e < size0 x)%nat -> vitem norm e = 1).
  { intros e He. rewrite Hitem, Hsrc, Hdst, seq_nth by exact He. simpl.
    rewrite count_in_seq. simpl.
    destruct (Nat.ltb_spec e (size0 x)); [|lia]. simpl.
    rewrite sqrt_1, Rinv_1. ring. }
  destruct (propagate_message_Ok norm (add_self_loops [] (size0 x)) lx)
    as (aggr & Haggr & Ha0 & Ha1 & Hai).
  { rewrite Hsize. unfold add_self_loops. simpl.
    now rewrite length_map, length_seq. }
  { rewrite Hl0. now apply edges_below_self_loops. }
  assert (Hself : forall i j, (i < size0 x)%nat -> (j < size1 lx)%nat ->
                    item aggr i j = item lx i j).
  { intros i j Hi Hj. rewrite (Hai i j Hj), Hsrc, Hdst.
    unfold add_self_loops. simpl. rewrite length_map, length_seq.
    rewrite (fold_left_ext_in _
               (fun acc e => if (e =? i)%nat then acc + item lx e j else acc)).
    - rewrite fold_pick_seq. simpl.
      destruct (Nat.ltb_spec i (size0 x)); [|lia]. simpl. ring.
    - intros acc e He. apply in_seq in He.
      rewrite !seq_nth by lia. simpl. rewrite Hone by lia.
      now rewrite Rmult_1_l. }
  destruct (update_same self x W aggr HW0 HW1 Hx)
    as (xw & out & Hxw & Hout & Ho0 & Ho1 & Hoi); [congruence..|].
  exists W, xw, lx, out. split; [exact HW|]. split; [exact Hxw|].
  split; [exact Hlx|]. split.
  { rewrite forward_decomposition, HW. cbn [fbind]. rewrite Hlx. cbn [fbind].
    rewrite Hnorm. cbn [fbind]. rewrite Haggr. cbn [fbind]. exact Hout. }
  split; [exact Ho0|]. split; [exact Ho1|].
  intros i j Hi Hj. rewrite Hoi by assumption.
  rewrite Hself by congruence. reflexivity.
Qed.

End ADGN_layer_statements.

Section ADGN_layer_examples.
Import Torch ADGN_Message Sample.
Open Scope R_scope.

Lemma one_edge_below : edges_below one_edge 2.
Proof. intros e [<-|[]]. simpl. lia. Qed.

Lemma self_loops_keep_every_degree_positive_witness :
  exists deg norm,
    degree (map fst (add_self_loops one_edge 2)) 2 = FOk deg /\
    (forall i, (i < 2)%nat -> 1 <= vitem deg i) /\
    normalisation one_edge 2 = FOk norm /\ vsize norm = 3%nat /\
    (forall e, (e < 3)%nat -> 0 < vitem norm e <= 1).
Proof.
  destruct (self_loops_keep_every_degree_positive one_edge 2 one_edge_below)
    as (deg & norm & Hdeg & _ & Hpos & Hnorm & Hsize & Hbound & _).
  exists deg, norm. split; [exact Hdeg|]. split.
  - intros i Hi. now apply Hpos.
  - split; [exact Hnorm|]. split; [exact Hsize|exact Hbound].
Defined.

(** A layer of two input and two output channels returns on the graph of
    two nodes; one of two input and three output channels does not. *)
Lemma forward_returns_iff_shapes_fit_witness :
  (exists out, forward (adgn_layer (1 / 10)) two_nodes one_edge = FOk out) /\
  ~ (exists out,
       forward (ADGNConv_init 2 3 (1 / 10) (1 / 10) true
                  (fun _ _ => 1) (fun _ => 1) (fun _ _ => 1))
         two_nodes one_edge = FOk out).
Proof.
  split.
  - apply (forward_returns_iff_shapes_fit (adgn_layer (1 / 10)) two_nodes one_edge).
    split; [reflexivity|]. split; [exact one_edge_below|]. now left.
  - intros Hout.
    apply (forward_returns_iff_shapes_fit
             (ADGNConv_init 2 3 (1 / 10) (1 / 10) true
                (fun _ _ => 1) (fun _ => 1) (fun _ _ => 1)) two_nodes one_edge)
      in Hout as (_ & _ & [Hio|[Hio|Hio]]); discriminate.
Defined.

Lemma forward_on_edgeless_graph_witness :
  exists W xw lx out,
    effective_W (adgn_layer (1 / 10)) = FOk W /\ matmul two_nodes W = FOk xw /\
    linear (adgn_layer (1 / 10)) two_nodes = FOk lx /\
    forward (adgn_layer (1 / 10)) two_nodes [] = FOk out /\
    forall i j, (i < 2)%nat -> (j < 2)%nat ->
      item out i j
      = item two_nodes i j + 1 / 10 * tanh (item xw i j + item lx i j + 1).
Proof.
  destruct (forward_on_edgeless_graph_hears_only_itself (adgn_layer (1 / 10))
              two_nodes eq_refl eq_refl)
    as (W & xw & lx & out & HW & Hxw & Hlx & Hout & _ & _ & Hitem).
  exists W, xw, lx, out. repeat split; assumption.
Defined.

End ADGN_layer_examples.

(** ** The antisymmetric network *)

Section ADGN_network.
Import Torch ADGN_Message.
Open Scope R_scope.

Lemma ADGN_convs_Some (h : nat) (init : Init) (steps : list Z) :
  exists convs,
    ADGN_convs (Some h) init steps = FOk convs /\
    length convs = length steps /\
    Forall (built_with_defaults h) convs.
Proof.
  induction steps as [|k steps (convs & Hc & Hlen & Hall)].
  - exists []. simpl. repeat split. constructor.
  - eexists. simpl. rewrite Hc. cbn [fbind]. split; [reflexivity|].
    split; [simpl; now rewrite Hlen|].
    constructor; [|exact Hall]. now repeat split.
Qed.

(** One layer of as many output as input channels moves every entry by at
    most the absolute value of its step size. *)
Lemma forward_residual_same (self : ADGNConv) (x : Tensor R)
  (ei : list (nat * nat)) (out : Tensor R) :
  in_channels self = out_channels self ->
  forward self x ei = FOk out ->
  size0 out = size0 x /\ size1 out = size1 x /\
  forall i j, (i < size0 x)%nat -> (j < size1 x)%nat ->
    Rabs (item out i j - item x i j) <= Rabs (epsilon self).
Proof.
  intros Hio Hf. rewrite forward_decomposition in Hf.
  apply fbind_inv in Hf as (W & HW & Hf).
  apply fbind_inv in Hf as (lx & Hlx & Hf).
  apply fbind_inv in Hf as (norm & Hnorm & Hf).
  apply fbind_inv in Hf as (aggr & Haggr & Hf).
  apply effective_W_shape in HW as [HW0 HW1].
  apply linear_inv in Hlx as (Hx & Hl0 & Hl1).
  apply propagate_message_inv in Haggr as [Ha0 Ha1].
  destruct (update_same self x W aggr HW0 HW1 Hx)
    as (xw & out' & _ & Hout' & Ho0 & Ho1 & Hoi); [congruence..|].
  assert (out' = out) by congruence. subst out'.
  split; [exact Ho0|]. split; [exact Ho1|].
  intros i j Hi Hj. rewrite Hoi by assumption. apply residual_bound.
Qed.

Lemma ADGN_init_layers (in_channels h out_channels : nat) (num_layers : Z)
  (epsilon gamma : R) (antisymmetric : bool) (init : Init) (m : ADGN) :
  ADGN_init in_channels (Some h) out_channels num_layers
    epsilon gamma antisymmetric init = FOk m ->
  adgn_emb m = Some (Linear in_channels h (init_emb init) None) /\
  length (adgn_conv m) = Z.to_nat (num_layers - 1) /\
  Forall (built_with_defaults h) (adgn_conv m).
Proof.
  unfold ADGN_init. intros Hinit.
  destruct (ADGN_convs_Some h init (range 1 num_layers)) as (convs & Hc & Hlen & Hall).
  rewrite Hc in Hinit. cbn [fbind] in Hinit. inversion Hinit; subst m.
  cbn [adgn_emb adgn_conv]. split; [reflexivity|].
  split; [now rewrite Hlen, range_length|exact Hall].
Qed.

Lemma fold_left_FErr {X Y} (f : fresult X -> Y -> fresult X) (l : list Y)
  (e : runtime_error) :
  (forall y, f (FErr e) y = FErr e) -> fold_left f l (FErr e) = FErr e.
Proof.
  intros Hf. induction l as [|y l IH]; simpl; [reflexivity|].
  now rewrite Hf.
Qed.

(** The convolutions of a network in turn, from the features [xa]. *)
Lemma conv_stack_bound (h : nat) (ei : list (nat * nat)) (convs : list ADGNConv) :
  Forall (built_with_defaults h) convs ->
  forall (o : option (Tensor R)) (xa : Tensor R) (r : option (Tensor R) * Tensor R),
  fold_left
    (fun acc conv =>
       let* s := acc in
       let* x' := forward conv (snd s) ei in
       FOk (Some x', x'))
    convs (FOk (o, xa)) = FOk r ->
  size0 (snd r) = size0 xa /\ size1 (snd r) = size1 xa /\
  (forall i j, (i < size0 xa)%nat -> (j < size1 xa)%nat ->
     Rabs (item (snd r) i j - item xa i j) <= INR (length convs) * (1 / 10)) /\
  (convs = [] -> r = (o, xa)) /\
  (convs <> [] -> fst r = Some (snd r)).
Proof.
  induction 1 as [|c convs Hc Hall IH]; intros o xa r Hfold.
  - simpl in Hfold. inversion Hfold; subst r. simpl.
    repeat split; try congruence.
    intros i j _ _. rewrite Rminus_diag, Rabs_R0. lra.
  - cbn [fold_left fbind snd] in Hfold.
    destruct (forward c xa ei) as [x'|e] eqn:Hfwd; cbn [fbind] in Hfold.
    2:{ rewrite fold_left_FErr in Hfold by reflexivity. discriminate. }
    destruct Hc as (Hin & Hout & _ & Heps & _).
    destruct (forward_residual_same c xa ei x') as (H0 & H1 & Hb);
      [congruence|exact Hfwd|].
    apply IH in Hfold as (Hr0 & Hr1 & Hrb & Hnil & Hne).
    split; [congruence|]. split; [congruence|]. split; [|split].
    + intros i j Hi Hj.
      specialize (Hrb i j). rewrite H0, H1 in Hrb. specialize (Hrb Hi Hj).
      specialize (Hb i j Hi Hj). rewrite Heps in Hb.
      rewrite (Rabs_right (1 / 10)) in Hb by lra.
      replace (item (snd r) i j - item xa i j)
        with ((item (snd r) i j - item x' i j) + (item x' i j - item xa i j))
        by ring.
      eapply Rle_trans; [apply Rabs_triang|].
      change (length (c :: convs)) with (S (length convs)).
      rewrite S_INR. lra.
    + discriminate.
    + intros _. destruct convs as [|c' convs'].
      * now rewrite Hnil.
      * now apply Hne.
Qed.

End ADGN_network.

Section ADGN_network_statements.
Import Torch ADGN_Message.
Open Scope R_scope.


(** [ADGN.forward] on a model of hidden dimension [h] built by the
    constructor, in exact real arithmetic (the [epsilon = 0.1] of the
    layers read as 1/10, no rounding): the features are embedded, and
    every convolution moves every entry by at most a tenth, whatever
    [epsilon] the model was built with; so the embedding returned, the
    output of the last of the [num_layers - 1] convolutions, has the shape
    of the embedded features and differs from them by at most
    [(num_layers - 1) / 10] entry by entry.  With [num_layers] below 2
    there is no convolution: the embedding returned is [None] and the
    prediction is the output layer on the embedded features. *)
Theorem ADGN_forward_moves_features_by_a_tenth_per_layer
  (in_channels h out_channels : nat) (num_layers : Z) (epsilon gamma : R)
  (antisymmetric : bool) (init : Init) (m : ADGN) (d : Data R)
  (emb : option (Tensor R)) (out : Tensor R) :
  ADGN_init in_channels (Some h) out_channels num_layers
    epsilon gamma antisymmetric init = FOk m ->
  ADGN_forward m d = FOk (emb, out) ->
  exists x0 x1,
    x d = Some x0 /\
    Linear in_channels h (init_emb init) None x0 = FOk x1 /\
    ((num_layers <= 1)%Z -> emb = None /\ adgn_linear m x1 = FOk out) /\
    ((2 <= num_layers)%Z ->
     exists e, emb = Some e /\
       size0 e = size0 x1 /\ size1 e = size1 x1 /\
       (forall i j, (i < size0 x1)%nat -> (j < size1 x1)%nat ->
          Rabs (item e i j - item x1 i j) <= IZR (num_layers - 1) / 10) /\
       adgn_linear m e = FOk out).
Proof.
  intros Hinit Hfwd.
  destruct (ADGN_init_layers in_channels h out_channels num_layers
              epsilon gamma antisymmetric init m Hinit)
    as (Hemb & Hlen & Hall).
  unfold ADGN_forward in Hfwd. rewrite Hemb in Hfwd.
  destruct (x d) as [x0|]; [|discriminate].
  apply fbind_inv in Hfwd as (x1 & Hx1 & Hfwd).
  apply fbind_inv in Hfwd as (r & Hr & Hfwd).
  apply fbind_inv in Hfwd as (y & Hy & Hfwd).
  inversion Hfwd; subst emb out. clear Hfwd.
  apply (conv_stack_bound h (edge_index d) (adgn_conv m) Hall) in Hr
    as (Hr0 & Hr1 & Hrb & Hnil & Hne).
  exists x0, x1. split; [reflexivity|]. split; [exact Hx1|]. split.
  - intros Hle. assert (Hc : adgn_conv m = []).
    { apply length_zero_iff_nil. rewrite Hlen. lia. }
    rewrite (Hnil Hc) in *. now split.
  - intros Hge. exists (snd r). split; [|split; [|split; [|split]]].
    + apply Hne. intros Hc. rewrite Hc in Hlen. simpl in Hlen. lia.
    + exact Hr0.
    + exact Hr1.
    + intros i j Hi Hj. eapply Rle_trans; [apply (Hrb i j Hi Hj)|].
      rewrite Hlen, INR_IZR_INZ, Z2Nat.id by lia. lra.
    + exact Hy.
Qed.

End ADGN_network_statements.

Section ADGN_network_examples.
Import Torch ADGN_Message Sample.
Open Scope R_scope.

(** A network of three layers, that is of two convolutions, built with
    [epsilon = 0.5], on the graph of two nodes. *)
Lemma adgn_network_runs :
  exists m emb out,
    ADGN_init 2 (Some 2%nat) 2 3 (1 / 2) (1 / 2) false adgn_init = FOk m /\
    ADGN_forward m real_graph = FOk (emb, out).
Proof.
  eexists. eexists. eexists. split; [reflexivity|].
  cbv -[Rplus Rmult Ropp Rinv Rdiv Rminus sqrt INR tanh IZR]. reflexivity.
Qed.

Lemma ADGN_forward_moves_features_witness :
  exists m emb out x1 e,
    ADGN_init 2 (Some 2%nat) 2 3 (1 / 2) (1 / 2) false adgn_init = FOk m /\
    ADGN_forward m real_graph = FOk (emb, out) /\
    Linear 2 2 (init_emb adgn_init) None two_nodes = FOk x1 /\
    emb = Some e /\
    forall i j, (i < size0 x1)%nat -> (j < size1 x1)%nat ->
      Rabs (item e i j - item x1 i j) <= 2 / 10.
Proof.
  destruct adgn_network_runs as (m & emb & out & Hinit & Hfwd).
  destruct (ADGN_forward_moves_features_by_a_tenth_per_layer
              _ _ _ _ _ _ _ _ _ _ _ _ Hinit Hfwd)
    as (x0 & x1 & Hx0 & Hx1 & _ & Hdeep).
  destruct Hdeep as (e & He & _ & _ & Hbound & _); [lia|].
  injection Hx0 as <-.
  exists m, emb, out, x1, e.
  split; [exact Hinit|]. split; [exact Hfwd|]. split; [exact Hx1|].
  split; [exact He|exact Hbound].
Defined.

End ADGN_network_examples.

(** ** The gated network: construction and the channel guard *)

Section GGNN_model.
Import Torch GGNN_Train.
Context {A : Type} `{Scalar A} `{!Framework A} {V : Type} `{!Telemetry V}.

(** What [GGNN.__init__] builds. *)
Lemma GGNN_init_model (num_classes in_channels : nat) (out_channels : option nat)
  (num_conv : Z) (hidden_dim mlp_hdim mlp_hlayers : nat)
  (self : GGNN A) (w w' : World V output) :
  GGNN_init num_classes in_channels out_channels num_conv
    hidden_dim mlp_hdim mlp_hlayers w = Ok (self, w') ->
  let out := default in_channels out_channels in
  emb self = (if in_channels =? out then None
              else Some (Linear in_channels hidden_dim false)) /\
  GGNN_Train.out_channels (conv self) = out /\
  (0 <= num_conv)%Z /\
  num_layers (conv self) = Z.to_nat num_conv /\
  best_acc self = (-1)%Q /\
  stdout w' = stdout w ++ (if in_channels =? out then [] else [OutMismatch]) /\
  fs w' = fs w.
Proof.
  intros Hi out. unfold GGNN_init in Hi. fold out in Hi.
  apply bind_inv_Ok in Hi as (e & w2 & He & Hi).
  apply bind_inv_Ok in Hi as (c & w3 & Hc & Hi).
  apply lift_inv_Ok in Hc as [Hc ->].
  unfold GatedGraphConv_init in Hc.
  destruct (num_conv <? 0)%Z eqn:Hneg; [discriminate|].
  inversion Hc; subst c. clear Hc. apply Z.ltb_ge in Hneg.
  unfold ret in Hi. inversion Hi; subst self w'. clear Hi. cbn [emb conv best_acc
    GGNN_Train.out_channels num_layers].
  destruct (in_channels =? out).
  - unfold ret in He. inversion He; subst. rewrite app_nil_r. now repeat split.
  - apply bind_inv_Ok in He as ([] & w4 & Hp & He).
    rewrite print_Ok in Hp. inversion Hp; subst w4.
    unfold ret in He. inversion He; subst. now repeat split.
Qed.

End GGNN_model.

Section GGNN_model_statements.
Import Torch GGNN_Train.
Context {A : Type} `{Scalar A} `{!Framework A} {V : Type} `{!Telemetry V}.

(** When a [GGNN] raises the error of the channel guard.  The embedding
    layer, present when [in_channels] differs from [out_channels], maps to
    [hidden_dim] features, not to [out_channels]: on an input of
    [in_channels] features [forward] raises the [ValueError] exactly when
    there is an embedding layer, it accepts the input, and [hidden_dim]
    is larger than [out_channels].  No other authored error is raised, and
    none at all when [hidden_dim] equals [out_channels], as in the model
    that [train] builds. *)
Theorem GGNN_forward_channel_error_iff
  (num_classes in_channels : nat) (out_channels : option nat) (num_conv : Z)
  (hidden_dim mlp_hdim mlp_hlayers : nat) (w w' : World V output)
  (self : GGNN A) (data d : Data A) (t : Tensor A) (log : list call) :
  linear_contract ->
  GGNN_init num_classes in_channels out_channels num_conv
    hidden_dim mlp_hdim mlp_hlayers w = Ok (self, w') ->
  x d = Some t -> size1 t = in_channels ->
  let out := default in_channels out_channels in
  (GGNN_forward data self d log = Raise (ValueError channel_error) <->
   in_channels <> out /\ out < hidden_dim /\
   exists t', Linear in_channels hidden_dim false t = FOk t') /\
  (forall e, GGNN_forward data self d log = Raise e -> authored e = true ->
             e = ValueError channel_error) /\
  (hidden_dim = out ->
   forall e, GGNN_forward data self d log = Raise e -> authored e = false).
Proof.
  intros Hlin Hinit Hxd Ht out.
  destruct (GGNN_init_model _ _ _ _ _ _ _ _ _ _ Hinit) as (Hemb & Hout & _).
  fold out in Hemb, Hout.
  assert (Hauth : forall e, GGNN_forward data self d log = Raise e ->
                    authored e = true -> e = ValueError channel_error).
  { intros e He. exact (GGNN_forward_raises_only_guard data self d log e He). }
  assert (Hiff : GGNN_forward data self d log = Raise (ValueError channel_error) <->
                 in_channels <> out /\ out < hidden_dim /\
                 exists t', Linear in_channels hidden_dim false t = FOk t').
  { unfold GGNN_forward. rewrite Hemb, Hxd.
    destruct (Nat.eqb_spec in_channels out) as [Heq|Hne].
    - split.
      + intros He. exfalso.
        apply bind_inv_Raise in He as [He|(x1 & l1 & Hx1 & He)]; [discriminate|].
        apply lift_inv_Ok in Hx1 as [Hx1 ->]. inversion Hx1; subst x1.
        apply bind_inv_Raise in He as [He|(x2 & l2 & _ & He)].
        * apply forward_authored_only_guard in He as [Hlt _]; [|reflexivity]. lia.
        * apply bind_inv_Raise in He as [He|(x3 & l3 & _ & He)];
            [now apply lift_not_authored in He|].
          apply bind_inv_Raise in He as [He|(x4 & l4 & _ & He)];
            [now apply lift_not_authored in He|discriminate].
      + intros (Hne & _). congruence.
    - split.
      + intros He. split; [exact Hne|].
        apply bind_inv_Raise in He as [He|(x1 & l1 & Hx1 & He)];
          [now apply lift_not_authored in He|].
        apply lift_inv_Ok in Hx1 as [Hx1 ->].
        apply bind_inv_Raise in He as [He|(x2 & l2 & _ & He)].
        * apply forward_authored_only_guard in He as [Hlt _]; [|reflexivity].
          rewrite (Hlin _ _ _ _ _ Hx1), Hout in Hlt.
          split; [exact Hlt|now exists x1].
        * apply bind_inv_Raise in He as [He|(x3 & l3 & _ & He)];
            [now apply lift_not_authored in He|].
          apply bind_inv_Raise in He as [He|(x4 & l4 & _ & He)];
            [now apply lift_not_authored in He|discriminate].
      + intros (_ & Hlt & t' & Ht').
        rewrite (bind_Ok _ _ _ _ _ (lift_FOk _ _ log Ht')).
        apply bind_Raise. apply forward_guard.
        rewrite (Hlin _ _ _ _ _ Ht'), Hout. exact Hlt. }
  split; [exact Hiff|]. split; [exact Hauth|].
  intros Hhid e He. destruct (authored e) eqn:Ha; [|reflexivity].
  rewrite (Hauth e He Ha) in He. apply Hiff in He as (_ & Hlt & _). lia.
Qed.

(** A negative [--conv] passes the parser, and the script then fails while
    it builds the model: [GGNN.__init__] raises on the creation of a
    weight tensor with a negative first dimension, whatever its other
    arguments are; [train], which builds the model before its loop, raises
    this error on every data set with a graph and a feature matrix,
    whatever the number of epochs is; and so does the script, which
    raises nothing but a runtime error on any data set. *)
Theorem main_fails_on_negative_conv
  (content : Dataset A) (argv : list string) (args : Namespace.t)
  (w : World V output) :
  parse_args argv = FOk args -> (Namespace.conv args < 0)%Z ->
  (forall (num_classes in_channels : nat) (out_channels : option nat)
          (hidden_dim mlp_hdim mlp_hlayers : nat) (u : World V output),
     GGNN_init num_classes in_channels out_channels (Namespace.conv args)
       hidden_dim mlp_hdim mlp_hlayers u
     = Raise (Runtime NegativeDimension)) /\
  (forall (dataset0 : Dataset A) (data : Data A) (ds : Dataset A) (epochs : Z)
          (u : World V output),
     graphs ds <> [] -> dataset_x ds <> None ->
     train dataset0 data ds epochs (Namespace.conv args) u
     = Raise (Runtime NegativeDimension)) /\
  (exists e, main content argv w = Raise (Runtime e)) /\
  (graphs content <> [] -> dataset_x content <> None ->
   main content argv w = Raise (Runtime NegativeDimension)).
Proof.
  intros Hargs Hneg. apply Z.ltb_lt in Hneg.
  assert (Hinit : forall (num_classes in_channels : nat) (out_channels : option nat)
                    (hidden_dim mlp_hdim mlp_hlayers : nat) (u : World V output),
             GGNN_init num_classes in_channels out_channels (Namespace.conv args)
               hidden_dim mlp_hdim mlp_hlayers u
             = Raise (Runtime NegativeDimension)).
  { intros nc ic oc hd md ml u. unfold GGNN_init, GatedGraphConv_init.
    rewrite Hneg. destruct (ic =? _); reflexivity. }
  assert (Htrain : forall (dataset0 : Dataset A) (data : Data A) (ds : Dataset A)
                     (epochs : Z) (u : World V output),
             graphs ds <> [] -> dataset_x ds <> None ->
             train dataset0 data ds epochs (Namespace.conv args) u
             = Raise (Runtime NegativeDimension)).
  { intros dataset0 data ds epochs u Hd Ht. unfold train, DataLoader_init.
    destruct (graphs ds) as [|d rest] eqn:Hg; [congruence|].
    destruct (dataset_x ds) as [t|]; [|congruence].
    cbn [length Nat.eqb andb]. unfold bind at 1. unfold lift at 1.
    unfold bind at 1. unfold lift at 1.
    apply bind_Raise. apply Hinit. }
  assert (Hmain : graphs content <> [] -> dataset_x content <> None ->
                  main content argv w = Raise (Runtime NegativeDimension)).
  { intros Hd Ht. unfold main. rewrite (bind_Ok _ _ _ _ _ (Planetoid_Ok _ _ _ _)).
    cbv beta. destruct (graphs content) as [|d rest] eqn:Hg; [congruence|].
    unfold bind at 1. unfold lift at 1. unfold bind at 1. rewrite print_Ok.
    rewrite Hargs. unfold bind at 1. unfold lift at 1.
    apply bind_Raise. apply Htrain; [now rewrite Hg|exact Ht]. }
  split; [exact Hinit|]. split; [exact Htrain|]. split; [|exact Hmain].
  destruct (graphs content) as [|d rest] eqn:Hd.
  - exists IndexError. unfold main.
    rewrite (bind_Ok _ _ _ _ _ (Planetoid_Ok _ _ _ _)). cbv beta.
    rewrite Hd. reflexivity.
  - destruct (dataset_x content) as [t|] eqn:Ht.
    + exists NegativeDimension. apply Hmain; discriminate.
    + exists AttributeError. unfold main.
      rewrite (bind_Ok _ _ _ _ _ (Planetoid_Ok _ _ _ _)). cbv beta.
      rewrite Hd.
      unfold bind at 1. unfold lift at 1. unfold bind at 1. rewrite print_Ok.
      rewrite Hargs. unfold bind at 1. unfold lift at 1.
      apply bind_Raise. unfold train, DataLoader_init. rewrite Hd, Ht. reflexivity.
Qed.

End GGNN_model_statements.

Section GGNN_model_examples.
Import Torch GGNN_Train Sample.

Lemma sample_linear_contract : linear_contract (A := Z).
Proof.
  intros n_in n_out b t t' Ht. simpl in Ht. unfold keep_layer in Ht.
  destruct (size1 t =? n_in); [|discriminate]. now inversion Ht.
Qed.

(** A model of two input channels and three output channels, with the
    default hidden dimension of 32: the embedding has 32 features, more
    than the layer takes. *)
Lemma GGNN_forward_channel_error_witness :
  exists self w',
    GGNN_init 2 2 (Some 3) 1 32 32 3 empty_world = Ok (self, w') /\
    GGNN_forward graph self graph [] = Raise (ValueError channel_error).
Proof.
  eexists. eexists. split; [reflexivity|].
  destruct (GGNN_forward_channel_error_iff 2 2 (Some 3) 1 32 32 3
              empty_world _ _ graph graph features []
              sample_linear_contract eq_refl eq_refl eq_refl) as [Hiff _].
  apply Hiff. split; [discriminate|]. split; [simpl; lia|].
  eexists. reflexivity.
Defined.

(** The model of [train], with 32 output channels and 32 hidden ones,
    runs on the same graph. *)
Example GGNN_forward_of_train_model_runs :
  match GGNN_init 2 2 (Some 32) 1 32 32 3 empty_world with
  | Ok (self, _) =>
      match GGNN_forward graph self graph [] with
      | Ok _ => True
      | Raise _ => False
      end
  | Raise _ => False
  end.
Proof. vm_compute. exact I. Qed.

Lemma main_fails_on_negative_conv_witness :
  main one_graph ["--conv"; "-1"]%string empty_world
  = Raise (Runtime NegativeDimension) /\
  train one_graph graph one_graph 0 (-1) empty_world
  = Raise (Runtime NegativeDimension).
Proof.
  destruct (main_fails_on_negative_conv one_graph ["--conv"; "-1"]%string
              (Namespace.mk 100 (-1)) empty_world eq_refl)
    as (_ & Htrain & _ & Hfail); [simpl; lia|].
  split.
  - apply Hfail; discriminate.
  - apply (Htrain one_graph graph one_graph 0%Z empty_world); discriminate.
Defined.

End GGNN_model_examples.

(** ** The gated network: what the training loop reports *)

Section GGNN_reports.
Import Torch GGNN_Train.
Context {A : Type} `{Scalar A} `{!Framework A} {V : Type} `{!Telemetry V}.

Lemma py_max_le_l (a b : Q) : (a <= py_max a b)%Q.
Proof.
  unfold py_max. destruct (Qle_bool b a) eqn:Hba.
  - apply Qle_refl.
  - apply Qlt_le_weak. apply Qnot_le_lt. intros Hle.
    apply Qle_bool_iff in Hle. congruence.
Qed.

Lemma py_max_le_r (a b : Q) : (b <= py_max a b)%Q.
Proof.
  unfold py_max. destruct (Qle_bool b a) eqn:Hba.
  - now apply Qle_bool_iff.
  - apply Qle_refl.
Qed.

Lemma accs_le_refl (a : Q * Q * Q) : accs_le a a.
Proof. unfold accs_le. repeat split; apply Qle_refl. Qed.

Lemma accs_le_trans (a b c : Q * Q * Q) : accs_le a b -> accs_le b c -> accs_le a c.
Proof.
  unfold accs_le. intros (H1 & H2 & H3) (H4 & H5 & H6).
  repeat split; eapply Qle_trans; eassumption.
Qed.

Lemma reports_app (l l' : list output) : reports (l ++ l') = reports l ++ reports l'.
Proof. unfold reports. apply flat_map_app. Qed.

(** A training step changes neither the best accuracies nor the last
    ones, nor the best accuracy kept in the model. *)
Lemma train_batch_accs (data b : Data A) (st st' : TrainState A V) (w w' : World V output) :
  train_batch data b st w = Ok (st', w') ->
  best st' = best st /\ accs st' = accs st /\
  best_acc (model st') = best_acc (model st).
Proof.
  unfold train_batch. intros Ht.
  apply bind_inv_Ok in Ht as (out & w1 & _ & Ht).
  apply bind_inv_Ok in Ht as (pred & w2 & _ & Ht).
  apply bind_inv_Ok in Ht as (label & w3 & _ & Ht).
  unfold ret in Ht. inversion Ht; subst. now repeat split.
Qed.

(** An evaluation raises the best accuracies to the accuracies it
    measures, and keeps the best test accuracy in the model. *)
Lemma eval_batch_accs (data d : Data A) (st st' : TrainState A V) (w w' : World V output) :
  eval_batch data d st w = Ok (st', w') ->
  accs_le (best st) (best st') /\
  exists a, accs st' = Some a /\ accs_le a (best st') /\
            best_acc (model st') = snd (best st').
Proof.
  unfold eval_batch. intros Ht.
  apply bind_inv_Ok in Ht as (out & w1 & _ & Ht).
  apply bind_inv_Ok in Ht as (a1 & w2 & _ & Ht).
  apply bind_inv_Ok in Ht as (a2 & w3 & _ & Ht).
  apply bind_inv_Ok in Ht as (a3 & w4 & _ & Ht).
  unfold ret in Ht. inversion Ht; subst st' w'. clear Ht.
  cbn [best accs model best_acc]. split.
  - unfold accs_le. cbn [fst snd]. repeat split; apply py_max_le_l.
  - exists (a1, a2, a3). split; [reflexivity|]. split; [|reflexivity].
    unfold accs_le. cbn [fst snd]. repeat split; apply py_max_le_r.
Qed.

(** One epoch of [train], as far as the accuracies go. *)
Lemma train_epoch_report (data : Data A) (loader : DataLoader A) (epoch : Z)
  (st st' : TrainState A V) (w w' : World V output) :
  train_epoch data loader epoch st w = Ok (st', w') ->
  settled_state st ->
  settled_state st' /\ accs_le (best st) (best st') /\
  (tenth epoch = false ->
     reports (stdout w') = reports (stdout w) /\
     best st' = best st /\ accs st' = accs st /\
     best_acc (model st') = best_acc (model st)) /\
  (tenth epoch = true ->
     exists a, reports (stdout w') = reports (stdout w) ++ [(epoch, a)] /\
       accs st' = Some a /\ accs_le a (best st') /\
       best_acc (model st') = snd (best st')).
Proof.
  unfold train_epoch, tenth. intros Ht Hset.
  apply bind_inv_Ok in Ht as ([] & w1 & Hp & Ht).
  rewrite print_Ok in Hp. inversion Hp; subst w1. clear Hp.
  apply bind_inv_Ok in Ht as (st1 & w2 & Hloop & Ht).
  apply (for_each_keeps
           (fun (s : TrainState A V) (v : World V output) =>
              v = mkWorld (fs w) (stdout w ++ [OutProcessingEpoch epoch]) /\
              best s = best st /\ accs s = accs st /\
              best_acc (model s) = best_acc (model st)))
    in Hloop; [| |now repeat split].
  2:{ intros b s v s1 v1 (-> & Hb1 & Hb2 & Hb3) Hb.
      pose proof (train_batch_accs _ _ _ _ _ _ Hb) as (Hc1 & Hc2 & Hc3).
      apply train_batch_frame in Hb as (-> & _).
      repeat split; congruence. }
  destruct Hloop as (-> & Hb1 & Ha1 & Hm1).
  apply bind_inv_Ok in Ht as (st2 & w3 & Hdiv & Ht).
  assert (Hst2 : w3 = mkWorld (fs w) (stdout w ++ [OutProcessingEpoch epoch]) /\
                 best st2 = best st /\ accs st2 = accs st /\
                 best_acc (model st2) = best_acc (model st)).
  { destruct (length (graphs (dataset loader)) =? 0); [discriminate|].
    unfold ret in Hdiv. inversion Hdiv; subst. now repeat split. }
  destruct Hst2 as (-> & Hb2 & Ha2 & Hm2). clear Hdiv.
  assert (Hset2 : settled_state st2).
  { intros a Ha. rewrite Hb2, Hm2. apply Hset. congruence. }
  assert (Hout : reports (stdout w ++ [OutProcessingEpoch epoch]) = reports (stdout w)).
  { rewrite reports_app. simpl. now rewrite app_nil_r. }
  destruct (epoch mod 10 =? 0)%Z.
  - apply bind_inv_Ok in Ht as (st3 & w4 & Heval & Ht).
    apply (for_each_keeps
             (fun (s : TrainState A V) (v : World V output) =>
                v = mkWorld (fs w) (stdout w ++ [OutProcessingEpoch epoch]) /\
                accs_le (best st2) (best s) /\ settled_state s))
      in Heval; [| |split; [reflexivity|split; [apply accs_le_refl|exact Hset2]]].
    2:{ intros b s v s1 v1 (-> & Hle & _) Hb.
        pose proof (eval_batch_accs _ _ _ _ _ _ Hb) as (Hle' & a & Ha & Hab & Hm).
        apply eval_batch_frame in Hb as (-> & _).
        split; [reflexivity|]. split; [now apply (accs_le_trans _ (best s))|].
        intros a' Ha'. assert (a' = a) by congruence. subst a'. now split. }
    destruct Heval as (-> & Hle3 & Hset3).
    destruct (accs st3) as [[[a1 a2] a3]|] eqn:Ha3; [|discriminate].
    apply bind_inv_Ok in Ht as ([] & w5 & Hp & Ht).
    rewrite print_Ok in Hp. inversion Hp; subst w5. clear Hp.
    unfold ret in Ht. inversion Ht; subst st' w'. clear Ht.
    split; [exact Hset3|]. split; [now rewrite <- Hb2|].
    split; [discriminate|]. intros _.
    exists (a1, a2, a3). cbn [stdout]. rewrite reports_app, Hout.
    split; [reflexivity|]. split; [exact Ha3|]. now apply Hset3.
  - unfold ret in Ht. inversion Ht; subst st' w'. clear Ht.
    split; [exact Hset2|]. split; [rewrite Hb2; apply accs_le_refl|].
    split; [|discriminate]. intros _. cbn [stdout]. now repeat split.
Qed.

Lemma load_requirements_reports (d : gmap string V) (w w1 : World V output) :
  load_requirements w = Ok (d, w1) -> reports (stdout w1) = reports (stdout w).
Proof.
  unfold load_requirements. intros Hl.
  apply bind_inv_Ok in Hl as (w0 & w2 & Hg & Hl).
  unfold get in Hg. inversion Hg; subst w0 w2. clear Hg.
  destruct (fs w !! file_path) as [f|].
  - apply bind_inv_Ok in Hl as ([] & w3 & Hp & Hl).
    rewrite print_Ok in Hp. inversion Hp; subst w3. clear Hp.
    destruct f as [d'| | |]; try discriminate.
    unfold ret in Hl. inversion Hl; subst. simpl.
    rewrite reports_app. simpl. now rewrite app_nil_r.
  - apply bind_inv_Ok in Hl as ([] & w3 & Hp & Hl).
    rewrite print_Ok in Hp. inversion Hp; subst w3. clear Hp.
    unfold ret in Hl. inversion Hl; subst. simpl.
    rewrite reports_app. simpl. now rewrite app_nil_r.
Qed.

Lemma filter_tenth_short (epochs : Z) :
  (epochs < 10)%Z -> List.filter tenth (range 1 (epochs + 1)) = [].
Proof.
  intros Hlt.
  assert (Hall : forall l, (forall e, In e l -> (1 <= e < 10)%Z) ->
                           List.filter tenth l = []).
  { induction l as [|e l IH]; intros Hl; [reflexivity|]. simpl.
    assert (He : (1 <= e < 10)%Z) by (apply Hl; now left).
    unfold tenth at 1. rewrite Z.mod_small by lia.
    destruct (Z.eqb_spec e 0); [lia|]. apply IH. intros e' He'. apply Hl. now right. }
  apply Hall. intros e He. apply in_range in He. lia.
Qed.

Lemma filter_tenth_long (epochs : Z) :
  (10 <= epochs)%Z -> List.filter tenth (range 1 (epochs + 1)) <> [].
Proof.
  intros Hge Hnil.
  assert (Hin : In 10%Z (List.filter tenth (range 1 (epochs + 1)))).
  { apply filter_In. split; [apply in_range; lia|reflexivity]. }
  rewrite Hnil in Hin. destruct Hin.
Qed.

(** A run of [train] that completes, as far as the accuracies go. *)
Lemma train_reports (dataset0 : Dataset A) (data : Data A) (ds : Dataset A)
  (epochs num_conv : Z) (m : GGNN A) (w w' : World V output) :
  train dataset0 data ds epochs num_conv w = Ok (m, w') ->
  exists rs b,
    reports (stdout w') = reports (stdout w) ++ rs /\
    map fst rs = List.filter tenth (range 1 (epochs + 1)) /\
    Forall (fun r => accs_le (snd r) b) rs /\
    accs_le (0, 0, 0)%Q b /\
    List.last (stdout w') OutData = OutBest (fst (fst b)) (snd (fst b)) (snd b) /\
    (rs = [] -> b = (0, 0, 0)%Q /\ best_acc m = (-1)%Q) /\
    (rs <> [] -> best_acc m = snd b).
Proof.
  unfold train. intros Ht.
  apply bind_inv_Ok in Ht as (loader & w0 & Hloader & Ht).
  apply lift_inv_Ok in Hloader as [_ ->].
  apply bind_inv_Ok in Ht as (in_channels & w1 & Hin & Ht).
  apply lift_inv_Ok in Hin as [_ ->].
  apply bind_inv_Ok in Ht as (m0 & w2 & Hinit & Ht).
  apply GGNN_init_model in Hinit as (_ & _ & _ & _ & Hbest0 & Hout2 & _).
  apply bind_inv_Ok in Ht as (reqs & w3 & Hload & Ht).
  apply load_requirements_reports in Hload as Hout3.
  apply bind_inv_Ok in Ht as ([] & w4 & Hp & Ht).
  rewrite print_Ok in Hp. inversion Hp; subst w4. clear Hp.
  apply bind_inv_Ok in Ht as (st & w5 & Hloop & Ht).
  set (Q := fun (pre : list Z) (s : TrainState A V) (v : World V output) =>
              exists rs,
                reports (stdout v) = reports (stdout w) ++ rs /\
                map fst rs = List.filter tenth pre /\
                Forall (fun r => accs_le (snd r) (best s)) rs /\
                accs_le (0, 0, 0)%Q (best s) /\
                settled_state s /\
                (rs = [] -> accs s = None /\ best s = (0, 0, 0)%Q /\
                            best_acc (model s) = (-1)%Q) /\
                (rs <> [] -> best_acc (model s) = snd (best s))).
  assert (Hstep : forall pre e s v s1 v1,
            Q pre s v ->
            train_epoch data loader e s v = Ok (s1, v1) ->
            Q (pre ++ [e]) s1 v1).
  { intros pre e s v s1 v1 (rs & Hr & Hmap & Hall & H0 & Hset & Hnil & Hne) Hb.
    apply train_epoch_report in Hb as (Hset1 & Hle & Hno & Hyes); [|exact Hset].
    unfold Q. rewrite List.filter_app. simpl. destruct (tenth e) eqn:He.
    - destruct (Hyes eq_refl) as (a & Hr1 & Ha & Hab & Hm).
      exists (rs ++ [(e, a)]). split; [now rewrite Hr1, Hr, <- app_assoc|].
      split; [now rewrite map_app, Hmap|]. split.
      { apply List.Forall_app. split.
        - eapply List.Forall_impl; [|exact Hall]. intros r Hr0.
          now apply (accs_le_trans _ (best s)).
        - constructor; [exact Hab|constructor]. }
      split; [now apply (accs_le_trans _ (best s))|]. split; [exact Hset1|].
      split; [intros Hnil'; now destruct rs|]. intros _. exact Hm.
    - destruct (Hno eq_refl) as (Hr1 & Hb1 & Ha1 & Hm1).
      exists rs. rewrite app_nil_r, Hb1, Ha1, Hm1, Hr1.
      split; [exact Hr|]. split; [exact Hmap|]. split; [exact Hall|].
      split; [exact H0|]. split; [exact Hset1|]. split; [exact Hnil|exact Hne]. }
  apply (for_each_steps Q _ Hstep _ []) in Hloop.
  - destruct Hloop as (rs & Hr & Hmap & Hall & H0 & _ & Hnil & Hne).
    apply bind_inv_Ok in Ht as ([] & w6 & Hp & Ht).
    rewrite print_Ok in Hp. inversion Hp; subst w6. clear Hp.
    apply bind_inv_Ok in Ht as ([] & w7 & Hp & Ht).
    rewrite print_Ok in Hp. inversion Hp; subst w7. clear Hp.
    apply bind_inv_Ok in Ht as ([] & w8 & Hw & Ht).
    unfold write_file, modify in Hw. inversion Hw; subst w8. clear Hw.
    unfold ret in Ht. inversion Ht; subst m w'. clear Ht. cbn [stdout].
    exists rs, (best st). split.
    { rewrite !reports_app, Hr. simpl. now rewrite !app_nil_r. }
    split; [exact Hmap|]. split; [exact Hall|]. split; [exact H0|]. split.
    { apply last_last. }
    split; [intros Hrs; now destruct (Hnil Hrs) as (_ & Hb & Hm)|exact Hne].
  - exists []. cbn [stdout best accs model]. rewrite reports_app, Hout3, Hout2.
    rewrite reports_app. split.
    { destruct (_ =? _); simpl; now rewrite !app_nil_r. }
    split; [reflexivity|]. split; [constructor|]. split; [apply accs_le_refl|].
    split; [intros a Ha; discriminate|]. split; [now repeat split|]. now intros [].
Qed.

End GGNN_reports.

Section GGNN_reports_statements.
Import Torch GGNN_Train.
Context {A : Type} `{Scalar A} `{!Framework A} {V : Type} `{!Telemetry V}.

(** The epochs of [GGNN_Train.train] are counted from 1 and the model is
    evaluated when [epoch % 10 == 0]: a run that completes printed its
    report for the epochs 10, 20, ... up to [epochs], in this order and
    for no other, and a run of fewer than ten epochs printed none. *)
Theorem train_reports_every_tenth_epoch
  (dataset0 : Dataset A) (data : Data A) (ds : Dataset A)
  (epochs num_conv : Z) (m : GGNN A) (w w' : World V output) :
  train dataset0 data ds epochs num_conv w = Ok (m, w') ->
  map fst (reports (stdout w'))
  = map fst (reports (stdout w)) ++ List.filter tenth (range 1 (epochs + 1)) /\
  ((epochs < 10)%Z -> reports (stdout w') = reports (stdout w)).
Proof.
  intros Hrun.
  destruct (train_reports _ _ _ _ _ _ _ _ Hrun) as (rs & b & Hr & Hmap & _).
  split; [now rewrite Hr, map_app, Hmap|].
  intros Hlt. rewrite (filter_tenth_short epochs Hlt) in Hmap.
  destruct rs; [|discriminate]. now rewrite Hr, app_nil_r.
Qed.

(** The best accuracies that [train] prints at its end are not negative
    and not below the accuracies of any report of the run; the model
    returned keeps the best test accuracy in [best_acc].  After fewer than
    ten epochs there was no evaluation: the best accuracies printed are
    all zero and [best_acc] is still the -1 of the constructor. *)
Theorem train_best_accuracies_dominate_reports
  (dataset0 : Dataset A) (data : Data A) (ds : Dataset A)
  (epochs num_conv : Z) (m : GGNN A) (w w' : World V output) :
  train dataset0 data ds epochs num_conv w = Ok (m, w') ->
  exists rs b1 b2 b3,
    reports (stdout w') = reports (stdout w) ++ rs /\
    List.last (stdout w') OutData = OutBest b1 b2 b3 /\
    (0 <= b1 /\ 0 <= b2 /\ 0 <= b3)%Q /\
    (forall e a1 a2 a3, In (e, (a1, a2, a3)) rs ->
       (a1 <= b1 /\ a2 <= b2 /\ a3 <= b3)%Q) /\
    ((epochs < 10)%Z ->
     (b1, b2, b3) = (0, 0, 0)%Q /\ best_acc m = (-1)%Q) /\
    ((10 <= epochs)%Z -> best_acc m = b3).
Proof.
  intros Hrun.
  destruct (train_reports _ _ _ _ _ _ _ _ Hrun)
    as (rs & [[b1 b2] b3] & Hr & Hmap & Hall & H0 & Hlast & Hnil & Hne).
  exists rs, b1, b2, b3. split; [exact Hr|]. split; [exact Hlast|].
  split; [exact H0|]. split; [|split].
  - intros e a1 a2 a3 Hin.
    apply (proj1 (List.Forall_forall _ _) Hall) in Hin. exact Hin.
  - intros Hlt. rewrite (filter_tenth_short epochs Hlt) in Hmap.
    destruct rs; [|discriminate]. now apply Hnil.
  - intros Hge. apply Hne. intros ->.
    apply (filter_tenth_long epochs Hge). now rewrite <- Hmap.
Qed.

End GGNN_reports_statements.

Section GGNN_reports_examples.
Import Torch GGNN_Train Sample.

Lemma train_reports_every_tenth_epoch_witness :
  exists m w',
    train one_graph graph one_graph 21 1 empty_world = Ok (m, w') /\
    map fst (reports (stdout w')) = [10; 20]%Z.
Proof.
  destruct (train one_graph graph one_graph 21 1 empty_world)
    as [[m w']|e] eqn:Hrun; [|vm_compute in Hrun; discriminate].
  exists m, w'. split; [reflexivity|].
  now destruct (train_reports_every_tenth_epoch _ _ _ _ _ _ _ _ Hrun) as [Hr _].
Defined.

Lemma train_best_accuracies_witness :
  exists m w' b1 b2 b3,
    train one_graph graph one_graph 10 1 empty_world = Ok (m, w') /\
    List.last (stdout w') OutData = OutBest b1 b2 b3 /\
    best_acc m = b3 /\
    forall e a1 a2 a3, In (e, (a1, a2, a3)) (reports (stdout w')) ->
      (a1 <= b1 /\ a2 <= b2 /\ a3 <= b3)%Q.
Proof.
  destruct (train one_graph graph one_graph 10 1 empty_world)
    as [[m w']|e] eqn:Hrun; [|vm_compute in Hrun; discriminate].
  destruct (train_best_accuracies_dominate_reports _ _ _ _ _ _ _ _ Hrun)
    as (rs & b1 & b2 & b3 & Hr & Hlast & _ & Hle & _ & Hbest).
  exists m, w', b1, b2, b3. split; [reflexivity|]. split; [exact Hlast|].
  split; [apply Hbest; lia|]. simpl in Hr. now rewrite Hr.
Defined.

(** Ten epochs on the sample graph: one report, at epoch 10, and the best
    accuracies printed are those of that report. *)
Example train_ten_epochs_reports_once :
  match train one_graph graph one_graph 10 1 empty_world with
  | Ok (m, w') =>
      reports (stdout w') = [(10%Z, (Qmake 1 1, Qmake 1 1, Qmake 1 1))] /\
      List.last (stdout w') OutData = OutBest (Qmake 1 1) (Qmake 1 1) (Qmake 1 1) /\
      best_acc m = Qmake 1 1
  | Raise _ => False
  end.
Proof. vm_compute. repeat split. Qed.

End GGNN_reports_examples.

(** ** The gated network: the modules of the MLP *)

Section Names.

Lemma str_inj (a b : nat) : str a = str b -> a = b.
Proof.
  unfold str. intros Hs.
  assert (Hu : Nat.to_uint a = Nat.to_uint b).
  { pose proof (NilEmpty.usu (Nat.to_uint a)) as Ha.
    pose proof (NilEmpty.usu (Nat.to_uint b)) as Hb.
    rewrite Hs in Ha. congruence. }
  rewrite <- (DecimalNat.Unsigned.of_to a), <- (DecimalNat.Unsigned.of_to b).
  now rewrite Hu.
Qed.

(** A module registered under a new name comes last. *)
Lemma add_module_fresh {X} (name : string) (m : X) (modules : list (string * X)) :
  ~ In name (map fst modules) ->
  GGNN_Train.add_module name m modules = modules ++ [(name, m)].
Proof.
  induction modules as [|[n m'] modules IH]; intros Hfresh; [reflexivity|].
  simpl. destruct (String.eqb_spec n name) as [->|Hne].
  - exfalso. apply Hfresh. now left.
  - f_equal. apply IH. intros Hin. apply Hfresh. now right.
Qed.

Lemma map_flat_map {X Y Z} (g : Y -> Z) (f : X -> list Y) (l : list X) :
  map g (flat_map f l) = flat_map (fun x => map g (f x)) l.
Proof.
  induction l as [|x l IH]; simpl; [reflexivity|].
  now rewrite map_app, IH.
Qed.

Lemma fold_left_map {X Y Z} (f : X -> Z -> X) (g : Y -> Z) (l : list Y) (a : X) :
  fold_left f (map g l) a = fold_left (fun r y => f r (g y)) l a.
Proof. revert a. induction l as [|y l IH]; intros a; simpl; [reflexivity|apply IH]. Qed.

End Names.

Section MLP_modules.
Import Torch GGNN_Train.
Context {A : Type} `{Scalar A} `{!Framework A}.

(** The names of the steps below [k]. *)
Lemma in_MLP_names (name : string) (k : nat) :
  In name (flat_map MLP_names (seq 0 k)) ->
  exists i, i < k /\
    (name = String.append "lay_" (str i) \/ name = String.append "act_" (str i)).
Proof.
  intros Hin. apply in_flat_map in Hin as (i & Hi & Hin).
  apply in_seq in Hi. exists i. split; [lia|].
  destruct Hin as [<-|[<-|[]]]; [now left|now right].
Qed.

Lemma lay_fresh (k : nat) :
  ~ In (String.append "lay_" (str k)) (flat_map MLP_names (seq 0 k)).
Proof.
  intros Hin. apply in_MLP_names in Hin as (i & Hi & [Heq|Heq]).
  - rewrite !append_cons, !append_nil in Heq. injection Heq as Heq.
    apply str_inj in Heq. lia.
  - rewrite !append_cons in Heq. discriminate.
Qed.

Lemma act_fresh (k : nat) :
  ~ In (String.append "act_" (str k))
       (flat_map MLP_names (seq 0 k) ++ [String.append "lay_" (str k)]).
Proof.
  intros Hin. apply in_app_or in Hin as [Hin|[Heq|[]]].
  - apply in_MLP_names in Hin as (i & Hi & [Heq|Heq]).
    + rewrite !append_cons in Heq. discriminate.
    + rewrite !append_cons, !append_nil in Heq. injection Heq as Heq.
      apply str_inj in Heq. lia.
  - rewrite !append_cons in Heq. discriminate.
Qed.

(** The modules that the step [i] of the loop registers for [dims]. *)
Lemma MLP_init_steps (dims : list nat) (k : nat) :
  k <= length dims - 1 ->
  fold_left
    (fun mlp i =>
       let mlp := add_module (String.append "lay_" (str i))
                    (Linear (nth i dims 0) (nth (i + 1) dims 0) true) mlp in
       if i + 1 <? length dims
       then add_module (String.append "act_" (str i)) (fun t => FOk (Tanh t)) mlp
       else mlp)
    (seq 0 k) []
  = flat_map
      (fun i => [(String.append "lay_" (str i),
                  Linear (nth i dims 0) (nth (i + 1) dims 0) true);
                 (String.append "act_" (str i),
                  (fun t => FOk (Tanh t)) : Layer A)])
      (seq 0 k).
Proof.
  induction k as [|k IH]; intros Hk; [reflexivity|].
  rewrite seq_S, fold_left_app, flat_map_app, IH by lia. simpl.
  set (G := flat_map _ (seq 0 k)).
  assert (Hnames : map fst G = flat_map MLP_names (seq 0 k)).
  { unfold G. rewrite map_flat_map. reflexivity. }
  rewrite (add_module_fresh (String.append "lay_" (str k)) _ G)
    by (rewrite Hnames; apply lay_fresh).
  destruct (Nat.ltb_spec (k + 1) (length dims)) as [_|Hge]; [|lia].
  rewrite add_module_fresh.
  - now rewrite <- app_assoc.
  - intros Hin. apply (act_fresh k). rewrite map_app in Hin.
    apply in_app_or in Hin as [Hin|Hin]; apply in_or_app; [left|right; exact Hin].
    unfold G in Hin. rewrite map_flat_map in Hin. exact Hin.
Qed.

Lemma MLP_layers_flat_map (dims : list nat) :
  flat_map
    (fun i => [Linear (nth i dims 0) (nth (i + 1) dims 0) true;
               (fun t => FOk (Tanh t)) : Layer A])
    (seq 0 (length dims - 1))
  = MLP_layers dims.
Proof.
  induction dims as [|d0 [|d1 rest] IH]; [reflexivity..|].
  replace (length (d0 :: d1 :: rest) - 1) with (S (length (d1 :: rest) - 1))
    by (simpl; lia).
  rewrite <- cons_seq.
  transitivity
    ([Linear d0 d1 true; (fun t => FOk (Tanh t)) : Layer A] ++ MLP_layers (d1 :: rest));
    [|reflexivity].
  rewrite <- IH, <- seq_shift.
  rewrite (flat_map_concat_map _ (seq 0 _)), (flat_map_concat_map _ (0 :: _)).
  cbn [map concat]. rewrite map_map. reflexivity.
Qed.

Lemma NoDup_snoc {X} (l : list X) (a : X) :
  List.NoDup l -> ~ In a l -> List.NoDup (l ++ [a]).
Proof.
  induction 1 as [|x l Hx Hl IH]; intros Ha; simpl.
  - constructor; [intros Hin; destruct Hin|constructor].
  - constructor.
    + intros Hin. apply in_app_or in Hin as [Hin|[Heq|[]]]; [now apply Hx|].
      apply Ha. now left.
    + apply IH. intros Hin. apply Ha. now right.
Qed.

Lemma MLP_names_NoDup (k : nat) : List.NoDup (flat_map MLP_names (seq 0 k)).
Proof.
  induction k as [|k IH]; [constructor|].
  rewrite seq_S, flat_map_app. cbn [flat_map Nat.add].
  rewrite app_nil_r.
  change (MLP_names k)
    with ([String.append "lay_" (str k)] ++ [String.append "act_" (str k)]).
  rewrite app_assoc. apply NoDup_snoc; [apply NoDup_snoc|].
  - exact IH.
  - apply lay_fresh.
  - apply act_fresh.
Qed.

End MLP_modules.

Section MLP_statements.
Import Torch GGNN_Train.
Context {A : Type} `{Scalar A} `{!Framework A}.

(** [MLP.__init__] registers, for every hidden dimension, a linear layer
    and a [Tanh], the last linear layer included: the test
    [i + 1 < len(dims)] of the loop never fails.  The names, [lay_i] and
    [act_i], are all different, so no module takes the place of another;
    [forward] runs the [2 * len(hid_dims)] modules in the order of
    registration, and what an [MLP] with at least one hidden dimension
    returns is an output of [Tanh]. *)
Theorem MLP_init_registers_a_Tanh_after_every_Linear
  (input_dim : nat) (hid_dims : list nat) :
  let modules := MLP_init input_dim hid_dims in
  map fst modules = flat_map MLP_names (seq 0 (length hid_dims)) /\
  List.NoDup (map fst modules) /\
  length modules = 2 * length hid_dims /\
  map snd modules = MLP_layers (input_dim :: hid_dims) /\
  (forall t, Sequential_forward modules t = MLP input_dim hid_dims t) /\
  (hid_dims <> [] ->
   (exists front, modules
      = front ++ [(String.append "act_" (str (length hid_dims - 1)),
                   fun t => FOk (Tanh t))]) /\
   forall t out, MLP input_dim hid_dims t = FOk out -> exists t', out = Tanh t').
Proof.
  intros modules.
  assert (Hm : modules
               = flat_map
                   (fun i => [(String.append "lay_" (str i),
                               Linear (nth i (input_dim :: hid_dims) 0)
                                 (nth (i + 1) (input_dim :: hid_dims) 0) true);
                              (String.append "act_" (str i),
                               (fun t => FOk (Tanh t)) : Layer A)])
                   (seq 0 (length hid_dims))).
  { unfold modules, MLP_init. cbn [length]. rewrite Nat.sub_succ, Nat.sub_0_r.
    apply (MLP_init_steps (input_dim :: hid_dims) (length hid_dims)). simpl. lia. }
  assert (Hnames : map fst modules = flat_map MLP_names (seq 0 (length hid_dims))).
  { rewrite Hm, map_flat_map. reflexivity. }
  assert (Hlayers : map snd modules = MLP_layers (input_dim :: hid_dims)).
  { rewrite Hm, map_flat_map, <- MLP_layers_flat_map. cbn [length].
    rewrite Nat.sub_succ, Nat.sub_0_r. reflexivity. }
  assert (Hfwd : forall t, Sequential_forward modules t = MLP input_dim hid_dims t).
  { intros t. unfold Sequential_forward, MLP. rewrite <- Hlayers.
    now rewrite fold_left_map. }
  split; [exact Hnames|]. split; [|split; [|split; [exact Hlayers|split; [exact Hfwd|]]]].
  - rewrite Hnames. apply MLP_names_NoDup.
  - rewrite Hm. clear. induction (length hid_dims) as [|k IH]; [reflexivity|].
    rewrite seq_S, flat_map_app, length_app, IH. simpl. lia.
  - intros Hne.
    assert (Hlast : exists front, modules
              = front ++ [(String.append "act_" (str (length hid_dims - 1)),
                           (fun t => FOk (Tanh t)) : Layer A)]).
    { rewrite Hm. destruct hid_dims as [|d hid]; [congruence|].
      cbn [length]. rewrite Nat.sub_succ, Nat.sub_0_r, seq_S, flat_map_app.
      cbn [flat_map Nat.add]. rewrite app_nil_r.
      eexists (_ ++ [_]). rewrite <- app_assoc. reflexivity. }
    split; [exact Hlast|].
    intros t out Hout. rewrite <- Hfwd in Hout.
    destruct Hlast as (front & Hfront). rewrite Hfront in Hout.
    unfold Sequential_forward in Hout. rewrite fold_left_app in Hout.
    cbn [fold_left snd] in Hout.
    destruct (fold_left _ front (FOk t)) as [t'|e]; [|discriminate].
    cbn [fbind] in Hout. inversion Hout. now exists t'.
Qed.

End MLP_statements.

Section MLP_examples.
Import Torch GGNN_Train Sample.

(** The modules of the MLP that [GGNN] builds, with three hidden
    dimensions. *)
Example MLP_init_names :
  map fst (MLP_init 32 (repeat 32 3))
  = ["lay_0"; "act_0"; "lay_1"; "act_1"; "lay_2"; "act_2"]%string.
Proof. reflexivity. Qed.

End MLP_examples.

(** ** The gated network: the global graph, and the range of an accuracy *)

Section GGNN_global_data.
Import Torch GGNN_Train.
Context {A : Type} `{Scalar A} `{!Framework A}.

(** [GatedGraphConv.forward] reads the edges from the global variable
    [data], not from the batch: [GGNN.forward] depends on its argument
    through the feature matrix only, and on an input that the guard lets
    through, with at least one propagation step, an edge of [data] that
    names a node outside the input makes [forward] raise an index error at
    its first propagation, whatever the edges of the batch are. *)
Theorem forward_reads_the_edges_of_the_global_data
  (data : Data A) (self : GatedGraphConv A) (x : Tensor A) (log : list call)
  (e : nat * nat) :
  size1 x <= out_channels self -> 0 < num_layers self ->
  In e (edge_index data) -> (size0 x <= fst e \/ size0 x <= snd e) ->
  forward data self x log = Raise (Runtime IndexError) /\
  forall (model : GGNN A) (d d' : Data A),
    Torch.x d = Torch.x d' -> GGNN_forward data model d = GGNN_forward data model d'.
Proof.
  intros Hle Hpos Hin Hout. split.
  - destruct (pad_spec self x log Hle) as (x0 & Hpad & Hx00 & Hx01 & _).
    unfold forward. apply Nat.leb_le in Hle as Hleb.
    rewrite Nat.ltb_antisym, Hleb. cbn [negb].
    rewrite (bind_Ok _ _ _ _ _ Hpad).
    destruct (num_layers self) as [|n] eqn:Hn; [lia|].
    cbn [seq for_each]. apply bind_Raise.
    unfold forward_step.
    assert (Hw : index3 (weight self) 0
                 = FOk (mkTensor (out_channels self) (out_channels self)
                          (weight_entries self 0))).
    { unfold index3, weight. cbn [dim0 dim1 dim2 item3]. now rewrite Hn. }
    rewrite (bind_Ok _ _ _ _ _ (lift_FOk _ _ log Hw)).
    assert (Hm : exists m, matmul x0 (mkTensor (out_channels self) (out_channels self)
                                        (weight_entries self 0)) = FOk m /\
                           size0 m = size0 x).
    { unfold matmul. cbn [size0 size1]. rewrite Hx01, Nat.eqb_refl.
      eexists. split; [reflexivity|]. exact Hx00. }
    destruct Hm as (m & Hm & Hm0).
    rewrite (bind_Ok _ _ _ _ _ (logged_Ok (CallMatmul 0) _ _ log Hm)).
    apply bind_Raise.
    assert (Hp : propagate default_message (edge_index data) m = FErr IndexError).
    { unfold propagate.
      destruct (forallb _ (edge_index data)) eqn:Hall; [|reflexivity].
      exfalso. apply (proj1 (forallb_forall _ _) Hall) in Hin.
      apply andb_prop in Hin as [H1 H2].
      apply Nat.ltb_lt in H1, H2. lia. }
    rewrite Hp. reflexivity.
  - intros model d d' Hx. unfold GGNN_forward. now rewrite Hx.
Qed.

(** The accuracy that [train] computes for a mask lies between 0 and 1. *)
Theorem train_accuracy_between_zero_and_one {S}
  (logits : Tensor A) (d : Data A) (mask : list bool) (s s' : S) (acc : Q) :
  accuracy logits d mask s = Ok (acc, s') -> (0 <= acc <= 1)%Q.
Proof.
  intros Ha. apply accuracy_spec in Ha as (_ & Hz & ->).
  set (correct := length (List.filter _ (mask_positions mask))).
  assert (Hle : correct <= mask_sum mask).
  { unfold correct, mask_sum. apply List.filter_length_le. }
  unfold Qle. cbn [Qnum Qden].
  assert (Hden : Z.pos (Pos.of_nat (mask_sum mask)) = Z.of_nat (mask_sum mask)).
  { rewrite <- positive_nat_Z, Nat2Pos.id by exact Hz. reflexivity. }
  rewrite Hden. split; lia.
Qed.

End GGNN_global_data.

Section GGNN_global_data_examples.
Import Torch GGNN_Train Sample.

(** The sample layer on the features of a graph of two nodes, while the
    global graph has three: the edge between the nodes 1 and 2 of the
    global graph is outside the input. *)
Lemma forward_reads_the_edges_witness :
  forward graph layer (of_rows 2 [[1; 2]; [3; 4]]%Z) []
  = Raise (Runtime IndexError).
Proof.
  destruct (forward_reads_the_edges_of_the_global_data graph layer
              (of_rows 2 [[1; 2]; [3; 4]]%Z) [] (1, 2)) as [Hraise _].
  - simpl. lia.
  - simpl. lia.
  - simpl. tauto.
  - right. simpl. lia.
  - exact Hraise.
Defined.

Lemma train_accuracy_between_zero_and_one_witness :
  (0 <= Qmake 2 2 <= 1)%Q.
Proof.
  refine (train_accuracy_between_zero_and_one (S := unit)
            (of_rows 2 [[0; 5]; [3; 1]; [0; 2]]%Z) scored (test_mask scored)
            tt tt (Qmake 2 2) _).
  reflexivity.
Defined.

End GGNN_global_data_examples.

(** ** The gated network: the shapes along the forward pass *)

Section GGNN_shapes.
Import Torch GGNN_Train.
Context {A : Type} `{Scalar A} `{!Framework A} {V : Type} `{!Telemetry V}.

(** The MLP on features of [d0] columns: [hlayers] hidden layers of [hdim]
    features each. *)
Lemma MLP_shape (hdim : nat) :
  linear_total -> shape_kept Tanh ->
  forall (hlayers d0 : nat) (t : Tensor A),
    size1 t = d0 ->
    exists t', MLP d0 (repeat hdim hlayers) t = FOk t' /\
      size0 t' = size0 t /\
      size1 t' = (if hlayers =? 0 then d0 else hdim).
Proof.
  intros Hlin Htanh. induction hlayers as [|n IH]; intros d0 t Ht.
  - exists t. now repeat split.
  - destruct (Hlin d0 hdim true t Ht) as (t1 & Ht1 & H10 & H11).
    destruct (Htanh t1) as [H20 H21].
    destruct (IH hdim (Tanh t1)) as (t' & Ht' & H0 & H1); [congruence|].
    exists t'. split; [|split].
    + unfold MLP in *. cbn [repeat MLP_layers fold_left fbind].
      rewrite Ht1. cbn [fbind]. exact Ht'.
    + congruence.
    + cbn [Nat.eqb]. destruct (n =? 0); congruence.
Qed.

(** What [GGNN.__init__] makes of its arguments, module by module. *)
Lemma GGNN_init_modules (num_classes in_channels : nat) (out_channels : option nat)
  (num_conv : Z) (hidden_dim mlp_hdim mlp_hlayers : nat)
  (self : GGNN A) (w w' : World V output) :
  GGNN_init num_classes in_channels out_channels num_conv
    hidden_dim mlp_hdim mlp_hlayers w = Ok (self, w') ->
  let out := default in_channels out_channels in
  rnn (conv self) = GRUCell out out true /\
  mlp self = MLP out (repeat mlp_hdim mlp_hlayers) /\
  out_layer self = Linear mlp_hdim num_classes true.
Proof.
  intros Hi out. unfold GGNN_init in Hi. fold out in Hi.
  apply bind_inv_Ok in Hi as (e & w2 & He & Hi).
  apply bind_inv_Ok in Hi as (c & w3 & Hc & Hi).
  apply lift_inv_Ok in Hc as [Hc ->].
  unfold GatedGraphConv_init in Hc.
  destruct (num_conv <? 0)%Z; [discriminate|].
  inversion Hc; subst c. clear Hc.
  unfold ret in Hi. inversion Hi; subst self w'. now repeat split.
Qed.

End GGNN_shapes.

Section GGNN_shapes_statements.
Import Torch GGNN_Train.
Context {A : Type} `{Scalar A} `{!Framework A} {V : Type} `{!Telemetry V}.

(** The shapes fit along [GGNN.forward].  On a model whose embedding, if
    there is one, is not wider than [out_channels], and whose output layer
    takes what the MLP returns, a batch of [in_channels] features per node
    goes through the embedding, the [num_conv] steps of the gated layer,
    the MLP and the output layer, on the edges of the global graph: what
    comes back is a score per node and class together with its
    [log_softmax], and the library calls made are those of the [num_conv]
    propagation steps.  The model that [train] builds, with
    [out_channels], [hidden_dim] and [mlp_hdim] all 32 and three hidden
    layers, is such a model. *)
Theorem GGNN_forward_returns_a_score_per_node_and_class
  (num_classes in_channels : nat) (out_channels : option nat) (num_conv : Z)
  (hidden_dim mlp_hdim mlp_hlayers : nat) (w w' : World V output)
  (self : GGNN A) (data d : Data A) (t : Tensor A) (log : list call) :
  let out := default in_channels out_channels in
  linear_total -> shape_kept Tanh -> shape_kept log_softmax ->
  cell_contract (GRUCell out out true) out ->
  (in_channels = out \/ hidden_dim <= out) ->
  (0 < mlp_hlayers \/ mlp_hdim = out) ->
  GGNN_init num_classes in_channels out_channels num_conv
    hidden_dim mlp_hdim mlp_hlayers w = Ok (self, w') ->
  x d = Some t -> size1 t = in_channels -> edges_within data (size0 t) ->
  exists x_emb,
    GGNN_forward data self d log
    = Ok ((x_emb, log_softmax x_emb), log ++ iterations 0 (Z.to_nat num_conv)) /\
    size0 x_emb = size0 t /\ size1 x_emb = num_classes /\
    size0 (log_softmax x_emb) = size0 t /\
    size1 (log_softmax x_emb) = num_classes.
Proof.
  intros out Hlin Htanh Hsoft Hcell Hemb Hhead Hinit Hxd Ht Hedges.
  destruct (GGNN_init_model _ _ _ _ _ _ _ _ _ _ Hinit)
    as (Hemb_self & Hout & _ & Hlayers & _).
  destruct (GGNN_init_modules _ _ _ _ _ _ _ _ _ _ Hinit) as (Hrnn & Hmlp & Hhead_self).
  fold out in Hemb_self, Hout, Hrnn, Hmlp.
  (* the embedding *)
  assert (Hx1 : exists x1,
            (match emb self, x d with
             | None, Some t => FOk t
             | Some linear, Some t => linear t
             | Some _, None => FErr TypeError
             | None, None => FErr AttributeError
             end) = FOk x1 /\ size0 x1 = size0 t /\ size1 x1 <= out).
  { rewrite Hemb_self, Hxd. destruct (Nat.eqb_spec in_channels out) as [Heq|Hne].
    - exists t. split; [reflexivity|]. split; [reflexivity|lia].
    - destruct (Hlin in_channels hidden_dim false t Ht) as (x1 & Hx1 & H0 & H1).
      exists x1. split; [exact Hx1|]. split; [exact H0|]. lia. }
  destruct Hx1 as (x1 & Hx1 & Hx10 & Hx11).
  (* the gated layer *)
  rewrite <- Hout in Hx11.
  destruct (pad_spec (conv self) x1 log Hx11) as (x0 & Hpad & Hx00 & Hx01 & _).
  destruct (loop_unrolls data (conv self) (num_layers (conv self)) 0 x0 x0 log)
    as (xT & Hloop & _ & HxT0 & HxT1).
  { now rewrite Hrnn, Hout. }
  { now rewrite Hx00, Hx10. }
  { exact Hx01. }
  { lia. }
  { constructor. }
  assert (Hconv : forward data (conv self) x1 log
                  = Ok (xT, log ++ iterations 0 (num_layers (conv self)))).
  { unfold forward. apply Nat.leb_le in Hx11 as Hleb.
    rewrite Nat.ltb_antisym, Hleb. cbn [negb].
    now rewrite (bind_Ok _ _ _ _ _ Hpad). }
  (* the MLP and the output layer *)
  destruct (MLP_shape mlp_hdim Hlin Htanh mlp_hlayers out xT) as (x3 & Hx3 & H30 & H31);
    [congruence|].
  assert (H3 : size1 x3 = mlp_hdim).
  { rewrite H31. destruct (Nat.eqb_spec mlp_hlayers 0); [|reflexivity].
    destruct Hhead; [lia|congruence]. }
  destruct (Hlin mlp_hdim num_classes true x3 H3) as (x4 & Hx4 & H40 & H41).
  destruct (Hsoft x4) as [Hs0 Hs1].
  exists x4. split.
  - unfold GGNN_forward.
    rewrite (bind_Ok _ _ _ _ _ (lift_FOk _ _ log Hx1)).
    rewrite (bind_Ok _ _ _ _ _ Hconv).
    rewrite Hmlp, (bind_Ok _ _ _ _ _ (lift_FOk _ _ _ Hx3)).
    rewrite Hhead_self, (bind_Ok _ _ _ _ _ (lift_FOk _ _ _ Hx4)).
    unfold ret. now rewrite Hlayers.
  - repeat split; congruence.
Qed.

End GGNN_shapes_statements.

Section GGNN_shapes_examples.
Import Torch GGNN_Train Sample.

Lemma sample_linear_total : linear_total (A := Z).
Proof.
  intros n_in n_out b t Ht. simpl. now apply keep_layer_Ok.
Qed.

Lemma GGNN_forward_returns_scores_witness :
  exists self w' x_emb,
    GGNN_init 2 2 (Some 32) 1 32 32 3 empty_world = Ok (self, w') /\
    GGNN_forward graph self graph []
    = Ok ((x_emb, x_emb), [CallMatmul 0; CallPropagate; CallRnn]) /\
    size0 x_emb = 3 /\ size1 x_emb = 2.
Proof.
  destruct (GGNN_init 2 2 (Some 32) 1 32 32 3 empty_world)
    as [[self w']|e] eqn:Hinit; [|vm_compute in Hinit; discriminate].
  destruct (GGNN_forward_returns_a_score_per_node_and_class
              2 2 (Some 32) 1 32 32 3 empty_world w' self graph graph features []
              sample_linear_total) as (x_emb & Hfwd & H0 & H1 & _).
  - intros t. now split.
  - intros t. now split.
  - apply add_cell_contract.
  - right. simpl. lia.
  - left. lia.
  - exact Hinit.
  - reflexivity.
  - reflexivity.
  - exact graph_edges_within.
  - exists self, w', x_emb. split; [reflexivity|]. split; [exact Hfwd|]. now split.
Defined.

End GGNN_shapes_examples.

(** ** The antisymmetric weight matrix as a quadratic form *)

Section Sums.
Import Torch.
Open Scope R_scope.

Lemma sum_upto_S (n : nat) (f : nat -> R) :
  sum_upto (S n) f = sum_upto n f + f n.
Proof. unfold sum_upto. rewrite seq_S, fold_left_app. reflexivity. Qed.

Lemma sum_upto_0 (f : nat -> R) : sum_upto 0 f = 0.
Proof. reflexivity. Qed.

Lemma sum_upto_ext (n : nat) (f g : nat -> R) :
  (forall k, (k < n)%nat -> f k = g k) -> sum_upto n f = sum_upto n g.
Proof.
  induction n as [|n IH]; intros Hfg; [reflexivity|].
  rewrite !sum_upto_S, IH, Hfg by (intros; try apply Hfg; lia). reflexivity.
Qed.

Lemma sum_upto_plus (n : nat) (f g : nat -> R) :
  sum_upto n (fun k => f k + g k) = sum_upto n f + sum_upto n g.
Proof.
  induction n as [|n IH]; [rewrite !sum_upto_0; ring|].
  rewrite !sum_upto_S, IH. ring.
Qed.

Lemma sum_upto_scal_l (n : nat) (c : R) (f : nat -> R) :
  sum_upto n (fun k => c * f k) = c * sum_upto n f.
Proof.
  induction n as [|n IH]; [rewrite !sum_upto_0; ring|].
  rewrite !sum_upto_S, IH. ring.
Qed.

Lemma sum_upto_scal_r (n : nat) (c : R) (f : nat -> R) :
  sum_upto n (fun k => f k * c) = sum_upto n f * c.
Proof.
  induction n as [|n IH]; [rewrite !sum_upto_0; ring|].
  rewrite !sum_upto_S, IH. ring.
Qed.

Lemma sum_upto_zero (n : nat) : sum_upto n (fun _ => 0) = 0.
Proof.
  induction n as [|n IH]; [reflexivity|]. rewrite sum_upto_S, IH. ring.
Qed.

(** The order of two finite sums. *)
Lemma sum_upto_swap (n m : nat) (F : nat -> nat -> R) :
  sum_upto n (fun j => sum_upto m (fun k => F j k))
  = sum_upto m (fun k => sum_upto n (fun j => F j k)).
Proof.
  induction n as [|n IH].
  - rewrite sum_upto_0. symmetry. apply sum_upto_zero.
  - rewrite sum_upto_S, IH, <- sum_upto_plus.
    apply sum_upto_ext. intros k _. now rewrite sum_upto_S.
Qed.

(** A sum against the rows of the identity picks one term. *)
Lemma sum_upto_delta (n j : nat) (f : nat -> R) :
  (j < n)%nat ->
  sum_upto n (fun k => f k * (if (k =? j)%nat then 1 else 0)) = f j.
Proof.
  induction n as [|n IH]; intros Hj; [lia|].
  rewrite sum_upto_S. destruct (Nat.eqb_spec n j) as [->|Hne].
  - rewrite (sum_upto_ext j _ (fun _ => 0)), sum_upto_zero; [ring|].
    intros k Hk. destruct (Nat.eqb_spec k j); [lia|ring].
  - rewrite IH by lia. ring.
Qed.

Lemma sum_upto_opp (n : nat) (f : nat -> R) :
  sum_upto n (fun k => - f k) = - sum_upto n f.
Proof.
  induction n as [|n IH]; [rewrite !sum_upto_0; ring|].
  rewrite !sum_upto_S, IH. ring.
Qed.

(** The quadratic form of an antisymmetric matrix vanishes. *)
Lemma antisymmetric_form_vanishes (n : nat) (M : nat -> nat -> R) (v : nat -> R) :
  (forall k j, (k < n)%nat -> (j < n)%nat -> M k j = - M j k) ->
  sum_upto n (fun j => sum_upto n (fun k => v k * M k j) * v j) = 0.
Proof.
  intros Hanti.
  set (T := fun j k => v k * M k j * v j).
  assert (H1 : sum_upto n (fun j => sum_upto n (fun k => v k * M k j) * v j)
               = sum_upto n (fun j => sum_upto n (fun k => T j k))).
  { apply sum_upto_ext. intros j _. now rewrite <- sum_upto_scal_r. }
  assert (H2 : sum_upto n (fun j => sum_upto n (fun k => T j k))
               = sum_upto n (fun j => sum_upto n (fun k => - T j k))).
  { rewrite sum_upto_swap. apply sum_upto_ext. intros a Ha.
    apply sum_upto_ext. intros b Hb. unfold T.
    rewrite (Hanti a b Ha Hb). ring. }
  assert (H3 : sum_upto n (fun j => sum_upto n (fun k => - T j k))
               = - sum_upto n (fun j => sum_upto n (fun k => T j k))).
  { rewrite <- sum_upto_opp. apply sum_upto_ext. intros j _. apply sum_upto_opp. }
  rewrite H1. rewrite H3 in H2. lra.
Qed.

End Sums.

Section ADGN_quadratic_form.
Import Torch ADGN_Message.
Open Scope R_scope.

(** In exact real arithmetic (sums and products without rounding), with
    [antisymmetry=True] the product [x @ W] that [forward] forms pulls
    every node back towards the origin: the inner product of the row of
    [x @ W] of a node with the features of that node is [- gamma] times the
    squared length of the features, whatever the trained [Weights] are (the
    antisymmetric part [Weights - Weights.T] contributes nothing). *)
Theorem antisymmetric_weights_act_against_the_features
  (self : ADGNConv) (x : Tensor R) :
  antisymmetry self = true ->
  size1 x = in_channels self ->
  exists W xw,
    effective_W self = FOk W /\ matmul x W = FOk xw /\
    size0 xw = size0 x /\ size1 xw = in_channels self /\
    forall i,
      sum_upto (in_channels self) (fun j => item xw i j * item x i j)
      = - gamma self * sum_upto (in_channels self) (fun j => item x i j * item x i j).
Proof.
  intros Ha Hx.
  destruct (effective_W_antisymmetry_entries self Ha) as (W & HW & HW0 & HW1 & HWi).
  exists W. unfold matmul. rewrite Hx, HW0, Nat.eqb_refl.
  eexists. split; [exact HW|]. split; [reflexivity|].
  split; [reflexivity|]. split; [exact HW1|].
  intros i. cbn [item size0 size1 s_mul s_add s_zero].
  set (n := in_channels self) in *.
  set (M := fun k j => Weights_entries self k j - Weights_entries self j k).
  rewrite (sum_upto_ext n _
             (fun j => sum_upto n (fun k => item x i k * M k j) * item x i j
                       + - gamma self * (item x i j * item x i j))).
  - rewrite sum_upto_plus, sum_upto_scal_l.
    rewrite (antisymmetric_form_vanishes n M (item x i)); [ring|].
    intros k j _ _. unfold M. ring.
  - intros j Hj.
    rewrite (sum_upto_ext n _
               (fun k => item x i k * M k j
                         + - gamma self * (item x i k * (if (k =? j)%nat then 1 else 0)))).
    + rewrite sum_upto_plus, sum_upto_scal_l, sum_upto_delta by exact Hj. ring.
    + intros k Hk. rewrite (HWi k j Hk Hj). unfold M.
      change (@s_mul R _) with Rmult. ring.
Qed.

End ADGN_quadratic_form.

Section ADGN_quadratic_form_examples.
Import Torch ADGN_Message Sample.
Open Scope R_scope.

Lemma antisymmetric_weights_witness :
  exists W xw,
    effective_W (adgn_layer (1 / 10)) = FOk W /\ matmul two_nodes W = FOk xw /\
    sum_upto 2 (fun j => item xw 1%nat j * item two_nodes 1%nat j)
    = - (1 / 10) * sum_upto 2 (fun j => item two_nodes 1%nat j * item two_nodes 1%nat j).
Proof.
  destruct (antisymmetric_weights_act_against_the_features
              (adgn_layer (1 / 10)) two_nodes eq_refl eq_refl)
    as (W & xw & HW & Hxw & _ & _ & Hq).
  exists W, xw. split; [exact HW|]. split; [exact Hxw|]. exact (Hq 1%nat).
Defined.

End ADGN_quadratic_form_examples.

(** ** The embedding that [GCN.forward] returns *)


Section GCN_embedding_statement.
Import Torch GNN.
Context {A : Type} `{Scalar A} `{!Framework A}.

(** On a graph with features that fit the model, [GCN.forward] returns, and
    the embedding it returns beside the prediction is what the last
    convolution returned, taken before the activation and the dropout: it
    has a row for every node and [hidden] columns, on a graph task too,
    where the prediction is formed from the pooled features. *)
Theorem GCN_forward_returns_output_of_last_convolution
  (self : GCN A) (d : Data A) (input_dim hidden : nat) (t : Tensor A) :
  GCN_contract self input_dim hidden ->
  x d = Some t -> size1 t = input_dim -> 0 < input_dim ->
  (forall e, In e (edge_index d) -> fst e < size0 t /\ snd e < size0 t) ->
  exists emb logp c xin,
    GCN_forward self d = FOk (emb, logp) /\
    nth_error (convs self) (Z.to_nat (num_layers self) - 1) = Some c /\
    c xin (edge_index d) = FOk emb /\
    size0 emb = size0 t /\ size1 emb = hidden.
Proof.
  intros [(c0 & cs & Hconvs & Hc0 & Hcs & Hnum) Hrelu Hdrop Hpool Hpost]
    Hx Ht Hpos Hei.
  unfold GCN_forward, num_node_features. rewrite Hx.
  destruct (Nat.eqb_spec (size1 t) 0) as [Hz|_]; [lia|].
  unfold layer_stack. rewrite Hnum, range_0_of_nat.
  change (seq 0 (S (length cs))) with (0 :: seq 1 (length cs)).
  cbn [map conv_loop].
  destruct (conv_step_emb self (edge_index d) (size0 t) hidden 0 c0 input_dim t None)
    as (t1 & e1 & Hstep & H0 & H1 & He1); try assumption; try reflexivity.
  { now rewrite Hconvs. }
  cbn [Z.of_nat] in Hstep. rewrite Hstep.
  destruct (conv_loop_emb self (edge_index d) (size0 t) hidden cs 0 t1 e1)
    as (t2 & e2 & Hloop & H20 & H21 & (c & xin & Hc & Hrun & He0 & He1'));
    try assumption.
  { intros k c Hk. now rewrite Hconvs. }
  rewrite Hloop.
  assert (Hlast : Z.to_nat (Z.of_nat (S (length cs))) - 1 = 0 + length cs) by lia.
  rewrite Hlast.
  destruct (String.eqb (task self) "graph").
  - destruct (Hpool t2 (batch d) H21) as (t3 & Ht3 & H31). rewrite Ht3.
    destruct (Hpost (training self) t3 H31) as (t4 & Ht4). rewrite Ht4.
    exists e2, (log_softmax t4), c, xin. now repeat split.
  - destruct (Hpost (training self) t2 H21) as (t4 & Ht4). rewrite Ht4.
    exists e2, (log_softmax t4), c, xin. now repeat split.
Qed.

End GCN_embedding_statement.

Section GCN_embedding_examples.
Import Torch GNN Sample.

Lemma scored_edges_within (t : Tensor Z) :
  x scored = Some t ->
  forall e, In e (edge_index scored) -> fst e < size0 t /\ snd e < size0 t.
Proof.
  intros Ht e He. inversion Ht; subst t. simpl in He.
  repeat (destruct He as [<-|He]; [simpl; lia|]). destruct He.
Qed.

Lemma GCN_forward_returns_output_of_last_convolution_witness :
  exists emb logp c xin,
    GCN_forward gcn_for_scored scored = FOk (emb, logp) /\
    nth_error (convs gcn_for_scored) 6 = Some c /\
    c xin (edge_index scored) = FOk emb /\
    size0 emb = 3 /\ size1 emb = 32.
Proof.
  refine (GCN_forward_returns_output_of_last_convolution gcn_for_scored scored 2 32
            (of_rows 2 [[0; 5]; [3; 1]; [0; 2]]%Z)
            (sample_gcn_contract 2 6 _) eq_refl eq_refl _
            (scored_edges_within _ eq_refl)); lia.
Defined.

End GCN_embedding_examples.

(** ** The representation of a gated layer *)

Section Decimal_strings.

(** The characters of a decimal numeral are digits: none of them is the
    character [c] when [c] is not a digit. *)
Lemma string_of_uint_digits (c : ascii) (d : Decimal.uint) :
  ~ In c (list_ascii_of_string "0123456789") ->
  ~ In c (list_ascii_of_string (NilEmpty.string_of_uint d)).
Proof.
  intros Hc. simpl in Hc.
  induction d as [|d IH|d IH|d IH|d IH|d IH|d IH|d IH|d IH|d IH|d IH];
    simpl; intros Hin; [exact Hin|..];
    (destruct Hin as [Hin|Hin]; [apply Hc; subst c; tauto|exact (IH Hin)]).
Qed.

Lemma str_digits (c : ascii) (n : nat) :
  ~ In c (list_ascii_of_string "0123456789") ->
  ~ In c (list_ascii_of_string (str n)).
Proof. apply string_of_uint_digits. Qed.

(** Two texts cut at the first occurrence of a separator agree part by
    part. *)
Lemma split_at_separator (c : ascii) : forall s1 s2 r1 r2 : string,
  ~ In c (list_ascii_of_string s1) -> ~ In c (list_ascii_of_string s2) ->
  String.append s1 (String c r1) = String.append s2 (String c r2) ->
  s1 = s2 /\ r1 = r2.
Proof.
  induction s1 as [|a s1 IH]; intros [|b s2] r1 r2 H1 H2 Heq.
  - rewrite !append_nil in Heq. injection Heq as ->. now split.
  - rewrite append_nil, append_cons in Heq. injection Heq as <- _.
    exfalso. apply H2. now left.
  - rewrite append_nil, append_cons in Heq. injection Heq as -> _.
    exfalso. apply H1. now left.
  - rewrite !append_cons in Heq. injection Heq as -> Heq.
    destruct (IH s2 r1 r2) as [-> ->]; try assumption.
    + intros Hin. apply H1. now right.
    + intros Hin. apply H2. now right.
    + now split.
Qed.

End Decimal_strings.

Section Representation.
Import Torch GGNN_Train.
Context {A : Type} `{Scalar A} `{!Framework A}.

(** The text that [__repr__] returns for a gated layer can be read in one
    way only: two layers with the same representation have the same
    [out_channels] and the same [num_layers]. *)
Theorem GatedGraphConv_repr_determines_channels_and_layers
  (self other : GatedGraphConv A) :
  GatedGraphConv_repr self = GatedGraphConv_repr other ->
  out_channels self = out_channels other /\ num_layers self = num_layers other.
Proof.
  unfold GatedGraphConv_repr. intros Heq.
  rewrite !append_cons, !append_nil in Heq. injection Heq as Heq.
  apply split_at_separator in Heq as [Hout Hrest];
    [|apply str_digits; simpl; intuition discriminate..].
  injection Hrest as Hrest.
  apply split_at_separator in Hrest as [Hnum _];
    [|apply str_digits; simpl; intuition discriminate..].
  split; now apply str_inj.
Qed.

End Representation.

Section Representation_examples.
Import Torch GGNN_Train Sample.

Example GatedGraphConv_repr_of_layer :
  GatedGraphConv_repr layer = "GatedGraphConv(3, num_layers=2)"%string.
Proof. reflexivity. Qed.

Lemma GatedGraphConv_repr_witness :
  out_channels (mkGatedGraphConv 3 2 (add_cell 3 3 false) (fun _ _ _ => 0%Z))
  = out_channels layer /\
  num_layers (mkGatedGraphConv 3 2 (add_cell 3 3 false) (fun _ _ _ => 0%Z))
  = num_layers layer.
Proof.
  apply (GatedGraphConv_repr_determines_channels_and_layers
           (mkGatedGraphConv 3 2 (add_cell 3 3 false) (fun _ _ _ => 0%Z)) layer).
  reflexivity.
Defined.

End Representation_examples.
